(** * Parking-Ticket: billing, QR codec and ticket storage

  A shallow embedding of the domain logic of the Parking-Ticket
  application (React Native, JavaScript):

  - [src/utils/calculatePrice.js]: duration and fee computation;
  - [src/utils/qrCodeUtils.js]: the QR payload codec;
  - [src/storage/ticketStorage.js]: the two persisted collections
    (active tickets, history) on top of AsyncStorage;
  - [src/screens/NewTicketScreen.js]: the form handler [handleSave] that
    validates the input and opens a ticket, and the scanner of the form;
  - [src/screens/QRScannerScreen.js], [src/screens/TicketDetailScreen.js]
    and [src/screens/HistoryScreen.js]: the handlers that scan a code,
    load and close a ticket, and the statistics of the history.

  The engine's [JSON.stringify] and [JSON.parse] are modelled in full and
  proved to read back what they wrote; date parsing, [trim], [parseInt], the
  clock and the identifier generator are parameters, with an instance in
  module [Engine] on which the program can be run.

  JavaScript values are modelled by the inductive type [value]; code that
  can throw returns a [completion]; asynchronous code that talks to
  AsyncStorage, the clock, the id generator or the alert dialog is a state
  transformer over [world]. *)

From Stdlib Require Import ZArith NArith Ascii String List Lia Bool.
From stdpp Require Import base tactics option list strings gmap.

Set Warnings "-register-all".

(** ** JavaScript values *)

Module Js.

(** The exceptions that the modelled code can meet. *)
Inductive error : Type :=
| SyntaxError   (* JSON.parse on a malformed text *)
| TypeError     (* property access on null, call of a non-function *)
| StorageError. (* a rejected AsyncStorage promise *)

(** The outcome of evaluating an expression or a function body. *)
Inductive completion (A : Type) : Type :=
| Normal (a : A)
| Throw (e : error).
Global Arguments Normal {A} a.
Global Arguments Throw {A} e.

Global Instance completion_ret : MRet completion := @Normal.
Global Instance completion_bind : MBind completion := fun A B f c =>
  match c with
  | Normal a => f a
  | Throw e => Throw e
  end.

(** [try { body } catch (error) { handler }] *)
Definition try_catch {A} (body : completion A) (handler : error -> completion A)
  : completion A :=
  match body with
  | Normal a => Normal a
  | Throw e => handler e
  end.

(** Numbers.  A finite number [Fin m e] denotes the decimal [m / 10^e];
    it is in normal form when [e = 0] (an integer) or [m] is not a multiple
    of ten.  Every JSON numeral denotes such a decimal.  The operations on
    [number] are exact: they are those of the engine on the integers of
    magnitude up to 2^53, which a double holds exactly, as long as the
    result is such an integer too; beyond, the engine rounds to 53
    significant bits, and the statements that depend on an exact result
    carry that bound.  Where the program computes on numbers that can be
    larger, the time values of [calculateDuration], the rounding is
    modelled, by the functions on integers that follow [number].  Overflow
    to infinity and the sign of zero are not modelled. *)
Inductive number : Type :=
| NaN
| PosInf
| NegInf
| Fin (m : Z) (e : nat).

(** The integer [z]. *)
Definition Int (z : Z) : number := Fin z 0.

(** Doubles that are integers.  The integer nearest to [a / b] for [b > 0],
    the even one of two that are equally near. *)
Definition round_half_even (a b : Z) : Z :=
  let q := (a / b)%Z in
  let r := (a mod b)%Z in
  if (2 * r <? b)%Z then q
  else if (b <? 2 * r)%Z then (q + 1)%Z
  else if Z.even q then q else (q + 1)%Z.

(** The double nearest to the integer [z]: [z] itself when it has at most
    53 bits, otherwise [z] rounded to 53 significant bits, to the even
    neighbour when it is half way.  This is the result of an addition or a
    subtraction of doubles whose exact result is [z]. *)
Definition double_of_Z (z : Z) : Z :=
  let u := (2 ^ Z.max 0 (Z.log2 (Z.abs z) - 52))%Z in
  (round_half_even z u * u)%Z.

(** The exponent [e] with [2^e <= a / b < 2^(e+1)], for [a > 0] and
    [b > 0]. *)
Definition binade (a b : Z) : Z :=
  let d := (Z.log2 a - Z.log2 b)%Z in
  if (b * 2 ^ Z.max 0 d <=? a * 2 ^ Z.max 0 (- d))%Z then d else (d - 1)%Z.

(** [Math.floor(a / b)] for doubles [a] and [b > 0] that are integers: the
    quotient is rounded to 53 significant bits, a multiple of
    [2^(e - 52)] in the binade [e] of the quotient, before [Math.floor]
    sees it. *)
Definition Math_floor_quotient (a b : Z) : Z :=
  let e := binade (Z.abs a) b in
  let up := (2 ^ Z.max 0 (52 - e))%Z in
  let dn := (2 ^ Z.max 0 (e - 52))%Z in
  ((Z.sgn a * round_half_even (Z.abs a * up) (b * dn) * dn) / up)%Z.

(** The normal form of [m / 10^e]. *)
Fixpoint normalize (m : Z) (e : nat) : number :=
  match e with
  | O => Fin m 0
  | S e' => if (m mod 10 =? 0)%Z then normalize (m / 10) e' else Fin m e
  end.

Definition normal_form (n : number) : Prop :=
  match n with
  | Fin m (S _) => (m mod 10 <> 0)%Z
  | _ => True
  end.

Definition is_finite (n : number) : bool :=
  match n with Fin _ _ => true | _ => false end.

Definition num_sgn (n : number) : Z :=
  match n with
  | NaN => 0
  | PosInf => 1
  | NegInf => -1
  | Fin m _ => Z.sgn m
  end.

(** [a * b], exact. *)
Definition num_mul (a b : number) : number :=
  match a, b with
  | NaN, _ | _, NaN => NaN
  | Fin m j, Fin n k => normalize (m * n) (j + k)
  | _, _ =>
      match (num_sgn a * num_sgn b)%Z with
      | Z0 => NaN
      | Zpos _ => PosInf
      | Zneg _ => NegInf
      end
  end.

(** [isNaN(n)] *)
Definition isNaN (n : number) : bool :=
  match n with NaN => true | _ => false end.

(** [n <= 0] *)
Definition num_le_zero (n : number) : bool :=
  match n with
  | NaN => false
  | PosInf => false
  | NegInf => true
  | Fin m _ => (m <=? 0)%Z
  end.

(** [n > 0], for statements. *)
Definition num_pos (n : number) : Prop :=
  match n with
  | PosInf => True
  | Fin m _ => (0 < m)%Z
  | _ => False
  end.

(** Values.  An object is the list of its own enumerable properties in
    insertion order, with distinct keys; the keys that occur in this
    program are never array indices, so insertion order is also the
    enumeration order. *)
Inductive value : Type :=
| VUndefined
| VNull
| VBool (b : bool)
| VNum (n : number)
| VStr (s : string)
| VArr (l : list value)
| VObj (o : list (string * value)).

Definition object := list (string * value).

(** [!!v] *)
Definition truthy (v : value) : bool :=
  match v with
  | VUndefined | VNull => false
  | VBool b => b
  | VNum NaN => false
  | VNum (Fin m _) => negb (m =? 0)%Z
  | VNum _ => true
  | VStr s => negb (String.eqb s "")
  | VArr _ | VObj _ => true
  end.

(** [o[k]] on the own properties; [VUndefined] when absent. *)
Fixpoint obj_get (o : object) (k : string) : value :=
  match o with
  | [] => VUndefined
  | (k', v) :: o' => if String.eqb k' k then v else obj_get o' k
  end.

(** [o[k] = v]: overwrite in place, or append a new property. *)
Fixpoint obj_set (o : object) (k : string) (v : value) : object :=
  match o with
  | [] => [(k, v)]
  | (k', v') :: o' =>
      if String.eqb k' k then (k', v) :: o' else (k', v') :: obj_set o' k v
  end.

(** [v.k] for a key [k] that no built-in prototype defines and that is
    neither ["length"] nor an index (here: the ticket field names).
    Reading a property of [null] or [undefined] throws. *)
Definition get_field (v : value) (k : string) : completion value :=
  match v with
  | VUndefined | VNull => Throw TypeError
  | VObj o => Normal (obj_get o k)
  | _ => Normal VUndefined
  end.

(** [v === "s"] for a string [s]. *)
Definition strict_eq_str (v : value) (s : string) : bool :=
  match v with
  | VStr s' => String.eqb s' s
  | _ => false
  end.

(** [v === undefined] *)
Definition is_undefined (v : value) : bool :=
  match v with VUndefined => true | _ => false end.

End Js.
Export Js.

(** ** src/utils/calculatePrice.js *)

Section CalculatePrice.

(** [new Date(s).getTime()] for a string [s]: the time value in
    milliseconds since the epoch, or [None] for an invalid date (whose
    time value is NaN).  Outside the ISO format the result depends on the
    engine, so the parser is a parameter.  A time value is an integer of
    magnitude at most 8 640 000 000 000 000, which a double holds exactly;
    the difference of two time values can need 54 bits and is rounded. *)
Variable Date_parse : string -> option Z.

(** [Math.ceil(a / b)] for integers [a] and [b > 0].  The durations that
    [calculateDuration] returns are below 2^39, where the rounding of the
    quotient by 60 does not reach the next integer. *)
Definition Math_ceil_div (a b : Z) : Z := (- ((- a) / b))%Z.

Definition calculateDuration (entryTime exitTime : string) : completion Z :=
  try_catch
    (match Date_parse entryTime, Date_parse exitTime with
     | Some entry, Some exit =>
         let durationMs := double_of_Z (exit - entry) in
         let durationMinutes := Math_floor_quotient durationMs 60000 in
         Normal (Z.max 0 durationMinutes)
     | _, _ => Normal 0%Z    (* isNaN(entry.getTime()) || isNaN(exit.getTime()) *)
     end)
    (fun _ => Normal 0%Z).

Definition calculatePrice (entryTime exitTime : string) (pricePerHour : number)
  : completion number :=
  try_catch
    (durationMinutes ← calculateDuration entryTime exitTime;
     if (durationMinutes =? 0)%Z then Normal (Int 0)
     else
       let hoursToCharge := Math_ceil_div durationMinutes 60 in
       Normal (num_mul (Int hoursToCharge) pricePerHour))
    (fun _ => Normal (Int 0)).

End CalculatePrice.

(** ** The JSON built-ins

    [JSON.stringify] and [JSON.parse] over the value model.  Strings are byte
    strings holding UTF-8 text: bytes above 127 pass through both functions
    unchanged, and a [\uXXXX] escape is decoded to the UTF-8 bytes of its code
    unit (surrogate pairs are not recombined). *)

Module JSON.

Definition dquote : ascii := "034"%char.
Definition backslash : ascii := "092"%char.

Definition code (c : ascii) : N := N_of_ascii c.

(** *** Serialisation *)

Definition hex_char (d : N) : ascii :=
  if (d <? 10)%N then ascii_of_N (48 + d) else ascii_of_N (87 + d).

(** QuoteJSONString, one character. *)
Definition escape_char (c : ascii) : string :=
  let n := code c in
  if (n =? 34)%N then String backslash (String dquote "")
  else if (n =? 92)%N then String backslash (String backslash "")
  else if (n =? 8)%N then String backslash "b"
  else if (n =? 9)%N then String backslash "t"
  else if (n =? 10)%N then String backslash "n"
  else if (n =? 12)%N then String backslash "f"
  else if (n =? 13)%N then String backslash "r"
  else if (n <? 32)%N then
    String backslash
      (String "u" (String "0" (String "0"
        (String (hex_char (n / 16)) (String (hex_char (n mod 16)) "")))))
  else String c "".

Fixpoint escape (s : string) : string :=
  match s with
  | EmptyString => EmptyString
  | String c s' => escape_char c +:+ escape s'
  end.

Definition quote (s : string) : string :=
  String dquote (escape s +:+ String dquote "").

Definition digit_char (d : N) : ascii := ascii_of_N (48 + d).

Fixpoint digits_aux (fuel : nat) (n : N) (acc : string) : string :=
  match fuel with
  | O => acc
  | S fuel' =>
      let acc' := String (digit_char (n mod 10)) acc in
      if (n / 10 =? 0)%N then acc' else digits_aux fuel' (n / 10) acc'
  end.

(** The decimal digits of [n], without leading zeros. *)
Definition digits (n : N) : string := digits_aux (S (N.size_nat n)) n "".

(** The [w] low decimal digits of [n], zero-padded. *)
Fixpoint digits_width (w : nat) (n : N) (acc : string) : string :=
  match w with
  | O => acc
  | S w' => digits_width w' (n / 10) (String (digit_char (n mod 10)) acc)
  end.

(** Number::toString for a finite number, in positional notation (what the
    engine prints for magnitudes between 1e-6 and 1e21). *)
Definition num_to_string (m : Z) (e : nat) : string :=
  let a := Z.to_N (Z.abs m) in
  let sign := if (m <? 0)%Z then "-" else "" in
  match e with
  | O => sign +:+ digits a
  | S _ =>
      sign +:+ digits (a / 10 ^ N.of_nat e)
           +:+ String "." (digits_width e (a mod 10 ^ N.of_nat e) "")
  end.

Fixpoint join_comma (l : list string) : string :=
  match l with
  | [] => ""
  | [s] => s
  | s :: l' => s +:+ String "," (join_comma l')
  end.

(** SerializeJSONProperty: [None] is the [undefined] result, for which an
    object omits the property and an array prints [null]. *)
Fixpoint serialize (v : value) : option string :=
  match v with
  | VUndefined => None
  | VNull => Some "null"
  | VBool true => Some "true"
  | VBool false => Some "false"
  | VNum (Fin m e) => Some (num_to_string m e)
  | VNum _ => Some "null"
  | VStr s => Some (quote s)
  | VArr l =>
      Some (String "[" (join_comma
              (List.map (fun x => default "null" (serialize x)) l) +:+ "]"))
  | VObj o =>
      Some (String "{" (join_comma
              (omap (fun p => match p with
                              | (k, x) =>
                                  match serialize x with
                                  | Some s => Some (quote k +:+ String ":" s)
                                  | None => None
                                  end
                              end) o) +:+ "}"))
  end.

(** [JSON.stringify(v)].  The program serialises arrays and objects only, for
    which the result is a string. *)
Definition stringify (v : value) : string := default "null" (serialize v).

(** *** Lexical analysis *)

Inductive token : Type :=
| TLBrace | TRBrace | TLBracket | TRBracket | TColon | TComma
| TString (s : string)
| TNumber (n : number)
| TTrue | TFalse | TNull.

Definition is_digit (c : ascii) : bool :=
  (48 <=? code c)%N && (code c <=? 57)%N.

Definition digit_val (c : ascii) : N := (code c - 48)%N.

(** The characters a numeral is made of. *)
Definition is_numeral_char (c : ascii) : bool :=
  is_digit c || (code c =? 45)%N || (code c =? 43)%N || (code c =? 46)%N
  || (code c =? 101)%N || (code c =? 69)%N.

Fixpoint read_digits (l : list ascii) (acc : N) (cnt : nat)
  : N * nat * list ascii :=
  match l with
  | c :: l' =>
      if is_digit c then read_digits l' (acc * 10 + digit_val c)%N (S cnt)
      else (acc, cnt, l)
  | [] => (acc, cnt, [])
  end.

Definition starts_with_zero (l : list ascii) : bool :=
  match l with
  | c :: _ => (code c =? 48)%N
  | [] => false
  end.

(** The optional minus sign of a numeral. *)
Definition read_sign (l : list ascii) : bool * list ascii :=
  match l with
  | c :: l' => if (code c =? 45)%N then (true, l') else (false, l)
  | [] => (false, l)
  end.

(** The optional fraction: the digits after the point extend the integer
    part [ip]; their number is returned with the extended value. *)
Definition read_fraction (ip : N) (l : list ascii)
  : option (N * nat * list ascii) :=
  match l with
  | c :: l' =>
      if (code c =? 46)%N then
        let '(m, nf, l'') := read_digits l' ip 0 in
        if (nf =? 0)%nat then None else Some (m, nf, l'')
      else Some (ip, 0%nat, l)
  | [] => Some (ip, 0%nat, l)
  end.

(** The optional exponent, which ends the numeral. *)
Definition read_exponent (l : list ascii) : option Z :=
  match l with
  | c :: l' =>
      if (code c =? 101)%N || (code c =? 69)%N then
        let '(eneg, l'') :=
          match l' with
          | s :: l'' =>
              if (code s =? 45)%N then (true, l'')
              else if (code s =? 43)%N then (false, l'')
              else (false, l')
          | [] => (false, l')
          end in
        match read_digits l'' 0%N 0 with
        | (x, nx, []) =>
            if (nx =? 0)%nat then None
            else Some (if eneg then (- Z.of_N x)%Z else Z.of_N x)
        | _ => None
        end
      else None
  | [] => Some 0%Z
  end.

(** The number [(-1)^neg * m * 10^(x - nf)]. *)
Definition scale (neg : bool) (m : N) (nf : nat) (x : Z) : number :=
  let sm := if neg then (- Z.of_N m)%Z else Z.of_N m in
  if (Z.of_nat nf <=? x)%Z
  then Fin (sm * 10 ^ (x - Z.of_nat nf)) 0
  else normalize sm (Z.to_nat (Z.of_nat nf - x)).

(** The value of a numeral [-? int frac? exp?] of the JSON grammar; [None]
    when the characters do not form a numeral.  The value is the decimal
    that the numeral denotes; the engine takes the double nearest to it,
    which is the same number for an integer of magnitude up to 2^53 and for
    every numeral that [JSON.stringify] wrote for a double. *)
Definition numeral_value (l : list ascii) : option number :=
  let '(neg, l1) := read_sign l in
  let '(ip, ni, l2) := read_digits l1 0%N 0 in
  if (ni =? 0)%nat then None
  else if starts_with_zero l1 && negb (ni =? 1)%nat then None
  else
    match read_fraction ip l2 with
    | None => None
    | Some (m, nf, l4) =>
        match read_exponent l4 with
        | None => None
        | Some x => Some (scale neg m nf x)
        end
    end.

Definition hex_val (c : ascii) : option N :=
  let n := code c in
  if (48 <=? n)%N && (n <=? 57)%N then Some (n - 48)%N
  else if (97 <=? n)%N && (n <=? 102)%N then Some (n - 87)%N
  else if (65 <=? n)%N && (n <=? 70)%N then Some (n - 55)%N
  else None.

Definition hex4 (a b c d : ascii) : option N :=
  match hex_val a, hex_val b, hex_val c, hex_val d with
  | Some x, Some y, Some z, Some w => Some (((x * 16 + y) * 16 + z) * 16 + w)%N
  | _, _, _, _ => None
  end.

(** The UTF-8 bytes of a code unit, last byte first. *)
Definition utf8_rev (u : N) : list ascii :=
  if (u <? 128)%N then [ascii_of_N u]
  else if (u <? 2048)%N then
    [ascii_of_N (128 + u mod 64); ascii_of_N (192 + u / 64)]
  else
    [ascii_of_N (128 + u mod 64); ascii_of_N (128 + (u / 64) mod 64);
     ascii_of_N (224 + u / 4096)].

(** The character denoted by a one-letter escape. *)
Definition simple_escape (c : ascii) : option ascii :=
  let n := code c in
  if (n =? 34)%N then Some dquote
  else if (n =? 92)%N then Some backslash
  else if (n =? 47)%N then Some "/"%char
  else if (n =? 98)%N then Some (ascii_of_N 8)
  else if (n =? 102)%N then Some (ascii_of_N 12)
  else if (n =? 110)%N then Some (ascii_of_N 10)
  else if (n =? 114)%N then Some (ascii_of_N 13)
  else if (n =? 116)%N then Some (ascii_of_N 9)
  else None.

Inductive mode : Type :=
| Default
| InString (acc : list ascii)   (* the characters read so far, last first *)
| InNumber (acc : list ascii).

Definition is_whitespace (c : ascii) : bool :=
  (code c =? 32)%N || (code c =? 9)%N || (code c =? 10)%N || (code c =? 13)%N.

Definition punctuation (c : ascii) : option token :=
  let n := code c in
  if (n =? 123)%N then Some TLBrace
  else if (n =? 125)%N then Some TRBrace
  else if (n =? 91)%N then Some TLBracket
  else if (n =? 93)%N then Some TRBracket
  else if (n =? 58)%N then Some TColon
  else if (n =? 44)%N then Some TComma
  else None.

(** Closes a pending numeral. *)
Definition flush (m : mode) (toks : list token) : option (list token) :=
  match m with
  | Default => Some toks
  | InNumber acc =>
      match numeral_value (rev acc) with
      | Some n => Some (TNumber n :: toks)
      | None => None
      end
  | InString _ => None
  end.

(** The tokens of a text, last token first; [None] on a lexical error. *)
Fixpoint lex (m : mode) (toks : list token) (s : string) : option (list token) :=
  match s with
  | EmptyString => flush m toks
  | String c rest =>
      match m with
      | InString acc =>
          if (code c =? 34)%N then
            lex Default (TString (string_of_list_ascii (rev acc)) :: toks) rest
          else if (code c =? 92)%N then
            match rest with
            | String e rest' =>
                match simple_escape e with
                | Some c' => lex (InString (c' :: acc)) toks rest'
                | None =>
                    if (code e =? 117)%N then
                      match rest' with
                      | String h1 (String h2 (String h3 (String h4 rest''))) =>
                          match hex4 h1 h2 h3 h4 with
                          | Some u => lex (InString (utf8_rev u ++ acc)) toks rest''
                          | None => None
                          end
                      | _ => None
                      end
                    else None
                end
            | EmptyString => None
            end
          else if (code c <? 32)%N then None
          else lex (InString (c :: acc)) toks rest
      | InNumber acc =>
          if is_numeral_char c then lex (InNumber (c :: acc)) toks rest
          else
            match flush m toks with
            | None => None
            | Some toks' =>
                if is_whitespace c then lex Default toks' rest
                else
                  match punctuation c with
                  | Some t => lex Default (t :: toks') rest
                  | None => None
                  end
            end
      | Default =>
          if is_whitespace c then lex Default toks rest
          else
            match punctuation c with
            | Some t => lex Default (t :: toks) rest
            | None =>
                if (code c =? 34)%N then lex (InString []) toks rest
                else if is_digit c || (code c =? 45)%N
                then lex (InNumber [c]) toks rest
                else
                  match s with
                  | String "t" (String "r" (String "u" (String "e" rest'))) =>
                      lex Default (TTrue :: toks) rest'
                  | String "f" (String "a" (String "l" (String "s"
                      (String "e" rest')))) =>
                      lex Default (TFalse :: toks) rest'
                  | String "n" (String "u" (String "l" (String "l" rest'))) =>
                      lex Default (TNull :: toks) rest'
                  | _ => None
                  end
            end
      end
  end.

(** *** Syntax analysis *)

Fixpoint parse_value (fuel : nat) (ts : list token)
  : option (value * list token) :=
  match fuel with
  | O => None
  | S fuel' =>
      match ts with
      | TNull :: r => Some (VNull, r)
      | TTrue :: r => Some (VBool true, r)
      | TFalse :: r => Some (VBool false, r)
      | TNumber n :: r => Some (VNum n, r)
      | TString s :: r => Some (VStr s, r)
      | TLBracket :: TRBracket :: r => Some (VArr [], r)
      | TLBracket :: r => parse_elements fuel' r []
      | TLBrace :: TRBrace :: r => Some (VObj [], r)
      | TLBrace :: r => parse_members fuel' r []
      | _ => None
      end
  end
with parse_elements (fuel : nat) (ts : list token) (acc : list value)
  : option (value * list token) :=
  match fuel with
  | O => None
  | S fuel' =>
      match parse_value fuel' ts with
      | Some (v, TComma :: r) => parse_elements fuel' r (v :: acc)
      | Some (v, TRBracket :: r) => Some (VArr (rev (v :: acc)), r)
      | _ => None
      end
  end
with parse_members (fuel : nat) (ts : list token) (acc : object)
  : option (value * list token) :=
  match fuel with
  | O => None
  | S fuel' =>
      match ts with
      | TString k :: TColon :: r =>
          match parse_value fuel' r with
          | Some (v, TComma :: r') => parse_members fuel' r' (obj_set acc k v)
          | Some (v, TRBrace :: r') => Some (VObj (obj_set acc k v), r')
          | _ => None
          end
      | _ => None
      end
  end.

(** [JSON.parse(text)].  A duplicated key keeps its first position and its
    last value.  Each token costs at most one unit of fuel. *)
Definition parse (text : string) : completion value :=
  match lex Default [] text with
  | Some toks =>
      match parse_value (S (length toks)) (rev toks) with
      | Some (v, []) => Normal v
      | _ => Throw SyntaxError
      end
  | None => Throw SyntaxError
  end.

(** *** Notions for reasoning about numerals *)

(** The value of a run of digits read after [acc]. *)
Definition dval (l : list ascii) (acc : N) : N :=
  fold_left (fun a c => (a * 10 + digit_val c)%N) l acc.

(** A numeral made of a sign, an integer part [dq] and, when [dr] is not
    empty, a point and the fraction digits [dr]. *)
Definition numeral (neg : bool) (dq dr : list ascii) : list ascii :=
  (if neg then ["-"%char] else [])
  ++ dq ++ (match dr with [] => [] | _ => "."%char :: dr end).

(** *** Notions for reasoning about whole texts *)

(** A finite number in normal form. *)
Definition writable (n : number) : bool :=
  match n with
  | Fin _ O => true
  | Fin m (S _) => negb (m mod 10 =? 0)%Z
  | _ => false
  end.

(** No key occurs twice. *)
Fixpoint distinct (l : list string) : bool :=
  match l with
  | [] => true
  | k :: l' => negb (existsb (String.eqb k) l') && distinct l'
  end.

(** The values that [JSON.parse] produces, which are also the values that
    [JSON.stringify] writes without loss. *)
Fixpoint clean (v : value) : bool :=
  match v with
  | VUndefined => false
  | VNull | VBool _ | VStr _ => true
  | VNum n => writable n
  | VArr l => forallb clean l
  | VObj o => distinct (List.map fst o) && forallb (fun p => clean (snd p)) o
  end.

(** Token lists separated by commas. *)
Fixpoint separated (l : list (list token)) : list token :=
  match l with
  | [] => []
  | [x] => x
  | x :: l' => x ++ TComma :: separated l'
  end.

(** The tokens of the text written for a clean value. *)
Fixpoint tokens_of (v : value) : list token :=
  match v with
  | VUndefined => []
  | VNull => [TNull]
  | VBool true => [TTrue]
  | VBool false => [TFalse]
  | VNum n => [TNumber n]
  | VStr s => [TString s]
  | VArr l => TLBracket :: separated (List.map tokens_of l) ++ [TRBracket]
  | VObj o =>
      TLBrace
        :: separated
             (List.map (fun p => TString (fst p) :: TColon :: tokens_of (snd p)) o)
        ++ [TRBrace]
  end.

(** What may follow a value in a text: nothing, or a comma or a closing
    bracket. *)
Definition follows (rest : string) : Prop :=
  match rest with
  | EmptyString => True
  | String c _ => (code c =? 44)%N || (code c =? 93)%N || (code c =? 125)%N = true
  end.

(** The text written for a value inside an array. *)
Definition text_of (v : value) : string := default "null" (serialize v).

(** The text [text], followed by what may follow a value, is read as the
    tokens [ts]. *)
Definition lexes_as (text : string) (ts : list token) : Prop :=
  forall toks rest,
    follows rest ->
    lex Default toks (text +:+ rest) = lex Default (rev ts ++ toks) rest.

(** The tokens of a clean value start with a token that opens a value. *)
Definition opens_value (t : token) : bool :=
  match t with
  | TRBrace | TRBracket | TColon | TComma => false
  | _ => true
  end.

(** With enough fuel, the tokens of [v] are parsed as [v]. *)
Definition parses_back (v : value) : Prop :=
  forall fuel rest,
    (length (tokens_of v) <= fuel)%nat ->
    parse_value fuel (tokens_of v ++ rest) = Some (v, rest).

(** The tokens of a member [key : value] of an object. *)
Definition member_tokens (p : string * value) : list token :=
  TString (fst p) :: TColon :: tokens_of (snd p).

(** A token whose number, if it is one, is finite and in normal form. *)
Definition token_ok (t : token) : bool :=
  match t with
  | TNumber n => writable n
  | _ => true
  end.

End JSON.

Definition JSON_stringify := JSON.stringify.
Definition JSON_parse := JSON.parse.

(** ** src/utils/qrCodeUtils.js and src/storage/ticketStorage.js *)

(** *** The environment of the asynchronous code *)

(** [Alert.alert(title, message, ...)] *)
Inductive alert : Type :=
| Alert (title message : string).

Record world : Type := World {
  disk : gmap string string;        (* the contents of AsyncStorage *)
  faults : list bool;               (* for each coming AsyncStorage call, in
                                       order: does its promise reject?  past
                                       the end of the list no call rejects *)
  storage_calls : nat;              (* the AsyncStorage calls made so far *)
  writes : list (string * string);  (* the setItem calls that were carried
                                       out, latest first *)
  clock_reads : nat;                (* how often the clock was read *)
  ids_minted : nat;                 (* how many identifiers were generated *)
  alerts : list alert               (* the dialogs shown, latest first *)
}.

(** An asynchronous function, seen from a caller that awaits it. *)
Definition io (A : Type) : Type := world -> completion A * world.

Global Instance io_ret : MRet io := fun A a w => (Normal a, w).
Global Instance io_bind : MBind io := fun A B f m w =>
  match m w with
  | (Normal a, w') => f a w'
  | (Throw e, w') => (Throw e, w')
  end.

(** Synchronous code inside an asynchronous function. *)
Definition lift {A} (c : completion A) : io A := fun w => (c, w).

(** [try { body } catch (error) { handler }] around awaited calls: what the
    body did before it threw stays done. *)
Definition try_catch_io {A} (body : io A) (handler : error -> io A) : io A :=
  fun w =>
    match body w with
    | (Normal a, w') => (Normal a, w')
    | (Throw e, w') => handler e w'
    end.

(** The world after one more AsyncStorage call. *)
Definition after_call (w : world) : world :=
  World (disk w) (tail (faults w)) (S (storage_calls w)) (writes w)
        (clock_reads w) (ids_minted w) (alerts w).

(** The world after [key] was set to [val]. *)
Definition after_write (key val : string) (w : world) : world :=
  World (<[key := val]> (disk w)) (faults w) (storage_calls w)
        ((key, val) :: writes w) (clock_reads w) (ids_minted w) (alerts w).

(** Does the coming AsyncStorage call reject? *)
Definition rejects (w : world) : bool := hd false (faults w).

(** [await AsyncStorage.getItem(key)]: the stored string, or [null]. *)
Definition AsyncStorage_getItem (key : string) : io (option string) := fun w =>
  if rejects w then (Throw StorageError, after_call w)
  else (Normal (disk w !! key), after_call w).

(** [await AsyncStorage.setItem(key, value)] *)
Definition AsyncStorage_setItem (key val : string) : io unit := fun w =>
  if rejects w then (Throw StorageError, after_call w)
  else (Normal tt, after_write key val (after_call w)).

Definition Alert_alert (title message : string) : io unit := fun w =>
  (Normal tt, World (disk w) (faults w) (storage_calls w) (writes w)
                    (clock_reads w) (ids_minted w)
                    (Alert title message :: alerts w)).

(** *** Array methods *)

(** [a.push(x)]; on anything but an array the call throws. *)
Definition Array_push (a x : value) : completion (list value) :=
  match a with
  | VArr l => Normal (l ++ [x])
  | _ => Throw TypeError
  end.

(** The search of [findIndex] from index [i] on; a throwing callback ends
    it. *)
Fixpoint findIndex_from (p : value -> completion bool) (l : list value) (i : nat)
  : completion (option nat) :=
  match l with
  | [] => Normal None
  | t :: l' =>
      b ← p t;
      if b : bool then Normal (Some i) else findIndex_from p l' (S i)
  end.

(** [a.findIndex(p)]; [None] is the result [-1]. *)
Definition Array_findIndex (p : value -> completion bool) (a : value)
  : completion (option nat) :=
  match a with
  | VArr l => findIndex_from p l 0
  | _ => Throw TypeError
  end.

(** The elements that [filter] keeps; a throwing callback ends it. *)
Fixpoint filter_list (p : value -> completion bool) (l : list value)
  : completion (list value) :=
  match l with
  | [] => Normal []
  | t :: l' =>
      b ← p t;
      r ← filter_list p l';
      Normal (if b : bool then t :: r else r)
  end.

(** [a.filter(p)] *)
Definition Array_filter (p : value -> completion bool) (a : value)
  : completion (list value) :=
  match a with
  | VArr l => filter_list p l
  | _ => Throw TypeError
  end.

(** [a.splice(i, 1)], the array afterwards. *)
Definition splice1 (l : list value) (i : nat) : list value :=
  take i l ++ drop (S i) l.

(** [a[i]] *)
Definition element (l : list value) (i : nat) : value :=
  default VUndefined (l !! i).

(** The properties that [{...v}] copies.  Only objects are spread here. *)
Definition own_props (v : value) : object :=
  match v with
  | VObj o => o
  | _ => []
  end.

(** [v.slice(0, n)] on a string. *)
Definition String_slice0 (v : value) (n : nat) : completion string :=
  match v with
  | VStr s => Normal (substring 0 n s)
  | _ => Throw TypeError
  end.

Definition ACTIVE_TICKETS_KEY : string := "@ticket_parking:active_tickets".
Definition HISTORY_TICKETS_KEY : string := "@ticket_parking:history_tickets".

Section App.

(** [uuidv4()]: the identifier produced by the n-th call. *)
Variable uuidv4 : nat -> string.

(** [new Date().toISOString()]: the text produced by the n-th reading of the
    clock. *)
Variable now_at : nat -> string.

(** [s.trim()] and [parseInt(s)] of the engine. *)
Variable String_trim : string -> string.
Variable parseInt : string -> number.

Definition Date_now_toISOString : io string := fun w =>
  (Normal (now_at (clock_reads w)),
   World (disk w) (faults w) (storage_calls w) (writes w) (S (clock_reads w))
         (ids_minted w) (alerts w)).

(** calculatePrice.js *)
Definition getCurrentDateTime : io string := Date_now_toISOString.

(** **** qrCodeUtils.js *)

Definition generateTicketId : io string := fun w =>
  (Normal (uuidv4 (ids_minted w)),
   World (disk w) (faults w) (storage_calls w) (writes w) (clock_reads w)
         (S (ids_minted w)) (alerts w)).

Definition createQRCodeData (ticket : value) : io string :=
  id ← lift (get_field ticket "id");
  parkingName ← lift (get_field ticket "parkingName");
  entryTime ← lift (get_field ticket "entryTime");
  pricePerHour ← lift (get_field ticket "pricePerHour");
  timestamp ← Date_now_toISOString;
  let qrData :=
    VObj [("id", id); ("parkingName", parkingName); ("entryTime", entryTime);
          ("pricePerHour", pricePerHour); ("timestamp", VStr timestamp)] in
  mret (JSON_stringify qrData).

(** [None] is the result [null]. *)
Definition parseQRCodeData (scannedData : string) : completion (option value) :=
  try_catch
    (parsed ← JSON_parse scannedData;
     id ← get_field parsed "id";
     if negb (truthy id) then Normal None
     else
       parkingName ← get_field parsed "parkingName";
       if negb (truthy parkingName) then Normal None
       else
         entryTime ← get_field parsed "entryTime";
         if negb (truthy entryTime) then Normal None
         else
           pricePerHour ← get_field parsed "pricePerHour";
           if is_undefined pricePerHour then Normal None
           else Normal (Some parsed))
    (fun _ => Normal None).

(** **** ticketStorage.js *)

Definition getActiveTickets : io value :=
  try_catch_io
    (jsonValue ← AsyncStorage_getItem ACTIVE_TICKETS_KEY;
     match jsonValue with
     | Some s => if String.eqb s "" then mret (VArr []) else lift (JSON_parse s)
     | None => mret (VArr [])
     end)
    (fun _ => mret (VArr [])).

Definition saveActiveTickets (tickets : list value) : io bool :=
  try_catch_io
    (AsyncStorage_setItem ACTIVE_TICKETS_KEY (JSON_stringify (VArr tickets));;
     mret true)
    (fun _ => mret false).

(** [None] is the result [null]. *)
Definition addTicket (ticket : object) : io (option value) :=
  try_catch_io
    (id ← generateTicketId;
     createdAt ← Date_now_toISOString;
     let ticketWithId :=
       obj_set (obj_set (obj_set ticket "id" (VStr id))
                        "status" (VStr "active"))
               "createdAt" (VStr createdAt) in
     qrCodeData ← createQRCodeData (VObj ticketWithId);
     let ticketWithId := obj_set ticketWithId "qrCodeData" (VStr qrCodeData) in
     tickets ← getActiveTickets;
     tickets ← lift (Array_push tickets (VObj ticketWithId));
     saved ← saveActiveTickets tickets;
     mret (if saved : bool then Some (VObj ticketWithId) else None))
    (fun _ => mret None).

Definition getHistoryTickets : io value :=
  try_catch_io
    (jsonValue ← AsyncStorage_getItem HISTORY_TICKETS_KEY;
     match jsonValue with
     | Some s => if String.eqb s "" then mret (VArr []) else lift (JSON_parse s)
     | None => mret (VArr [])
     end)
    (fun _ => mret (VArr [])).

Definition saveHistoryTickets (tickets : list value) : io bool :=
  try_catch_io
    (AsyncStorage_setItem HISTORY_TICKETS_KEY (JSON_stringify (VArr tickets));;
     mret true)
    (fun _ => mret false).

(** [(t) => t.id === ticketId] *)
Definition id_is (ticketId : string) (t : value) : completion bool :=
  id ← get_field t "id";
  Normal (strict_eq_str id ticketId).

(** [(t) => t.id !== ticketId] *)
Definition id_is_not (ticketId : string) (t : value) : completion bool :=
  id ← get_field t "id";
  Normal (negb (strict_eq_str id ticketId)).

Definition deleteHistoryTicket (ticketId : string) : io bool :=
  try_catch_io
    (historyTickets ← getHistoryTickets;
     filteredTickets ← lift (Array_filter (id_is_not ticketId) historyTickets);
     saveHistoryTickets filteredTickets)
    (fun _ => mret false).

Definition closeTicket (ticketId exitTime : string) (totalAmount : number)
  : io bool :=
  try_catch_io
    (activeTickets ← getActiveTickets;
     ticketIndex ← lift (Array_findIndex (id_is ticketId) activeTickets);
     match ticketIndex with
     | None => mret false
     | Some i =>
         let l := match activeTickets with VArr l => l | _ => [] end in
         let closedTicket :=
           obj_set (obj_set (obj_set (own_props (element l i))
                                     "exitTime" (VStr exitTime))
                            "totalAmount" (VNum totalAmount))
                   "status" (VStr "closed") in
         let activeTickets := splice1 l i in
         saveActiveTickets activeTickets;;
         historyTickets ← getHistoryTickets;
         historyTickets ← lift (Array_push historyTickets (VObj closedTicket));
         saveHistoryTickets historyTickets;;
         mret true
     end)
    (fun _ => mret false).

(** **** NewTicketScreen.js *)

(** The state of the form, when its fields are strings. *)
Record form : Type := Form {
  parkingName : string;
  pricePerHour : string;
  entryTime : string;
  useCurrentTime : bool
}.

Definition newline : string := String (ascii_of_N 10) "".

(** [handleSave] on a form whose name and entry time are strings, as the
    user types them.  [NewTicketScreen.handleSave] below is the handler on
    the state of the screen, where a scanned code can have put other
    values; the two agree on strings. *)
Definition handleSave (f : form) : io unit :=
  if negb (truthy (VStr (String_trim (parkingName f)))) then
    Alert_alert "Erreur" "Veuillez entrer le nom du parking"
  else
    let price := parseInt (pricePerHour f) in
    if isNaN price || num_le_zero price then
      Alert_alert "Erreur" "Veuillez entrer un tarif valide (supérieur à 0)"
    else if negb (useCurrentTime f) && negb (truthy (VStr (entryTime f))) then
      Alert_alert "Erreur" "Veuillez entrer une heure d'entrée"
    else
      entry ← (if useCurrentTime f then getCurrentDateTime
               else mret (entryTime f));
      let newTicket :=
        [("parkingName", VStr (String_trim (parkingName f)));
         ("entryTime", VStr entry);
         ("pricePerHour", VNum price)] in
      try_catch_io
        (savedTicket ← addTicket newTicket;
         match savedTicket with
         | Some t =>
             id ← lift (get_field t "id");
             if truthy id then
               id8 ← lift (String_slice0 id 8);
               Alert_alert "Ticket créé avec succès! 🎫"
                 ("Parking: " +:+ String_trim (parkingName f) +:+ newline
                  +:+ "ID: " +:+ id8 +:+ "...")
             else Alert_alert "Erreur" "Impossible de créer le ticket"
         | None => Alert_alert "Erreur" "Impossible de créer le ticket"
         end)
        (fun _ =>
           Alert_alert "Erreur"
             "Une erreur s'est produite lors de la création du ticket").

End App.

(** ** An instance of the engine's functions, for evaluation

    The theorems below hold for every choice of the parameters; the
    definitions of this module instantiate them so that the embedded program
    can be run on concrete inputs. *)

Module Engine.

Definition num2 (a b : ascii) : option Z :=
  if JSON.is_digit a && JSON.is_digit b
  then Some (Z.of_N (10 * JSON.digit_val a + JSON.digit_val b))
  else None.

(** Days between the epoch and a date of the proleptic Gregorian calendar. *)
Definition days_from_civil (y m d : Z) : Z :=
  let y' := if (m <=? 2)%Z then (y - 1)%Z else y in
  let era := (y' / 400)%Z in
  let yoe := (y' - era * 400)%Z in
  let mp := if (2 <? m)%Z then (m - 3)%Z else (m + 9)%Z in
  let doy := ((153 * mp + 2) / 5 + d - 1)%Z in
  let doe := (yoe * 365 + yoe / 4 - yoe / 100 + doy)%Z in
  (era * 146097 + doe - 719468)%Z.

Definition days_in_month (y m : Z) : Z :=
  if (m =? 2)%Z then
    if ((y mod 4 =? 0) && (negb (y mod 100 =? 0) || (y mod 400 =? 0)))%Z
    then 29%Z else 28%Z
  else if ((m =? 4) || (m =? 6) || (m =? 9) || (m =? 11))%Z then 30%Z
  else 31%Z.

(** The time value of the date [y]-MM-DDTHH:mm:ss.sssZ, where [l] is the
    text after the year; [None] when [l] is not of that form or the time
    value is out of the range of dates. *)
Definition time_value (y : Z) (l : list ascii) : option Z :=
  match l with
  | ["-"; m1; m2; "-"; d1; d2; "T"; h1; h2; ":"; n1; n2; ":";
     s1; s2; "."; f1; f2; f3; "Z"]%char =>
      mo ← num2 m1 m2; da ← num2 d1 d2;
      ho ← num2 h1 h2; mi ← num2 n1 n2; se ← num2 s1 s2;
      fh ← num2 "0" f1; fl ← num2 f2 f3;
      if ((1 <=? mo) && (mo <=? 12) && (1 <=? da) && (da <=? days_in_month y mo)
          && (ho <=? 23) && (mi <=? 59) && (se <=? 59))%Z
      then
        let t := ((((days_from_civil y mo da * 24 + ho) * 60 + mi) * 60 + se)
                  * 1000 + fh * 100 + fl)%Z in
        if (Z.abs t <=? 8640000000000000)%Z then Some t else None
      else None
  | _ => None
  end.

(** The time value of a text [YYYY-MM-DDTHH:mm:ss.sssZ], the format that
    [toISOString] prints: the year has four digits, or six after a sign
    (the year -000000 is not one); every other text is an invalid date
    here. *)
Definition Date_parse (s : string) : option Z :=
  match list_ascii_of_string s with
  | c :: y1 :: y2 :: y3 :: y4 :: y5 :: y6 :: l =>
      if (JSON.code c =? 43)%N || (JSON.code c =? 45)%N then
        a ← num2 y1 y2; b ← num2 y3 y4; d ← num2 y5 y6;
        let y := (a * 10000 + b * 100 + d)%Z in
        if (JSON.code c =? 45)%N
        then (if (y =? 0)%Z then None else time_value (- y) l)
        else time_value y l
      else
        yh ← num2 c y1; yl ← num2 y2 y3;
        time_value (yh * 100 + yl) (y4 :: y5 :: y6 :: l)
  | _ => None
  end.

(** The white space of [trim], [parseInt] and [Number].  In ASCII: tab,
    line feed, vertical tab, form feed, carriage return and space. *)
Definition is_space (c : ascii) : bool :=
  let n := JSON.code c in
  ((9 <=? n)%N && (n <=? 13)%N) || (n =? 32)%N.

(** The two bytes of the no-break space U+00A0. *)
Definition nbsp (c d : ascii) : bool :=
  (JSON.code c =? 194)%N && (JSON.code d =? 160)%N.

(** The three bytes of U+1680, of U+2000 to U+200A, of U+2028, U+2029,
    U+202F and U+205F, of U+3000 and of U+FEFF. *)
Definition wide_space (c d e : ascii) : bool :=
  let a := JSON.code c in
  let b := JSON.code d in
  let g := JSON.code e in
  ((a =? 225) && (b =? 154) && (g =? 128))%N
  || ((a =? 226) && (b =? 128)
      && (((128 <=? g) && (g <=? 138)) || (g =? 168) || (g =? 169)
          || (g =? 175)))%N
  || ((a =? 226) && (b =? 129) && (g =? 159))%N
  || ((a =? 227) && (b =? 128) && (g =? 128))%N
  || ((a =? 239) && (b =? 187) && (g =? 191))%N.

(** The string without the white space it starts with. *)
Fixpoint drop_spaces (s : string) : string :=
  match s with
  | String c s1 =>
      if is_space c then drop_spaces s1
      else
        match s1 with
        | String d s2 =>
            if nbsp c d then drop_spaces s2
            else
              match s2 with
              | String e s3 =>
                  if wide_space c d e then drop_spaces s3 else s
              | EmptyString => s
              end
        | EmptyString => s
        end
  | EmptyString => EmptyString
  end.

(** The same on a reversed string: the bytes of a character come last
    byte first. *)
Fixpoint drop_spaces_reversed (s : string) : string :=
  match s with
  | String c s1 =>
      if is_space c then drop_spaces_reversed s1
      else
        match s1 with
        | String d s2 =>
            if nbsp d c then drop_spaces_reversed s2
            else
              match s2 with
              | String e s3 =>
                  if wide_space e d c then drop_spaces_reversed s3 else s
              | EmptyString => s
              end
        | EmptyString => s
        end
  | EmptyString => EmptyString
  end.

(** [s.trim()] *)
Definition String_trim (s : string) : string :=
  String.rev (drop_spaces_reversed (String.rev (drop_spaces s))).

Fixpoint read_hex (l : list ascii) (acc : N) (cnt : nat) : N * nat :=
  match l with
  | c :: l' =>
      match JSON.hex_val c with
      | Some d => read_hex l' (acc * 16 + d)%N (S cnt)
      | None => (acc, cnt)
      end
  | [] => (acc, cnt)
  end.

(** [parseInt(s)] without a radix: leading white space, a sign, then
    decimal digits, or hexadecimal digits after [0x]; NaN without digits. *)
Definition parseInt (s : string) : number :=
  let l := list_ascii_of_string (drop_spaces s) in
  let '(neg, l1) :=
    match l with
    | c :: l' =>
        if (JSON.code c =? 45)%N then (true, l')
        else if (JSON.code c =? 43)%N then (false, l')
        else (false, l)
    | [] => (false, l)
    end in
  let '(n, cnt) :=
    match l1 with
    | z :: x :: l2 =>
        if (JSON.code z =? 48)%N
           && ((JSON.code x =? 120)%N || (JSON.code x =? 88)%N)
        then read_hex l2 0%N 0
        else let '(n, cnt, _) := JSON.read_digits l1 0%N 0 in (n, cnt)
    | _ => let '(n, cnt, _) := JSON.read_digits l1 0%N 0 in (n, cnt)
    end in
  match cnt with
  | O => NaN
  | S _ => Int (if neg then - Z.of_N n else Z.of_N n)
  end.

(** Identifiers in the shape of a version-4 UUID, numbered in sequence. *)
Definition uuidv4 (n : nat) : string :=
  "00000000-0000-4000-8000-" +:+ JSON.digits_width 12 (N.of_nat n) "".

(** A clock that advances by one millisecond per reading. *)
Definition now_at (n : nat) : string :=
  "2025-01-20T14:30:00." +:+ JSON.digits_width 3 (N.of_nat n) "" +:+ "Z".

(** A JSON text written with apostrophes in place of double quotes. *)
Fixpoint json_text (s : string) : string :=
  match s with
  | String c s' =>
      String (if (JSON.code c =? 39)%N then JSON.dquote else c) (json_text s')
  | EmptyString => EmptyString
  end.

Definition empty_world : world := World ∅ [] 0 [] 0 0 [].

End Engine.

(** ** Vocabulary of the statements *)

(** The payload has an own property [k]. *)
Definition has_field (v : value) (k : string) : bool :=
  match v with
  | VObj o => existsb (fun p => String.eqb (fst p) k) o
  | _ => false
  end.

Definition required_fields : list string :=
  ["id"; "parkingName"; "entryTime"; "pricePerHour"].

(** A ticket whose rate is not a number that JSON can write. *)
Definition ticket_with_NaN_rate : object :=
  [("id", VStr "a-1"); ("parkingName", VStr "Central Lot");
   ("entryTime", VStr "2025-01-20T14:30:00.000Z"); ("pricePerHour", VNum NaN)].

(** What a collection read returns for the contents [d] of the storage, when
    the storage answers: the decoded text, or the empty array for a missing,
    empty or malformed text. *)
Definition stored (d : gmap string string) (key : string) : value :=
  match d !! key with
  | Some s =>
      if String.eqb s "" then VArr []
      else match JSON_parse s with
           | Normal v => v
           | Throw _ => VArr []
           end
  | None => VArr []
  end.

(** The tickets of a decoded collection. *)
Definition tickets_of (v : value) : list value :=
  match v with
  | VArr l => l
  | _ => []
  end.

(** The record [t] is a ticket with identifier [ticketId]. *)
Definition has_id (ticketId : string) (t : value) : bool :=
  match t with
  | VObj o => strict_eq_str (obj_get o "id") ticketId
  | _ => false
  end.

(** The record built by [closeTicket] from the active record [o]. *)
Definition closed_record (o : object) (exitTime : string) (totalAmount : number)
  : object :=
  obj_set (obj_set (obj_set o "exitTime" (VStr exitTime))
                   "totalAmount" (VNum totalAmount))
          "status" (VStr "closed").

(** The number of tickets of a collection that carry the identifier. *)
Definition count_id (ticketId : string) (l : list value) : nat :=
  length (List.filter (has_id ticketId) l).

(** A record whose properties can be read. *)
Definition readable (t : value) : bool :=
  match t with
  | VUndefined | VNull => false
  | _ => true
  end.

(** The tickets that [deleteHistoryTicket] keeps. *)
Definition without_id (ticketId : string) (l : list value) : list value :=
  List.filter (fun t => negb (has_id ticketId t)) l.

(** The payload that [createQRCodeData] serialises. *)
Definition qr_payload (name entry : string) (price : number)
  (id timestamp : string) : value :=
  VObj [("id", VStr id); ("parkingName", VStr name); ("entryTime", VStr entry);
        ("pricePerHour", VNum price); ("timestamp", VStr timestamp)].

(** The ticket that [addTicket] builds from the form's three fields. *)
Definition opened_record (name entry : string) (price : number)
  (id createdAt timestamp : string) : value :=
  VObj [("parkingName", VStr name); ("entryTime", VStr entry);
        ("pricePerHour", VNum price); ("id", VStr id);
        ("status", VStr "active"); ("createdAt", VStr createdAt);
        ("qrCodeData",
         VStr (JSON_stringify (qr_payload name entry price id timestamp)))].

(** The world after a ticket was opened: one read and one write of the
    active collection, one identifier, two readings of the clock. *)
Definition after_open (old : list value) (t : value) (w : world) : world :=
  World (<[ACTIVE_TICKETS_KEY := JSON_stringify (VArr (old ++ [t]))]> (disk w))
        (faults w) (S (S (storage_calls w)))
        ((ACTIVE_TICKETS_KEY, JSON_stringify (VArr (old ++ [t]))) :: writes w)
        (S (S (clock_reads w))) (S (ids_minted w)) (alerts w).

Definition with_alert (a : alert) (w : world) : world :=
  World (disk w) (faults w) (storage_calls w) (writes w) (clock_reads w)
        (ids_minted w) (a :: alerts w).

(** ** Sample runs *)

Module Sample.

Definition handleSave : form -> io unit :=
  handleSave Engine.uuidv4 Engine.now_at Engine.String_trim Engine.parseInt.

Definition with_faults (fs : list bool) (w : world) : world :=
  World (disk w) fs (storage_calls w) (writes w) (clock_reads w) (ids_minted w)
        (alerts w).

Definition ticket_id : string := Engine.uuidv4 0.

Definition exit_time : string := "2025-01-20T16:35:00.000Z".

(** A ticket was opened at Central Lot for 50 FCFA an hour. *)
Definition opened : world :=
  snd (handleSave (Form " Central Lot " "50" "" true) Engine.empty_world).

(** The same, with a storage that will accept reads and reject writes. *)
Definition opened_read_only : world :=
  with_faults [false; true; false; true] opened.

(** The ticket was closed after 125 minutes. *)
Definition closed : world :=
  snd (closeTicket ticket_id exit_time (Int 150) opened).

End Sample.

(** ** The rest of the program

    The functions of the three files above that the properties so far did
    not need, and the screen handlers that call them. *)

(** *** More built-ins *)

(** [n < 0] *)
Definition num_lt_zero (n : number) : bool :=
  match n with
  | NegInf => true
  | Fin m _ => (m <? 0)%Z
  | _ => false
  end.

(** [n === 0] *)
Definition num_is_zero (n : number) : bool :=
  match n with
  | Fin m _ => (m =? 0)%Z
  | _ => false
  end.

(** [Math.floor(n / k)] for an integer [k > 0]. *)
Definition Math_floor_div (n : number) (k : Z) : number :=
  match n with
  | Fin m e => Int (m / (k * 10 ^ Z.of_nat e))
  | _ => n
  end.

(** [n % k] for an integer [k > 0]; the remainder takes the sign of [n]. *)
Definition num_rem (n : number) (k : Z) : number :=
  match n with
  | Fin m e => normalize (Z.rem m (k * 10 ^ Z.of_nat e)) e
  | _ => NaN
  end.

(** [a] without its trailing zeros. *)
Fixpoint strip_zeros (fuel : nat) (a : N) : N :=
  match fuel with
  | O => a
  | S fuel' =>
      if (a mod 10 =? 0)%N && negb (a =? 0)%N then strip_zeros fuel' (a / 10)
      else a
  end.

(** Scientific notation: the digits of [s], a point after the first one,
    and the exponent [x]. *)
Definition exponent_form (s : N) (x : Z) : string :=
  (match JSON.digits s with
   | String c EmptyString => String c ""
   | String c r => String c (String "." r)
   | EmptyString => ""
   end)
  +:+ "e" +:+ (if (x <? 0)%Z then "-" else "+")
  +:+ JSON.digits (Z.to_N (Z.abs x)).

(** Number::toString: positional notation when the decimal point falls
    within the 21 digits before or the 6 digits after the first significant
    digit, scientific notation otherwise.  All the digits of the decimal
    are printed; those are the digits that the engine prints for an
    integer of magnitude up to 2^53, and for a decimal that is the shortest
    one of its double. *)
Definition Number_toString (v : number) : string :=
  match v with
  | NaN => "NaN"
  | PosInf => "Infinity"
  | NegInf => "-Infinity"
  | Fin m e =>
      let a := Z.to_N (Z.abs m) in
      let n := (Z.of_nat (String.length (JSON.digits a)) - Z.of_nat e)%Z in
      if (a =? 0)%N then "0"
      else if (-6 <? n)%Z && (n <=? 21)%Z then JSON.num_to_string m e
      else (if (m <? 0)%Z then "-" else "")
           +:+ exponent_form (strip_zeros (N.size_nat a) a) (n - 1)
  end.

(** Has the object an own property [k]? *)
Definition has_own (o : object) (k : string) : bool :=
  existsb (fun p => String.eqb (fst p) k) o.

(** ToString, as a template literal applies it.  An array prints its
    elements separated by commas, [null] and [undefined] as nothing; an
    object prints as [[object Object]] unless an own property hides the
    method [toString], in which case the conversion throws. *)
Fixpoint to_string (v : value) : completion string :=
  match v with
  | VUndefined => Normal "undefined"
  | VNull => Normal "null"
  | VBool true => Normal "true"
  | VBool false => Normal "false"
  | VNum n => Normal (Number_toString n)
  | VStr s => Normal s
  | VArr l =>
      (fix join (l : list value) : completion string :=
         match l with
         | [] => Normal ""
         | x :: l' =>
             s ← match x with
                 | VUndefined | VNull => Normal ""
                 | _ => to_string x
                 end;
             match l' with
             | [] => Normal s
             | _ => r ← join l'; Normal (s +:+ String "," r)
             end
         end) l
  | VObj o => if has_own o "toString" then Throw TypeError
              else Normal "[object Object]"
  end.

(** [v.toString()] *)
Definition method_toString (v : value) : completion string :=
  match v with
  | VUndefined | VNull => Throw TypeError
  | _ => to_string v
  end.

(** [s.repeat(n)] *)
Fixpoint String_repeat (s : string) (n : nat) : string :=
  match n with
  | O => ""
  | S n' => s +:+ String_repeat s n'
  end.

(** [s.padStart(n, pad)], for strings of ASCII characters. *)
Definition String_padStart (s : string) (n : nat) (pad : string) : string :=
  let fill := (n - String.length s)%nat in
  if (fill =? 0)%nat || String.eqb pad "" then s
  else substring 0 fill (String_repeat pad fill) +:+ s.

(** [a === b].  Two objects or arrays are equal only when they are the
    same object; the operands compared in this program come from two
    different texts, so they never are. *)
Definition strict_eq (a b : value) : bool :=
  match a, b with
  | VUndefined, VUndefined | VNull, VNull => true
  | VBool x, VBool y => Bool.eqb x y
  | VNum (Fin m j), VNum (Fin n k) =>
      (m * 10 ^ Z.of_nat k =? n * 10 ^ Z.of_nat j)%Z
  | VNum PosInf, VNum PosInf | VNum NegInf, VNum NegInf => true
  | VStr x, VStr y => String.eqb x y
  | _, _ => false
  end.

(** The search of [find]; a throwing callback ends it. *)
Fixpoint find_list (p : value -> completion bool) (l : list value)
  : completion value :=
  match l with
  | [] => Normal VUndefined
  | t :: l' =>
      b ← p t;
      if b : bool then Normal t else find_list p l'
  end.

(** [a.find(p)] *)
Definition Array_find (p : value -> completion bool) (a : value)
  : completion value :=
  match a with
  | VArr l => find_list p l
  | _ => Throw TypeError
  end.

(** The characters of a string, each with the continuation bytes of its
    UTF-8 encoding. *)
Fixpoint code_points (s : string) (cur : string) : list string :=
  match s with
  | EmptyString => match cur with EmptyString => [] | _ => [cur] end
  | String c s' =>
      if (128 <=? JSON.code c)%N && (JSON.code c <? 192)%N
      then code_points s' (cur +:+ String c "")
      else match cur with
           | EmptyString => code_points s' (String c "")
           | _ => cur :: code_points s' (String c "")
           end
  end.

(** The elements that [...v] contributes to an array literal: those of an
    array, the characters of a string; nothing else here is iterable. *)
Definition spread_elements (v : value) : completion (list value) :=
  match v with
  | VArr l => Normal l
  | VStr s => Normal (List.map VStr (code_points s ""))
  | _ => Throw TypeError
  end.

(** *** src/utils/calculatePrice.js, the display functions *)

Definition formatDuration (minutes : number) : string :=
  if num_lt_zero minutes || isNaN minutes then "0min"
  else
    let hours := Math_floor_div minutes 60 in
    let mins := num_rem minutes 60 in
    if num_is_zero hours then Number_toString mins +:+ "min"
    else if num_is_zero mins then Number_toString hours +:+ "h"
    else Number_toString hours +:+ "h " +:+ Number_toString mins +:+ "min".

Section FormatDates.

Variable Date_parse : string -> option Z.

(** The fields of a time value in the time zone of the device:
    [getFullYear()], [getMonth()] (from 0), [getDate()], [getHours()] and
    [getMinutes()]. *)
Variable getFullYear : Z -> Z.
Variable getMonth : Z -> Z.
Variable getDate : Z -> Z.
Variable getHours : Z -> Z.
Variable getMinutes : Z -> Z.

(** [n.toString().padStart(2, "0")] *)
Definition pad2 (n : Z) : string :=
  String_padStart (Number_toString (Int n)) 2 "0".

Definition formatTime (dateString : string) : completion string :=
  try_catch
    (match Date_parse dateString with
     | None => Normal "--h--"
     | Some date =>
         let hours := pad2 (getHours date) in
         let minutes := pad2 (getMinutes date) in
         Normal (hours +:+ "h" +:+ minutes)
     end)
    (fun _ => Normal "--h--").

Definition formatDate (dateString : string) : completion string :=
  try_catch
    (match Date_parse dateString with
     | None => Normal "--/--/---- --h--"
     | Some date =>
         let day := pad2 (getDate date) in
         let month := pad2 (getMonth date + 1) in
         let year := Number_toString (Int (getFullYear date)) in
         let hours := pad2 (getHours date) in
         let minutes := pad2 (getMinutes date) in
         Normal (day +:+ "/" +:+ month +:+ "/" +:+ year +:+ " "
                 +:+ hours +:+ "h" +:+ minutes)
     end)
    (fun _ => Normal "--/--/---- --h--").

Definition formatForInput (dateString : string) : completion string :=
  try_catch
    (match Date_parse dateString with
     | None => Normal ""
     | Some date =>
         let year := Number_toString (Int (getFullYear date)) in
         let month := pad2 (getMonth date + 1) in
         let day := pad2 (getDate date) in
         let hours := pad2 (getHours date) in
         let minutes := pad2 (getMinutes date) in
         Normal (year +:+ "-" +:+ month +:+ "-" +:+ day +:+ "T"
                 +:+ hours +:+ ":" +:+ minutes)
     end)
    (fun _ => Normal "").

End FormatDates.

(** *** src/utils/qrCodeUtils.js, verification *)

(** [(t) => t.id === ticketId] for any [ticketId]. *)
Definition id_eq (ticketId : value) (t : value) : completion bool :=
  id ← get_field t "id";
  Normal (strict_eq id ticketId).

Definition verifyTicket (allTickets ticketId : value) : completion value :=
  ticket ← Array_find (id_eq ticketId) allTickets;
  if negb (truthy ticket) then
    Normal (VObj [("isValid", VBool false); ("ticket", VNull);
                  ("status", VStr "not_found");
                  ("message", VStr "Ticket non trouvé dans la base locale")])
  else
    status ← get_field ticket "status";
    exitTime ← get_field ticket "exitTime";
    let isActive := strict_eq_str status "active" || negb (truthy exitTime) in
    let status := if isActive then "active" else "closed" in
    Normal (VObj [("isValid", VBool true); ("ticket", ticket);
                  ("status", VStr status);
                  ("message",
                   VStr (if isActive then "Ticket valide et actif"
                         else "Ticket clôturé (historique)"))]).

(** The default [null] of the second parameter stands for a missing or
    [undefined] argument.  Spreading a falsy value adds no property. *)
Definition formatScannedTicketInfo (ticketData fullTicket : value)
  : completion value :=
  let fullTicket := if is_undefined fullTicket then VNull else fullTicket in
  id ← get_field ticketData "id";
  parkingName ← get_field ticketData "parkingName";
  entryTime ← get_field ticketData "entryTime";
  pricePerHour ← get_field ticketData "pricePerHour";
  timestamp ← get_field ticketData "timestamp";
  more ← (if truthy fullTicket then
            exitTime ← get_field fullTicket "exitTime";
            totalAmount ← get_field fullTicket "totalAmount";
            status ← get_field fullTicket "status";
            Normal [("exitTime", exitTime); ("totalAmount", totalAmount);
                    ("status",
                     if truthy status then status
                     else if truthy exitTime then VStr "closed"
                          else VStr "active")]
          else Normal []);
  Normal (VObj ([("id", id); ("parkingName", parkingName);
                 ("entryTime", entryTime); ("pricePerHour", pricePerHour);
                 ("generatedAt", timestamp)] ++ more)).

(** *** src/storage/ticketStorage.js, lookup *)

Definition getTicketById (ticketId : string) : io value :=
  try_catch_io
    (activeTickets ← getActiveTickets;
     activeTicket ← lift (Array_find (id_is ticketId) activeTickets);
     if truthy activeTicket then mret activeTicket
     else
       historyTickets ← getHistoryTickets;
       historyTicket ← lift (Array_find (id_is ticketId) historyTickets);
       mret (if truthy historyTicket then historyTicket else VNull))
    (fun _ => mret VNull).

(** *** Vocabulary for the display functions *)

(** The text [s] is two digits that denote [n]. *)
Definition two_digits (s : string) (n : Z) : bool :=
  match s with
  | String a (String b EmptyString) =>
      JSON.is_digit a && JSON.is_digit b
      && (Z.of_N (10 * JSON.digit_val a + JSON.digit_val b) =? n)%Z
  | _ => false
  end.

(** The text [s] is four digits that denote [n]. *)
Definition four_digits (s : string) (n : Z) : bool :=
  match s with
  | String a (String b (String c (String d EmptyString))) =>
      JSON.is_digit a && JSON.is_digit b && JSON.is_digit c && JSON.is_digit d
      && (Z.of_N (1000 * JSON.digit_val a + 100 * JSON.digit_val b
                  + 10 * JSON.digit_val c + JSON.digit_val d) =? n)%Z
  | _ => false
  end.

(** What [formatDuration] prints for [h] hours and [m] minutes. *)
Definition duration_text (h m : Z) : string :=
  if (h =? 0)%Z then JSON.digits (Z.to_N m) +:+ "min"
  else if (m =? 0)%Z then JSON.digits (Z.to_N h) +:+ "h"
  else JSON.digits (Z.to_N h) +:+ "h " +:+ JSON.digits (Z.to_N m) +:+ "min".

(** *** An instance of the device: universal time

    The fields of a date and the function [Number] of the engine, for
    evaluation, like the functions of module [Engine]. *)

Module Device.

(** The civil date of a day counted from the epoch, in the proleptic
    Gregorian calendar: year, month (from 1) and day. *)
Definition civil_from_days (z : Z) : Z * Z * Z :=
  let z := (z + 719468)%Z in
  let era := (z / 146097)%Z in
  let doe := (z - era * 146097)%Z in
  let yoe := ((doe - doe / 1460 + doe / 36524 - doe / 146096) / 365)%Z in
  let doy := (doe - (365 * yoe + yoe / 4 - yoe / 100))%Z in
  let mp := ((5 * doy + 2) / 153)%Z in
  let d := (doy - (153 * mp + 2) / 5 + 1)%Z in
  let m := if (mp <? 10)%Z then (mp + 3)%Z else (mp - 9)%Z in
  (if (m <=? 2)%Z then (yoe + era * 400 + 1)%Z else (yoe + era * 400)%Z, m, d).

Definition getFullYear (t : Z) : Z := fst (fst (civil_from_days (t / 86400000))).
Definition getMonth (t : Z) : Z := (snd (fst (civil_from_days (t / 86400000))) - 1)%Z.
Definition getDate (t : Z) : Z := snd (civil_from_days (t / 86400000)).
Definition getHours (t : Z) : Z := ((t / 3600000) mod 24)%Z.
Definition getMinutes (t : Z) : Z := ((t / 60000) mod 60)%Z.

Definition formatTime : string -> completion string :=
  formatTime Engine.Date_parse getHours getMinutes.
Definition formatDate : string -> completion string :=
  formatDate Engine.Date_parse getFullYear getMonth getDate getHours getMinutes.
Definition formatForInput : string -> completion string :=
  formatForInput Engine.Date_parse getFullYear getMonth getDate getHours
    getMinutes.

(** [Number(s)]: white space around, then nothing (0), a hexadecimal
    literal, or a sign and [Infinity] or a decimal literal; NaN for
    everything else (binary and octal literals are not recognised). *)
Definition StringToNumber (s : string) : number :=
  let l := list_ascii_of_string (Engine.String_trim s) in
  let hex :=
    match l with
    | z :: x :: l2 =>
        if (JSON.code z =? 48)%N
           && ((JSON.code x =? 120)%N || (JSON.code x =? 88)%N)
        then Some l2 else None
    | _ => None
    end in
  match l, hex with
  | [], _ => Int 0
  | _, Some l2 =>
      let '(n, cnt) := Engine.read_hex l2 0%N 0 in
      if (cnt =? 0)%nat || negb (cnt =? length l2)%nat then NaN
      else Int (Z.of_N n)
  | c :: l', None =>
      let '(neg, l1) :=
        if (JSON.code c =? 45)%N then (true, l')
        else if (JSON.code c =? 43)%N then (false, l')
        else (false, l) in
      if String.eqb (string_of_list_ascii l1) "Infinity"
      then (if neg then NegInf else PosInf)
      else
        let '(ip, ni, l2) := JSON.read_digits l1 0%N 0 in
        let '(m, nf, l3) :=
          match l2 with
          | p :: l2' =>
              if (JSON.code p =? 46)%N then JSON.read_digits l2' ip 0
              else (ip, 0%nat, l2)
          | [] => (ip, 0%nat, l2)
          end in
        if (ni + nf =? 0)%nat then NaN
        else match JSON.read_exponent l3 with
             | Some x => JSON.scale neg m nf x
             | None => NaN
             end
  end.

End Device.

(** *** Vocabulary for verification and lookup *)

(** The property [k] of a record that can be read: [undefined] for what is
    not an object. *)
Definition field (t : value) (k : string) : value :=
  match t with
  | VObj o => obj_get o k
  | _ => VUndefined
  end.

(** The identifier of the record [t] is the value [ticketId]. *)
Definition carries (ticketId : value) (t : value) : bool :=
  strict_eq (field t "id") ticketId.

(** The first ticket of [l] with the identifier, or [undefined]. *)
Definition first_with_id (ticketId : string) (l : list value) : value :=
  default VUndefined (List.find (has_id ticketId) l).

(** *** Event handlers of the screens

    A handler of a component reads the state of its component when it
    starts, talks to the world and sets state variables; what it has set
    stays set when it throws.  None of the handlers below reads a state
    variable after setting it. *)

Definition handler (S A : Type) : Type :=
  S -> world -> completion A * S * world.

Global Instance handler_ret {S} : MRet (handler S) :=
  fun A a s w => (Normal a, s, w).
Global Instance handler_bind {S} : MBind (handler S) := fun A B f m s w =>
  match m s w with
  | (Normal a, s', w') => f a s' w'
  | (Throw e, s', w') => (Throw e, s', w')
  end.

(** A call into the world. *)
Definition call {S A} (m : io A) : handler S A := fun s w =>
  match m w with
  | (r, w') => (r, s, w')
  end.

(** [await m]: the handler goes on when the call has settled. *)
Definition await {S A} (m : io A) : handler S A := call m.

(** Synchronous code inside a handler. *)
Definition sync {S A} (c : completion A) : handler S A := fun s w => (c, s, w).

(** The state as the handler finds it. *)
Definition get_state {S} : handler S S := fun s w => (Normal s, s, w).

(** A call of a state setter. *)
Definition set_state {S} (f : S -> S) : handler S unit := fun s w =>
  (Normal tt, f s, w).

(** [try { body } catch (error) { h }] *)
Definition try_catch_h {S A} (body : handler S A) (h : error -> handler S A)
  : handler S A := fun s w =>
  match body s w with
  | (Normal a, s', w') => (Normal a, s', w')
  | (Throw e, s', w') => h e s' w'
  end.

(** [try { body } finally { fin }]: [fin] runs however [body] ends. *)
Definition try_finally {S A} (body : handler S A) (fin : handler S unit)
  : handler S A := fun s w =>
  match body s w with
  | (r, s', w') =>
      match fin s' w' with
      | (Normal _, s'', w'') => (r, s'', w'')
      | (Throw e, s'', w'') => (Throw e, s'', w'')
      end
  end.

(** **** src/screens/QRScannerScreen.js *)

Module QRScannerScreen.

Record state : Type := State {
  scanning : bool;
  loading : bool;
  scannedTicket : value;
  verificationResult : value
}.

Definition setScanning (b : bool) (s : state) : state :=
  State b (loading s) (scannedTicket s) (verificationResult s).
Definition setLoading (b : bool) (s : state) : state :=
  State (scanning s) b (scannedTicket s) (verificationResult s).
Definition setScannedTicket (v : value) (s : state) : state :=
  State (scanning s) (loading s) v (verificationResult s).
Definition setVerificationResult (v : value) (s : state) : state :=
  State (scanning s) (loading s) (scannedTicket s) v.

(** The state of a screen that waits for a code. *)
Definition initial : state := State true false VNull VNull.

Definition handleBarCodeScanned (data : string) : handler state unit :=
  s ← get_state;
  if negb (scanning s) then mret tt
  else
    set_state (setScanning false);;
    set_state (setLoading true);;
    try_finally
      (try_catch_h
         (qrData ← sync (parseQRCodeData data);
          let qrData := default VNull qrData in
          if negb (truthy qrData) then
            call (Alert_alert "QR Code invalide"
                     "Ce QR code ne contient pas de données valides de ticket");;
            set_state (setScanning true);;
            set_state (setLoading false)
          else
            activeTickets ← await getActiveTickets;
            historyTickets ← await getHistoryTickets;
            active ← sync (spread_elements activeTickets);
            history ← sync (spread_elements historyTickets);
            let allTickets := VArr (active ++ history) in
            id ← sync (get_field qrData "id");
            verification ← sync (verifyTicket allTickets id);
            isValid ← sync (get_field verification "isValid");
            if negb (truthy isValid) then
              set_state (setScannedTicket qrData);;
              set_state (setVerificationResult
                           (VObj (obj_set (own_props verification)
                                    "foundInBase" (VBool false))))
            else
              ticket ← sync (get_field verification "ticket");
              ticketInfo ← sync (formatScannedTicketInfo qrData ticket);
              set_state (setScannedTicket ticketInfo);;
              set_state (setVerificationResult
                           (VObj (obj_set (own_props verification)
                                    "foundInBase" (VBool true)))))
         (fun _ =>
            call (Alert_alert "Erreur" "Une erreur s'est produite lors du scan");;
            set_state (setScanning true)))
      (set_state (setLoading false)).

Definition handleReset : handler state unit :=
  set_state (setScannedTicket VNull);;
  set_state (setVerificationResult VNull);;
  set_state (setScanning true).

End QRScannerScreen.

(** **** src/screens/NewTicketScreen.js, the scanner of the form *)

Module NewTicketScreen.

(** The state of the form.  The text fields hold what the user typed, a
    string, or what a scanned code carried, which can be any value. *)
Record state : Type := State {
  parkingName : value;
  pricePerHour : string;
  entryTime : value;
  useCurrentTime : bool;
  scanning : bool
}.

Definition setParkingName (v : value) (s : state) : state :=
  State v (pricePerHour s) (entryTime s) (useCurrentTime s) (scanning s).
Definition setPricePerHour (v : string) (s : state) : state :=
  State (parkingName s) v (entryTime s) (useCurrentTime s) (scanning s).
Definition setEntryTime (v : value) (s : state) : state :=
  State (parkingName s) (pricePerHour s) v (useCurrentTime s) (scanning s).
Definition setUseCurrentTime (b : bool) (s : state) : state :=
  State (parkingName s) (pricePerHour s) (entryTime s) b (scanning s).
Definition setScanning (b : bool) (s : state) : state :=
  State (parkingName s) (pricePerHour s) (entryTime s) (useCurrentTime s) b.

Definition handleBarCodeScanned (data : string) : handler state unit :=
  set_state (setScanning false);;
  try_catch_h
    (parsed ← sync (JSON_parse data);
     name ← sync (get_field parsed "parkingName");
     (* parsed.parkingName && parsed.pricePerHour *)
     both ← (if truthy name then sync (get_field parsed "pricePerHour")
             else mret name);
     if truthy both then
       set_state (setParkingName name);;
       rate ← sync (get_field parsed "pricePerHour");
       rateText ← sync (method_toString rate);
       set_state (setPricePerHour rateText);;
       entry ← sync (get_field parsed "entryTime");
       (if truthy entry then
          set_state (setEntryTime entry);;
          set_state (setUseCurrentTime false)
        else mret tt);;
       shownName ← sync (to_string name);
       shownRate ← sync (to_string rate);
       call (Alert_alert "QR Code scanné avec succès"
                ("Parking : " +:+ shownName +:+ newline
                 +:+ "Tarif : " +:+ shownRate +:+ " FCFA/h"))
     else
       call (Alert_alert "QR Code invalide"
                "Le QR Code ne contient pas les informations nécessaires"))
    (fun _ =>
       call (Alert_alert "Erreur de lecture"
                "Impossible de lire le QR Code. Veuillez réessayer.")).

(** The form that [handleSave] reads, when the two text fields hold
    strings. *)
Definition form_of (s : state) : option form :=
  match parkingName s, entryTime s with
  | VStr name, VStr entry =>
      Some (Form name (pricePerHour s) entry (useCurrentTime s))
  | _, _ => None
  end.

Section Save.

Variable uuidv4 : nat -> string.
Variable now_at : nat -> string.
Variable String_trim : string -> string.
Variable parseInt : string -> number.

(** [v.trim()]: only a string has the method. *)
Definition method_trim (v : value) : completion string :=
  match v with
  | VStr s => Normal (String_trim s)
  | _ => Throw TypeError
  end.

(** [handleSave] on the state of the screen.  The first [trim] is outside
    the [try]: when a scan has put a name that is not a string into the
    form, the handler throws. *)
Definition handleSave (s : state) : io unit :=
  name ← lift (method_trim (parkingName s));
  if negb (truthy (VStr name)) then
    Alert_alert "Erreur" "Veuillez entrer le nom du parking"
  else
    let price := parseInt (pricePerHour s) in
    if isNaN price || num_le_zero price then
      Alert_alert "Erreur" "Veuillez entrer un tarif valide (supérieur à 0)"
    else if negb (useCurrentTime s) && negb (truthy (entryTime s)) then
      Alert_alert "Erreur" "Veuillez entrer une heure d'entrée"
    else
      name ← lift (method_trim (parkingName s));
      entry ← (if useCurrentTime s
               then now ← getCurrentDateTime now_at; mret (VStr now)
               else mret (entryTime s));
      let newTicket :=
        [("parkingName", VStr name); ("entryTime", entry);
         ("pricePerHour", VNum price)] in
      try_catch_io
        (savedTicket ← addTicket uuidv4 now_at newTicket;
         match savedTicket with
         | Some t =>
             id ← lift (get_field t "id");
             if truthy id then
               shown ← lift (method_trim (parkingName s));
               id8 ← lift (String_slice0 id 8);
               Alert_alert "Ticket créé avec succès! 🎫"
                 ("Parking: " +:+ shown +:+ newline
                  +:+ "ID: " +:+ id8 +:+ "...")
             else Alert_alert "Erreur" "Impossible de créer le ticket"
         | None => Alert_alert "Erreur" "Impossible de créer le ticket"
         end)
        (fun _ =>
           Alert_alert "Erreur"
             "Une erreur s'est produite lors de la création du ticket").

End Save.

End NewTicketScreen.

(** **** src/screens/HistoryScreen.js, the statistics *)

(** [a + b] on numbers, exact. *)
Definition num_add (a b : number) : number :=
  match a, b with
  | NaN, _ | _, NaN => NaN
  | PosInf, NegInf | NegInf, PosInf => NaN
  | PosInf, _ | _, PosInf => PosInf
  | NegInf, _ | _, NegInf => NegInf
  | Fin m j, Fin n k =>
      normalize (m * 10 ^ Z.of_nat (Nat.max j k - j)
                 + n * 10 ^ Z.of_nat (Nat.max j k - k))
                (Nat.max j k)
  end.

(** [Math.round(x / c)] for an integer [c > 0]: the nearest integer, the
    greater one of two that are equally near.  The quotient is exact here;
    for an integer [x] below 2^52 the engine's rounding of the quotient
    does not reach a half that the exact quotient is below. *)
Definition Math_round_div (x : number) (c : Z) : number :=
  match x with
  | Fin m e =>
      Int ((2 * m + c * 10 ^ Z.of_nat e) / (2 * c * 10 ^ Z.of_nat e))
  | _ => x
  end.

(** ToPrimitive: an array or an object is converted through its method
    [toString]. *)
Definition to_primitive (v : value) : completion value :=
  match v with
  | VArr _ | VObj _ => s ← to_string v; Normal (VStr s)
  | _ => Normal v
  end.

Section Statistics.

(** The number that a string denotes: [Number(s)]. *)
Variable StringToNumber : string -> number.

(** ToNumber *)
Definition to_number (v : value) : completion number :=
  p ← to_primitive v;
  Normal (match p with
          | VUndefined => NaN
          | VNull => Int 0
          | VBool b => Int (if b then 1 else 0)
          | VNum n => n
          | VStr s => StringToNumber s
          | _ => NaN
          end).

(** [a + b]: concatenation when one side is a string, addition otherwise. *)
Definition js_add (a b : value) : completion value :=
  pa ← to_primitive a;
  pb ← to_primitive b;
  match pa, pb with
  | VStr x, _ => y ← to_string pb; Normal (VStr (x +:+ y))
  | _, VStr y => x ← to_string pa; Normal (VStr (x +:+ y))
  | _, _ => x ← to_number pa; y ← to_number pb; Normal (VNum (num_add x y))
  end.

(** [l.reduce(f, init)] *)
Fixpoint reduce (f : value -> value -> completion value) (l : list value)
  (acc : value) : completion value :=
  match l with
  | [] => Normal acc
  | t :: l' => acc' ← f acc t; reduce f l' acc'
  end.

(** [getStats] of the history screen, for the tickets that the screen
    holds. *)
Definition getStats (historyTickets : list value) : completion value :=
  totalAmount ←
    reduce (fun sum ticket =>
              amount ← get_field ticket "totalAmount";
              js_add sum (if truthy amount then amount else VNum (Int 0)))
           historyTickets (VNum (Int 0));
  let count := Z.of_nat (length historyTickets) in
  avgAmount ← (if (0 <? count)%Z then
                 n ← to_number totalAmount;
                 Normal (Math_round_div n count)
               else Normal (Int 0));
  Normal (VObj [("totalAmount", totalAmount); ("count", VNum (Int count));
                ("avgAmount", VNum avgAmount)]).

End Statistics.

(** *** Vocabulary for the statistics *)

(** The total that a ticket of the history counts for: its whole
    [totalAmount], or 0 when it has none. *)
Definition counts_for (t : value) (a : Z) : Prop :=
  readable t = true /\
  (field t "totalAmount" = VNum (Int a) \/
   (truthy (field t "totalAmount") = false /\ a = 0%Z)).

(** The sum of a list of integers. *)
Definition sum_Z (l : list Z) : Z := fold_right Z.add 0%Z l.

(** **** src/screens/TicketDetailScreen.js *)

Module TicketDetailScreen.

Record state : Type := State {
  ticket : value;
  loading : bool
}.

Definition setTicket (v : value) (s : state) : state := State v (loading s).
Definition setLoading (b : bool) (s : state) : state := State (ticket s) b.

(** The state of a screen that has not loaded its ticket yet. *)
Definition initial : state := State VNull true.

Section Handlers.

Variable now_at : nat -> string.

(** The engine's parser of dates and its function [Number]. *)
Variable Date_parse : string -> option Z.
Variable StringToNumber : string -> number.

(** The identifier that the route hands to the screen. *)
Variable ticketId : string.

(** TimeClip: the time value that a number stands for, [None] when it is
    not finite or out of the range of dates. *)
Definition time_clip (n : number) : option Z :=
  match n with
  | Fin m e =>
      if (Z.abs m <=? 8640000000000000 * 10 ^ Z.of_nat e)%Z
      then Some (Z.quot m (10 ^ Z.of_nat e))
      else None
  | _ => None
  end.

(** [new Date(v).getTime()] for any value [v]: a string is parsed, any
    other value converted to a number; [None] is an invalid date. *)
Definition Date_of (v : value) : completion (option Z) :=
  p ← to_primitive v;
  match p with
  | VStr s => Normal (Date_parse s)
  | _ => n ← to_number StringToNumber p; Normal (time_clip n)
  end.

(** [calculateDuration] of calculatePrice.js at arguments of any type, as
    the screen calls it with the fields of a stored ticket. *)
Definition calculateDuration_any (entryTime exitTime : value) : completion Z :=
  try_catch
    (entry ← Date_of entryTime;
     exit ← Date_of exitTime;
     match entry, exit with
     | Some entry, Some exit =>
         let durationMs := double_of_Z (exit - entry) in
         let durationMinutes := Math_floor_quotient durationMs 60000 in
         Normal (Z.max 0 durationMinutes)
     | _, _ => Normal 0%Z
     end)
    (fun _ => Normal 0%Z).

(** [calculatePrice] of calculatePrice.js at arguments of any type. *)
Definition calculatePrice_any (entryTime exitTime pricePerHour : value)
  : completion number :=
  try_catch
    (durationMinutes ← calculateDuration_any entryTime exitTime;
     if (durationMinutes =? 0)%Z then Normal (Int 0)
     else
       let hoursToCharge := Math_ceil_div durationMinutes 60 in
       rate ← to_number StringToNumber pricePerHour;
       Normal (num_mul (Int hoursToCharge) rate))
    (fun _ => Normal (Int 0)).

Definition loadTicket : handler state unit :=
  try_finally
    (try_catch_h
       (loadedTicket ← await (getTicketById ticketId);
        if truthy loadedTicket then set_state (setTicket loadedTicket)
        else call (Alert_alert "Erreur" "Ticket introuvable"))
       (fun _ => call (Alert_alert "Erreur" "Impossible de charger le ticket")))
    (set_state (setLoading false)).

(** What the button Clôturer of the confirmation dialog does, for the exit
    time and the total that the dialog announced. *)
Definition confirmClose (exitTime : string) (totalAmount : number)
  : handler state unit :=
  success ← await (closeTicket ticketId exitTime totalAmount);
  if success : bool then
    call (Alert_alert "Ticket clôturé"
             ("Montant total : " +:+ Number_toString totalAmount +:+ " FCFA"))
  else call (Alert_alert "Erreur" "Impossible de clôturer le ticket").

(** The handler shows the confirmation dialog and returns the exit time
    and the total that its button Clôturer will close the ticket with;
    [None] when there is no ticket and no dialog. *)
Definition handleCloseTicket : handler state (option (string * number)) :=
  s ← get_state;
  if negb (truthy (ticket s)) then mret None
  else
    exitTime ← call (getCurrentDateTime now_at);
    entryTime ← sync (get_field (ticket s) "entryTime");
    pricePerHour ← sync (get_field (ticket s) "pricePerHour");
    totalAmount ← sync (calculatePrice_any entryTime (VStr exitTime) pricePerHour);
    call (Alert_alert "Clôturer le ticket"
             ("Montant à payer : " +:+ Number_toString totalAmount
              +:+ " FCFA" +:+ newline +:+ newline
              +:+ "Confirmer la clôture du ticket ?"));;
    mret (Some (exitTime, totalAmount)).

End Handlers.

End TicketDetailScreen.

(** ** More sample runs *)

Module Scenario.

(** An active collection that holds a [null] entry. *)
Definition corrupted : world :=
  World (<[ACTIVE_TICKETS_KEY := "[null]"]> ∅) [] 0 [] 0 0 [].

(** A storage that will accept a read and reject the write after it. *)
Definition read_only : world :=
  Sample.with_faults [false; true] Engine.empty_world.

(** The tickets stored once the ticket of Central Lot is open, and once it
    is closed. *)
Definition active_tickets : list value :=
  tickets_of (stored (disk Sample.opened) ACTIVE_TICKETS_KEY).
Definition history_tickets : list value :=
  tickets_of (stored (disk Sample.closed) HISTORY_TICKETS_KEY).

(** The ticket of Central Lot while it is open, and once it is closed. *)
Definition opened_ticket : value :=
  default VNull (List.find (has_id Sample.ticket_id) active_tickets).
Definition closed_ticket : value :=
  default VNull (List.find (has_id Sample.ticket_id) history_tickets).

(** A code with the identifier of that ticket and fields of its own. *)
Definition forged_payload : object :=
  [("id", VStr Sample.ticket_id); ("parkingName", VStr "Other Lot");
   ("entryTime", VStr "2025-01-01T00:00:00.000Z");
   ("pricePerHour", VNum (Int 1))].
Definition forged_code : string := JSON_stringify (VObj forged_payload).

(** A code with an identifier that no ticket carries. *)
Definition unknown_payload : object :=
  [("id", VStr "no-such-ticket"); ("parkingName", VStr "Other Lot");
   ("entryTime", VStr "2025-01-01T00:00:00.000Z");
   ("pricePerHour", VNum (Int 1))].
Definition unknown_code : string := JSON_stringify (VObj unknown_payload).

(** A clock that reads the time of the exit. *)
Definition exit_clock : nat -> string := fun _ => Sample.exit_time.

(** A history of three tickets, one of them without a total. *)
Definition three_tickets : list value :=
  [VObj [("id", VStr "a-1"); ("totalAmount", VNum (Int 150))];
   VObj [("id", VStr "a-2")];
   VObj [("id", VStr "a-3"); ("totalAmount", VNum (Int 101))]].

(** A code that names a car park and gives the rate 0. *)
Definition free_code : string :=
  JSON_stringify
    (VObj [("parkingName", VStr "Central Lot"); ("pricePerHour", VNum (Int 0))]).

(** The form as the screen shows it first. *)
Definition empty_form : NewTicketScreen.state :=
  NewTicketScreen.State (VStr "") "50" (VStr "2025-01-20T14:30:00.000Z") true
    true.

End Scenario.

(** * Properties *)

(** ** Duration and fee *)

Lemma Math_ceil_div_60 (d : Z) :
  (60 * (Math_ceil_div d 60 - 1) < d <= 60 * Math_ceil_div d 60)%Z.
Proof. unfold Math_ceil_div. Z.to_euclidean_division_equations. lia. Qed.

Lemma num_mul_one (n : number) : normal_form n -> num_mul (Int 1) n = n.
Proof.
  destruct n as [| | |m e]; try reflexivity.
  unfold num_mul, Int. rewrite Z.mul_1_l. simpl Nat.add.
  destruct e as [|e]; simpl; [reflexivity |].
  intros Hm. now destruct (Z.eqb_spec (m mod 10) 0).
Qed.

(** *** Doubles that are integers *)

Section Doubles.

Local Open Scope Z_scope.

Lemma round_half_even_exact (q u : Z) :
  0 < u -> round_half_even (q * u) u = q.
Proof.
  intros Hu. unfold round_half_even.
  rewrite Z.mod_mul, Z.div_mul by lia. cbn zeta.
  destruct (Z.ltb_spec (2 * 0) u); [reflexivity | lia].
Qed.

Lemma round_half_even_bounds (a b : Z) :
  0 < b -> a / b <= round_half_even a b <= a / b + 1.
Proof.
  intros Hb. unfold round_half_even. cbn zeta.
  destruct (2 * (a mod b) <? b); [lia |].
  destruct (b <? 2 * (a mod b)); [lia |].
  destruct (Z.even (a / b)); lia.
Qed.

Lemma round_half_even_nonneg (a b : Z) :
  0 <= a -> 0 < b -> 0 <= round_half_even a b.
Proof.
  intros Ha Hb. pose proof (round_half_even_bounds a b Hb).
  pose proof (Z.div_pos a b Ha Hb). lia.
Qed.

Lemma round_half_even_nonpos (a b : Z) :
  a <= 0 -> 0 < b -> round_half_even a b <= 0.
Proof.
  intros Ha Hb. unfold round_half_even. cbn zeta.
  pose proof (Z.mod_pos_bound a b Hb) as Hm.
  pose proof (Z.div_mod a b ltac:(lia)) as Hd.
  assert (a / b <= 0) by (apply Z.div_le_upper_bound; lia).
  destruct (Z.ltb_spec (2 * (a mod b)) b); [lia |].
  assert (a / b <= -1) by nia.
  destruct (b <? 2 * (a mod b)); [lia |].
  destruct (Z.even (a / b)); lia.
Qed.

Lemma double_of_Z_exact (z : Z) :
  Z.abs z <= 2 ^ 53 -> double_of_Z z = z.
Proof.
  intros Hz.
  destruct (Z.eq_dec (Z.abs z) (2 ^ 53)) as [He | Hne].
  - assert (Hz2 : z = 2 ^ 53 \/ z = - 2 ^ 53) by lia.
    destruct Hz2 as [-> | ->]; reflexivity.
  - unfold double_of_Z. cbn zeta.
    assert (Hl : Z.log2 (Z.abs z) < 53).
    { destruct (Z.eq_dec z 0) as [-> | Hz0]; [reflexivity |].
      apply Z.log2_lt_pow2; lia. }
    rewrite Z.max_l by lia. change (2 ^ 0) with 1.
    rewrite <- (Z.mul_1_r z) at 1. rewrite round_half_even_exact by lia. lia.
Qed.

Lemma double_of_Z_nonpos (z : Z) : z <= 0 -> double_of_Z z <= 0.
Proof.
  intros Hz. unfold double_of_Z. cbn zeta.
  set (u := 2 ^ _). assert (0 < u) by (apply Z.pow_pos_nonneg; lia).
  pose proof (round_half_even_nonpos z u Hz ltac:(lia)). nia.
Qed.

Lemma Math_floor_quotient_nonpos (a b : Z) :
  a <= 0 -> 0 < b -> Math_floor_quotient a b <= 0.
Proof.
  intros Ha Hb. unfold Math_floor_quotient. cbn zeta.
  set (up := 2 ^ Z.max 0 (52 - _)). set (dn := 2 ^ Z.max 0 (_ - 52)).
  assert (0 < up) by (apply Z.pow_pos_nonneg; lia).
  assert (0 < dn) by (apply Z.pow_pos_nonneg; lia).
  pose proof (round_half_even_nonneg (Z.abs a * up) (b * dn)
                ltac:(nia) ltac:(nia)).
  apply Z.div_le_upper_bound; [lia |].
  assert (Z.sgn a <= 0) by lia. nia.
Qed.

(** The quotient of a double below 2^53 by 60000 has the floor of the exact
    quotient. *)
Lemma binade_minutes (a : Z) :
  0 < a <= 2 ^ 53 -> binade a 60000 <= 37.
Proof.
  intros Ha. unfold binade. cbn zeta.
  change (Z.log2 60000) with 15.
  assert (Hl : Z.log2 a <= 53).
  { change 53 with (Z.log2 (2 ^ 53)) at 1. apply Z.log2_le_mono. lia. }
  destruct (Z.eq_dec (Z.log2 a) 53) as [He | Hne].
  - rewrite He. change (Z.max 0 (53 - 15)) with 38.
    change (Z.max 0 (- (53 - 15))) with 0.
    destruct (Z.leb_spec (60000 * 2 ^ 38) (a * 2 ^ 0)); [| lia].
    change (2 ^ 38) with 274877906944 in *.
    change (2 ^ 53) with 9007199254740992 in *. lia.
  - destruct (_ <=? _); lia.
Qed.

Lemma quotient_floor_small (a b up : Z) :
  0 <= a -> 0 < b -> 0 < up -> b < 2 * up ->
  round_half_even (a * up) b / up = a / b.
Proof.
  intros Ha Hb Hup Hlt.
  pose proof (Z.div_mod a b ltac:(lia)) as Hd.
  pose proof (Z.mod_pos_bound a b Hb) as Hm.
  set (k := a / b) in *. set (j := a mod b) in *.
  assert (Hk : 0 <= k) by (apply Z.div_pos; lia).
  symmetry. apply Z.div_unique_pos with
    (r := round_half_even (a * up) b - k * up); [| lia].
  unfold round_half_even. cbn zeta.
  pose proof (Z.div_mod (a * up) b ltac:(lia)) as Hd2.
  pose proof (Z.mod_pos_bound (a * up) b Hb) as Hm2.
  set (Q := (a * up) / b) in *. set (R := (a * up) mod b) in *.
  assert (HQ1 : k * up <= Q) by nia.
  assert (HQ2 : Q <= k * up + up - 1) by nia.
  destruct (Z.ltb_spec (2 * R) b); [lia |].
  assert (Q <= k * up + up - 2) by nia.
  destruct (b <? 2 * R); [lia |].
  destruct (Z.even Q); lia.
Qed.

Lemma Math_floor_quotient_minutes (a : Z) :
  0 <= a <= 2 ^ 53 -> Math_floor_quotient a 60000 = a / 60000.
Proof.
  intros Ha. destruct (Z.eq_dec a 0) as [-> | Hne]; [reflexivity |].
  unfold Math_floor_quotient. cbn zeta.
  rewrite Z.abs_eq, Z.sgn_pos by lia.
  pose proof (binade_minutes a ltac:(lia)) as He.
  set (e := binade a 60000) in *.
  rewrite (Z.max_l 0 (e - 52)) by lia. change (2 ^ 0) with 1.
  rewrite (Z.max_r 0 (52 - e)) by lia.
  rewrite !Z.mul_1_r, Z.mul_1_l.
  assert (Hup : 2 ^ 15 <= 2 ^ (52 - e)) by (apply Z.pow_le_mono_r; lia).
  change (2 ^ 15) with 32768 in Hup.
  apply quotient_floor_small; lia.
Qed.

End Doubles.

Section DurationAndFee.

Variable Date_parse : string -> option Z.

Local Abbreviation duration := (calculateDuration Date_parse).
Local Abbreviation fee := (calculatePrice Date_parse).

Lemma calculateDuration_run entryTime exitTime entry exit :
  Date_parse entryTime = Some entry -> Date_parse exitTime = Some exit ->
  duration entryTime exitTime
  = Normal (Z.max 0 (Math_floor_quotient (double_of_Z (exit - entry)) 60000)).
Proof. intros He Hx. unfold calculateDuration. now rewrite He, Hx. Qed.

(** Between instants that are at most 2^53 ms apart, the duration is the
    floor of the exact quotient. *)
Lemma calculateDuration_valid entryTime exitTime entry exit :
  Date_parse entryTime = Some entry -> Date_parse exitTime = Some exit ->
  (exit - entry <= 2 ^ 53)%Z ->
  duration entryTime exitTime = Normal (Z.max 0 ((exit - entry) / 60000))%Z.
Proof.
  intros He Hx Hfar. rewrite (calculateDuration_run _ _ _ _ He Hx). f_equal.
  destruct (Z.le_gt_cases 0 (exit - entry)) as [Hpos | Hneg].
  - rewrite double_of_Z_exact by lia.
    now rewrite Math_floor_quotient_minutes by lia.
  - pose proof (double_of_Z_nonpos (exit - entry) ltac:(lia)) as H1.
    pose proof (Math_floor_quotient_nonpos _ 60000 H1 ltac:(lia)) as H2.
    assert ((exit - entry) / 60000 < 0)%Z
      by (apply Z.div_lt_upper_bound; lia).
    lia.
Qed.

(** When the exit is not after the entry, the duration is 0, however far
    apart the two are. *)
Lemma calculateDuration_not_after entryTime exitTime entry exit :
  Date_parse entryTime = Some entry -> Date_parse exitTime = Some exit ->
  (exit <= entry)%Z ->
  duration entryTime exitTime = Normal 0%Z.
Proof.
  intros He Hx Hle. rewrite (calculateDuration_run _ _ _ _ He Hx). f_equal.
  pose proof (double_of_Z_nonpos (exit - entry) ltac:(lia)) as H1.
  pose proof (Math_floor_quotient_nonpos _ 60000 H1 ltac:(lia)) as H2.
  lia.
Qed.

(** A stay of [k] whole minutes and [r] further milliseconds lasts [k]
    minutes. *)
Lemma calculateDuration_minutes entryTime exitTime entry k r :
  (0 <= k)%Z -> (0 <= r < 60000)%Z -> (60000 * k + r <= 2 ^ 53)%Z ->
  Date_parse entryTime = Some entry ->
  Date_parse exitTime = Some (entry + 60000 * k + r)%Z ->
  duration entryTime exitTime = Normal k.
Proof.
  intros Hk Hr Hfar He Hx.
  rewrite (calculateDuration_valid _ _ _ _ He Hx) by lia.
  f_equal. Z.to_euclidean_division_equations. lia.
Qed.

Lemma calculatePrice_of_duration entryTime exitTime rate d :
  duration entryTime exitTime = Normal d ->
  fee entryTime exitTime rate =
  Normal (if (d =? 0)%Z then Int 0 else num_mul (Int (Math_ceil_div d 60)) rate).
Proof.
  intros Hd. unfold calculatePrice. rewrite Hd. simpl.
  now destruct (d =? 0)%Z.
Qed.

Lemma calculateDuration_total entryTime exitTime :
  exists m, duration entryTime exitTime = Normal m.
Proof.
  unfold calculateDuration.
  destruct (Date_parse entryTime), (Date_parse exitTime); simpl; eauto.
Qed.

(** C2, amended.  For all strings, [calculateDuration] completes normally;
    when both parse as instants that are at most 2^53 ms apart and the
    floor [q] of the elapsed minutes is non-negative it returns [q]; it
    returns 0 whenever the exit is not after the entry, and whenever one of
    the two is not a valid date. *)
Theorem calculateDuration_floor_clamped (entryTime exitTime : string) :
  (exists m, duration entryTime exitTime = Normal m) /\
  (forall entry exit q,
      Date_parse entryTime = Some entry -> Date_parse exitTime = Some exit ->
      (60000 * q <= exit - entry < 60000 * (q + 1))%Z -> (0 <= q)%Z ->
      (exit - entry <= 2 ^ 53)%Z ->
      duration entryTime exitTime = Normal q) /\
  (forall entry exit,
      Date_parse entryTime = Some entry -> Date_parse exitTime = Some exit ->
      (exit <= entry)%Z ->
      duration entryTime exitTime = Normal 0%Z) /\
  (Date_parse entryTime = None \/ Date_parse exitTime = None ->
   duration entryTime exitTime = Normal 0%Z).
Proof.
  repeat split.
  - apply calculateDuration_total.
  - intros entry exit q He Hx Hq Hq0 Hfar.
    rewrite (calculateDuration_valid _ _ _ _ He Hx Hfar). f_equal.
    Z.to_euclidean_division_equations. lia.
  - intros entry exit He Hx Hle.
    exact (calculateDuration_not_after _ _ _ _ He Hx Hle).
  - intros [H | H]; unfold calculateDuration; rewrite H; simpl;
      [reflexivity | now destruct (Date_parse entryTime)].
Qed.

(** C1.  For a positive rate, the fee is 0 when the duration is 0 minutes and
    otherwise the rate times the number [h] of started hours, the least
    integer with [d <= 60 * h]; a stay of 1 minute or of 60 minutes costs the
    rate, a stay of 61 minutes twice the rate. *)
Theorem calculatePrice_started_hours
  (entryTime exitTime : string) (rate : number) :
  num_pos rate -> normal_form rate ->
  exists d,
    duration entryTime exitTime = Normal d /\
    (d = 0%Z -> fee entryTime exitTime rate = Normal (Int 0)) /\
    (d <> 0%Z ->
     exists h, (60 * (h - 1) < d <= 60 * h)%Z /\
               fee entryTime exitTime rate = Normal (num_mul (Int h) rate)) /\
    (forall t, Date_parse entryTime = Some t ->
               Date_parse exitTime = Some (t + 60000)%Z ->
               fee entryTime exitTime rate = Normal rate) /\
    (forall t, Date_parse entryTime = Some t ->
               Date_parse exitTime = Some (t + 60 * 60000)%Z ->
               fee entryTime exitTime rate = Normal rate) /\
    (forall t, Date_parse entryTime = Some t ->
               Date_parse exitTime = Some (t + 61 * 60000)%Z ->
               fee entryTime exitTime rate = Normal (num_mul (Int 2) rate)).
Proof.
  intros _ Hnf.
  destruct (calculateDuration_total entryTime exitTime) as [d Hd].
  exists d. split; [exact Hd |].
  pose proof (calculatePrice_of_duration _ _ rate _ Hd) as Hfee.
  repeat split.
  - intros ->. exact Hfee.
  - intros Hne. exists (Math_ceil_div d 60). split; [apply Math_ceil_div_60 |].
    rewrite Hfee. now destruct (Z.eqb_spec d 0).
  - intros t He Hx.
    rewrite (calculatePrice_of_duration _ _ rate 1%Z).
    + simpl. f_equal. now apply num_mul_one.
    + apply (calculateDuration_minutes _ _ t 1 0); try lia; try assumption.
      rewrite Hx. f_equal. lia.
  - intros t He Hx.
    rewrite (calculatePrice_of_duration _ _ rate 60%Z).
    + simpl. f_equal. now apply num_mul_one.
    + apply (calculateDuration_minutes _ _ t 60 0); try lia; try assumption.
      rewrite Hx. f_equal. lia.
  - intros t He Hx.
    rewrite (calculatePrice_of_duration _ _ rate 61%Z).
    + reflexivity.
    + apply (calculateDuration_minutes _ _ t 61 0); try lia; try assumption.
      rewrite Hx. f_equal. lia.
Qed.

End DurationAndFee.

Lemma calculateDuration_floor_clamped_witness :
  calculateDuration Engine.Date_parse
    "2025-01-20T14:30:00.000Z" "2025-01-20T16:35:59.999Z" = Normal 125%Z.
Proof.
  apply (proj1 (proj2 (calculateDuration_floor_clamped Engine.Date_parse
           "2025-01-20T14:30:00.000Z" "2025-01-20T16:35:59.999Z"))
         1737383400000 1737390959999 125)%Z.
  - reflexivity.
  - reflexivity.
  - lia.
  - lia.
  - vm_compute. discriminate.
Defined.

(** C2 as stated fails.  The first instant of the range of dates and the
    last but one are 17 279 999 999 999 999 ms apart; the floor of the
    elapsed minutes is 287 999 999 999, and [calculateDuration] returns
    288 000 000 000: the difference needs 54 bits and is rounded to the
    double 17 280 000 000 000 000 before the division. *)
Lemma calculateDuration_far_apart_rounds :
  exists entry exit,
    Engine.Date_parse "-271821-04-20T00:00:00.000Z" = Some entry /\
    Engine.Date_parse "+275760-09-12T23:59:59.999Z" = Some exit /\
    (60000 * 287999999999 <= exit - entry < 60000 * (287999999999 + 1))%Z /\
    calculateDuration Engine.Date_parse
      "-271821-04-20T00:00:00.000Z" "+275760-09-12T23:59:59.999Z"
    = Normal 288000000000%Z.
Proof.
  exists (-8640000000000000)%Z, 8639999999999999%Z.
  split; [vm_compute; reflexivity |]. split; [vm_compute; reflexivity |].
  split; [lia | vm_compute; reflexivity].
Qed.

Lemma calculatePrice_started_hours_witness :
  exists d,
    calculateDuration Engine.Date_parse
      "2025-01-20T14:30:00.000Z" "2025-01-20T15:31:00.000Z" = Normal d /\
    calculatePrice Engine.Date_parse
      "2025-01-20T14:30:00.000Z" "2025-01-20T15:31:00.000Z" (Int 50)
    = Normal (Int 100).
Proof.
  destruct (calculatePrice_started_hours Engine.Date_parse
              "2025-01-20T14:30:00.000Z" "2025-01-20T15:31:00.000Z" (Int 50))
    as (d & Hd & _ & _ & _ & _ & H61).
  - simpl. lia.
  - exact I.
  - exists d. split; [exact Hd |].
    apply (H61 1737383400000%Z); reflexivity.
Defined.

(** ** The QR payload codec *)

Lemma obj_get_absent (o : object) (k : string) :
  existsb (fun p => String.eqb (fst p) k) o = false -> obj_get o k = VUndefined.
Proof.
  induction o as [|[k' v] o IH]; simpl; [reflexivity |].
  destruct (String.eqb k' k); simpl; [discriminate | exact IH].
Qed.

Lemma get_field_absent (v : value) (k : string) :
  has_field v k = false ->
  get_field v k = Normal VUndefined \/ get_field v k = Throw TypeError.
Proof.
  destruct v; simpl; auto. intros H. left. now rewrite obj_get_absent.
Qed.

(** C3.  [parseQRCodeData] always completes normally; it returns null when
    the text is not JSON, and when the parsed payload lacks one of [id],
    [parkingName], [entryTime], [pricePerHour]; a payload whose other fields
    are truthy and whose [pricePerHour] is the number 0 is returned. *)
Theorem parseQRCodeData_invalid_or_payload (scannedData : string) :
  (exists r, parseQRCodeData scannedData = Normal r) /\
  (forall e, JSON_parse scannedData = Throw e ->
             parseQRCodeData scannedData = Normal None) /\
  (forall parsed k,
      JSON_parse scannedData = Normal parsed ->
      In k required_fields -> has_field parsed k = false ->
      parseQRCodeData scannedData = Normal None) /\
  (forall o,
      JSON_parse scannedData = Normal (VObj o) ->
      truthy (obj_get o "id") = true ->
      truthy (obj_get o "parkingName") = true ->
      truthy (obj_get o "entryTime") = true ->
      obj_get o "pricePerHour" = VNum (Int 0) ->
      parseQRCodeData scannedData = Normal (Some (VObj o))).
Proof.
  unfold parseQRCodeData. repeat split.
  - destruct (JSON_parse scannedData) as [parsed|e]; simpl; [| eauto].
    destruct parsed; simpl; eauto;
      repeat match goal with
             | |- context [if ?b then _ else _] => destruct b; simpl; eauto
             end.
  - intros e ->. reflexivity.
  - intros parsed k -> Hk Hmiss. simpl.
    destruct parsed as [| | | | |l|o]; simpl; try reflexivity.
    simpl in Hmiss. apply obj_get_absent in Hmiss.
    simpl in Hk.
    destruct Hk as [<- | [<- | [<- | [<- | []]]]]; rewrite ?Hmiss; simpl;
      repeat match goal with
             | |- context [if negb ?b then _ else _] => destruct b; simpl
             end; try reflexivity; now rewrite Hmiss.
  - intros o -> Hid Hpn Het Hprice. simpl.
    now rewrite Hid, Hpn, Het, Hprice.
Qed.

Lemma parseQRCodeData_invalid_or_payload_witness :
  parseQRCodeData
    (Engine.json_text
       "{'id':'a-1','parkingName':'Central Lot','entryTime':'2025-01-20T14:30:00.000Z','pricePerHour':0}")
  = Normal (Some (VObj [("id", VStr "a-1"); ("parkingName", VStr "Central Lot");
                        ("entryTime", VStr "2025-01-20T14:30:00.000Z");
                        ("pricePerHour", VNum (Int 0))]))
  /\ parseQRCodeData
       (Engine.json_text
          "{'id':'a-1','parkingName':'Central Lot','entryTime':'2025-01-20T14:30:00.000Z'}")
     = Normal None.
Proof.
  split.
  - apply (proj2 (proj2 (proj2 (parseQRCodeData_invalid_or_payload _))));
      reflexivity.
  - eapply (proj1 (proj2 (proj2 (parseQRCodeData_invalid_or_payload _)))
              _ "pricePerHour").
    + reflexivity.
    + simpl. tauto.
    + reflexivity.
Defined.

(** ** Reading back what [JSON.stringify] wrote *)

Module JSONFacts.
Import JSON.

Lemma append_assoc (a b c : string) : (a +:+ b) +:+ c = a +:+ (b +:+ c).
Proof.
  induction a as [|x a IH]; [reflexivity |].
  change (String x ((a +:+ b) +:+ c) = String x (a +:+ (b +:+ c))).
  now rewrite IH.
Qed.

Lemma append_cons (c : ascii) (a b : string) :
  String c a +:+ b = String c (a +:+ b).
Proof. reflexivity. Qed.

Lemma append_nil_l (b : string) : "" +:+ b = b.
Proof. reflexivity. Qed.

Lemma lex_escape_char (c : ascii) (acc : list ascii) (toks : list token)
  (rest : string) :
  lex (InString acc) toks (escape_char c +:+ rest)
  = lex (InString (c :: acc)) toks rest.
Proof.
  destruct c as [b0 b1 b2 b3 b4 b5 b6 b7].
  destruct b0, b1, b2, b3, b4, b5, b6, b7; reflexivity.
Qed.

Lemma lex_escape (s : string) : forall acc toks rest,
  lex (InString acc) toks (escape s +:+ String dquote rest)
  = lex Default
      (TString (string_of_list_ascii (rev acc ++ list_ascii_of_string s)) :: toks)
      rest.
Proof.
  induction s as [|c s IH]; intros acc toks rest.
  - simpl. now rewrite app_nil_r.
  - simpl escape. rewrite append_assoc, lex_escape_char, IH.
    simpl. now rewrite <- app_assoc.
Qed.

(** A quoted string is read back as one string token. *)
Lemma lex_quote (s : string) (toks : list token) (rest : string) :
  lex Default toks (quote s +:+ rest) = lex Default (TString s :: toks) rest.
Proof.
  unfold quote. rewrite append_cons. simpl lex.
  rewrite append_assoc, append_cons, append_nil_l, lex_escape. simpl. now rewrite string_of_list_ascii_of_string.
Qed.

Lemma dval_app (l1 l2 : list ascii) (acc : N) :
  dval (l1 ++ l2) acc = dval l2 (dval l1 acc).
Proof. apply fold_left_app. Qed.

Lemma read_digits_run (l : list ascii) : forall rest acc cnt,
  forallb is_digit l = true ->
  match rest with c :: _ => is_digit c = false | [] => True end ->
  read_digits (l ++ rest) acc cnt = (dval l acc, (cnt + length l)%nat, rest).
Proof.
  induction l as [|c l IH]; intros rest acc cnt Hl Hrest.
  - simpl. rewrite Nat.add_0_r. destruct rest as [|c rest]; [reflexivity |].
    simpl. now rewrite Hrest.
  - simpl in Hl. apply andb_prop in Hl as [Hc Hl]. simpl. rewrite Hc.
    rewrite IH by assumption. now rewrite Nat.add_succ_r.
Qed.

Lemma digit_char_code (d : N) : (d < 10)%N -> code (digit_char d) = (48 + d)%N.
Proof.
  intros Hd. unfold code, digit_char. apply N_ascii_embedding. lia.
Qed.

Lemma is_digit_digit_char (d : N) : (d < 10)%N -> is_digit (digit_char d) = true.
Proof.
  intros Hd. unfold is_digit. rewrite digit_char_code by assumption.
  apply andb_true_intro. split; apply N.leb_le; lia.
Qed.

Lemma digit_val_digit_char (d : N) : (d < 10)%N -> digit_val (digit_char d) = d.
Proof.
  intros Hd. unfold digit_val. rewrite digit_char_code by assumption. lia.
Qed.

Lemma mod10_lt (n : N) : (n mod 10 < 10)%N.
Proof. apply N.mod_lt. discriminate. Qed.

(** What [digits_aux] puts in front of its accumulator: the digits of [n],
    at least one, without a leading zero unless [n] is a single digit. *)
Lemma digits_aux_spec (fuel : nat) : forall n acc,
  (n < 10 ^ N.of_nat fuel)%N -> (0 < fuel)%nat ->
  exists d,
    list_ascii_of_string (digits_aux fuel n acc) = d ++ list_ascii_of_string acc /\
    forallb is_digit d = true /\
    (forall a, dval d a = (a * 10 ^ N.of_nat (length d) + n)%N) /\
    (0 < length d)%nat /\
    (starts_with_zero d = true -> length d = 1%nat).
Proof.
  induction fuel as [|fuel IH]; intros n acc Hn Hfuel; [lia |].
  simpl digits_aux.
  destruct (N.eqb_spec (n / 10) 0) as [Hq | Hq].
  - exists [digit_char (n mod 10)]. simpl.
    rewrite is_digit_digit_char by apply mod10_lt.
    repeat split; auto.
    intros a. unfold dval. simpl.
    rewrite digit_val_digit_char by apply mod10_lt.
    pose proof (N.div_mod n 10). lia.
  - destruct fuel as [|fuel].
    + exfalso. apply Hq. apply N.div_small. simpl in Hn. lia.
    + destruct (IH (n / 10)%N (String (digit_char (n mod 10)) acc))
        as (d & Hd & Hall & Hval & Hlen & Hzero).
      * apply N.Div0.div_lt_upper_bound.
        replace (N.of_nat (S (S fuel))) with (N.succ (N.of_nat (S fuel))) in Hn
          by lia.
        now rewrite N.pow_succ_r' in Hn.
      * lia.
      * exists (d ++ [digit_char (n mod 10)]).
        rewrite Hd. simpl. rewrite <- app_assoc. simpl.
        rewrite forallb_app, Hall. simpl.
        rewrite is_digit_digit_char by apply mod10_lt.
        rewrite length_app. simpl.
        repeat split; auto.
        -- intros a. rewrite dval_app, Hval. unfold dval at 1. simpl.
           rewrite digit_val_digit_char by apply mod10_lt.
           replace (N.of_nat (length d + 1)) with (N.succ (N.of_nat (length d)))
             by lia.
           rewrite N.pow_succ_r'. pose proof (N.div_mod n 10). lia.
        -- lia.
        -- intros Hz. exfalso.
           destruct d as [|c d]; [simpl in Hlen; lia |].
           simpl in Hz. specialize (Hzero Hz). simpl in Hzero.
           assert (d = []) by (destruct d; [reflexivity | discriminate]).
           subst d. specialize (Hval 0%N). unfold dval in Hval. simpl in Hval.
           unfold digit_val in Hval. apply N.eqb_eq in Hz. rewrite Hz in Hval.
           simpl in Hval. lia.
Qed.

Lemma size_nat_bound (n : N) : (n < 10 ^ N.of_nat (S (N.size_nat n)))%N.
Proof.
  assert (H2 : (n < 2 ^ N.of_nat (N.size_nat n))%N).
  { destruct n as [|p]; [simpl; lia |]. simpl N.size_nat.
    induction p as [p IH | p IH |]; simpl Pos.size_nat.
    - replace (N.of_nat (S (Pos.size_nat p))) with (N.succ (N.of_nat (Pos.size_nat p)))
        by lia.
      rewrite N.pow_succ_r'. lia.
    - replace (N.of_nat (S (Pos.size_nat p))) with (N.succ (N.of_nat (Pos.size_nat p)))
        by lia.
      rewrite N.pow_succ_r'. lia.
    - simpl. lia. }
  eapply N.lt_le_trans; [exact H2 |].
  etransitivity; [apply (N.pow_le_mono_l 2 10); lia |].
  apply N.pow_le_mono_r; lia.
Qed.

Lemma digits_spec (n : N) :
  exists d,
    list_ascii_of_string (digits n) = d /\
    forallb is_digit d = true /\
    (forall a, dval d a = (a * 10 ^ N.of_nat (length d) + n)%N) /\
    (0 < length d)%nat /\
    (starts_with_zero d = true -> length d = 1%nat).
Proof.
  destruct (digits_aux_spec (S (N.size_nat n)) n "" (size_nat_bound n))
    as (d & Hd & H); [lia |].
  exists d. simpl in Hd. rewrite app_nil_r in Hd. now split.
Qed.

(** What [digits_width] puts in front of its accumulator: [w] digits whose
    value is [n] modulo [10^w]. *)
Lemma digits_width_spec (w : nat) : forall n acc,
  exists d,
    list_ascii_of_string (digits_width w n acc) = d ++ list_ascii_of_string acc /\
    forallb is_digit d = true /\
    length d = w /\
    (forall a, dval d a = (a * 10 ^ N.of_nat w + n mod 10 ^ N.of_nat w)%N).
Proof.
  induction w as [|w IH]; intros n acc.
  - exists []. simpl. repeat split; auto. intros a. unfold dval. simpl.
    rewrite N.mod_1_r. lia.
  - simpl digits_width.
    destruct (IH (n / 10)%N (String (digit_char (n mod 10)) acc))
      as (d & Hd & Hall & Hlen & Hval).
    exists (d ++ [digit_char (n mod 10)]).
    rewrite Hd. simpl. rewrite <- app_assoc. simpl.
    rewrite forallb_app, Hall, length_app, Hlen. simpl.
    rewrite is_digit_digit_char by apply mod10_lt.
    repeat split; auto; [lia |].
    intros a. rewrite dval_app, Hval. unfold dval. simpl.
    rewrite digit_val_digit_char by apply mod10_lt.
    replace (N.of_nat (S w)) with (N.succ (N.of_nat w)) by lia.
    rewrite N.pow_succ_r'.
    rewrite (N.Div0.mod_mul_r n 10 (10 ^ N.of_nat w)). lia.
Qed.

Lemma is_digit_not_minus (c : ascii) :
  is_digit c = true -> (code c =? 45)%N = false.
Proof.
  unfold is_digit. intros H. apply andb_prop in H as [H _].
  apply N.leb_le in H. apply N.eqb_neq. lia.
Qed.

Lemma is_digit_numeral (c : ascii) : is_digit c = true -> is_numeral_char c = true.
Proof. unfold is_numeral_char. now intros ->. Qed.

Lemma forallb_digit_numeral (l : list ascii) :
  forallb is_digit l = true -> forallb is_numeral_char l = true.
Proof.
  induction l as [|c l IH]; simpl; [reflexivity |].
  intros H. apply andb_prop in H as [Hc Hl].
  now rewrite (is_digit_numeral c Hc), IH.
Qed.

Lemma numeral_value_numeral (neg : bool) (dq dr : list ascii) :
  forallb is_digit dq = true -> (0 < length dq)%nat ->
  (starts_with_zero dq = true -> length dq = 1%nat) ->
  forallb is_digit dr = true ->
  numeral_value (numeral neg dq dr)
  = Some (scale neg (dval dr (dval dq 0)) (length dr) 0).
Proof.
  intros Hq Hlen Hzero Hr.
  assert (Hsign : read_sign (numeral neg dq dr)
                  = (neg, dq ++ match dr with [] => [] | _ => "."%char :: dr end)).
  { unfold numeral. destruct neg; [reflexivity |].
    destruct dq as [|c dq]; [simpl in Hlen; lia |].
    simpl in Hq. apply andb_prop in Hq as [Hc _].
    simpl. now rewrite (is_digit_not_minus c Hc). }
  unfold numeral_value. rewrite Hsign.
  rewrite read_digits_run; [| assumption | now destruct dr].
  simpl Nat.add.
  destruct (Nat.eqb_spec (length dq) 0) as [H0 | _]; [lia |].
  assert (Hlead : starts_with_zero
                    (dq ++ match dr with [] => [] | _ => "."%char :: dr end)
                  && negb (length dq =? 1)%nat = false).
  { destruct dq as [|c dq]; [simpl in Hlen; lia |].
    simpl. simpl in Hzero. destruct (code c =? 48)%N; [| reflexivity].
    specialize (Hzero eq_refl). injection Hzero as ->. reflexivity. }
  rewrite Hlead.
  destruct dr as [|c dr].
  - reflexivity.
  - unfold read_fraction. simpl (code "." =? 46)%N. cbv iota.
    rewrite <- (app_nil_r (c :: dr)) at 1.
    rewrite read_digits_run; [| assumption | exact I].
    reflexivity.
Qed.

Lemma list_ascii_of_string_app (a b : string) :
  list_ascii_of_string (a +:+ b)
  = list_ascii_of_string a ++ list_ascii_of_string b.
Proof.
  induction a as [|c a IH]; [reflexivity |].
  rewrite append_cons. simpl. now rewrite IH.
Qed.

Lemma normalize_normal_form (m : Z) (e : nat) :
  normal_form (Fin m e) -> normalize m e = Fin m e.
Proof.
  destruct e as [|e]; simpl; [reflexivity |].
  intros H. now destruct (Z.eqb_spec (m mod 10) 0).
Qed.

(** The text printed for a finite number is a numeral that denotes it. *)
Lemma num_to_string_spec (m : Z) (e : nat) :
  normal_form (Fin m e) ->
  exists c l,
    list_ascii_of_string (num_to_string m e) = c :: l /\
    (is_digit c || (code c =? 45)%N = true) /\
    forallb is_numeral_char (c :: l) = true /\
    numeral_value (c :: l) = Some (Fin m e).
Proof.
  intros Hnf.
  set (a := Z.to_N (Z.abs m)).
  set (neg := (m <? 0)%Z).
  assert (Hsm : (if neg then - Z.of_N a else Z.of_N a)%Z = m).
  { unfold neg, a. destruct (Z.ltb_spec m 0); lia. }
  assert (Hshape : exists dq dr,
             list_ascii_of_string (num_to_string m e) = numeral neg dq dr /\
             forallb is_digit dq = true /\ (0 < length dq)%nat /\
             (starts_with_zero dq = true -> length dq = 1%nat) /\
             forallb is_digit dr = true /\ length dr = e /\
             dval dr (dval dq 0) = a).
  { unfold num_to_string. fold a. fold neg. destruct e as [|e].
    - destruct (digits_spec a) as (d & Hd & Hall & Hval & Hlen & Hz).
      exists d, []. rewrite list_ascii_of_string_app, Hd.
      unfold numeral. rewrite app_nil_r.
      repeat split; auto; [now destruct neg |].
      unfold dval at 1. simpl. rewrite Hval. lia.
    - destruct (digits_spec (a / 10 ^ N.of_nat (S e))) as (d & Hd & Hall & Hval & Hlen & Hz).
      destruct (digits_width_spec (S e) (a mod 10 ^ N.of_nat (S e)) "")
        as (r & Hr & Hrall & Hrlen & Hrval).
      change (list_ascii_of_string "") with (@nil ascii) in Hr.
      rewrite app_nil_r in Hr.
      exists d, r.
      rewrite !list_ascii_of_string_app, Hd.
      change (list_ascii_of_string (String "." ?x)) with ("."%char :: list_ascii_of_string x).
      rewrite Hr. unfold numeral.
      repeat split; auto.
      + destruct neg; destruct r; try reflexivity; simpl in Hrlen; lia.
      + rewrite Hrval, Hval. rewrite N.Div0.mod_mod.
        pose proof (N.div_mod a (10 ^ N.of_nat (S e))). lia. }
  destruct Hshape as (dq & dr & Hl & Hq & Hlen & Hz & Hr & Hrlen & Hval).
  assert (Hnum : numeral_value (numeral neg dq dr) = Some (Fin m e)).
  { rewrite numeral_value_numeral by assumption.
    rewrite Hval, Hrlen. unfold scale. rewrite Hsm. f_equal.
    destruct e as [|e].
    - simpl. f_equal. lia.
    - destruct (Z.leb_spec (Z.of_nat (S e)) 0) as [H | _]; [lia |].
      rewrite Z.sub_0_r, Nat2Z.id. now apply normalize_normal_form. }
  assert (Hchars : forallb is_numeral_char (numeral neg dq dr) = true).
  { unfold numeral. rewrite !forallb_app.
    rewrite (forallb_digit_numeral dq Hq).
    destruct neg, dr; simpl; try reflexivity;
      simpl in Hr; apply andb_prop in Hr as [Hc Hr'];
      now rewrite (is_digit_numeral _ Hc), (forallb_digit_numeral _ Hr'). }
  rewrite Hl.
  destruct (numeral neg dq dr) as [|c l] eqn:Hn.
  - exfalso. unfold numeral in Hn. destruct neg; [discriminate |].
    destruct dq; [simpl in Hlen; lia | discriminate].
  - exists c, l. repeat split; auto.
    unfold numeral in Hn. destruct neg.
    + injection Hn as <- _. reflexivity.
    + destruct dq as [|c' dq]; [simpl in Hlen; lia |].
      injection Hn as <- _. simpl in Hq. apply andb_prop in Hq as [-> _].
      reflexivity.
Qed.

Lemma lex_number_run (l : list ascii) : forall acc toks rest,
  forallb is_numeral_char l = true ->
  lex (InNumber acc) toks (string_of_list_ascii l +:+ rest)
  = lex (InNumber (rev l ++ acc)) toks rest.
Proof.
  induction l as [|c l IH]; intros acc toks rest Hl; [reflexivity |].
  simpl in Hl. apply andb_prop in Hl as [Hc Hl].
  simpl string_of_list_ascii. rewrite append_cons. simpl lex. rewrite Hc.
  rewrite IH by assumption. simpl. now rewrite <- app_assoc.
Qed.

Lemma lex_number_start (c : ascii) (toks : list token) (rest : string) :
  is_digit c || (code c =? 45)%N = true ->
  lex Default toks (String c rest) = lex (InNumber [c]) toks rest.
Proof.
  destruct c as [b0 b1 b2 b3 b4 b5 b6 b7].
  destruct b0, b1, b2, b3, b4, b5, b6, b7; simpl; intros H;
    first [discriminate H | reflexivity].
Qed.

Lemma lex_punctuation (c : ascii) (t : token) (toks : list token)
  (rest : string) :
  punctuation c = Some t ->
  lex Default toks (String c rest) = lex Default (t :: toks) rest.
Proof.
  destruct c as [b0 b1 b2 b3 b4 b5 b6 b7].
  destruct b0, b1, b2, b3, b4, b5, b6, b7; simpl; intros H;
    first [discriminate H | now injection H as <-].
Qed.

(** Structural induction on values, through arrays and objects. *)
Lemma value_ind' (P : value -> Prop) :
  P VUndefined -> P VNull -> (forall b, P (VBool b)) -> (forall n, P (VNum n)) ->
  (forall s, P (VStr s)) ->
  (forall l, Forall P l -> P (VArr l)) ->
  (forall o, Forall (fun p => P (snd p)) o -> P (VObj o)) ->
  forall v, P v.
Proof.
  intros Hu Hn Hb Hnum Hs Ha Ho.
  fix IH 1. intros [| |b|n|s|l|o].
  - exact Hu.
  - exact Hn.
  - apply Hb.
  - apply Hnum.
  - apply Hs.
  - apply Ha. induction l as [|x l IHl]; constructor; [apply IH | exact IHl].
  - apply Ho. induction o as [|[k x] o IHo]; constructor; [apply IH | exact IHo].
Qed.

Lemma writable_normal (m : Z) (e : nat) :
  writable (Fin m e) = true -> normal_form (Fin m e).
Proof.
  destruct e as [|e]; simpl; [auto |].
  intros H. apply negb_true_iff in H. now apply Z.eqb_neq in H.
Qed.

Lemma normal_form_writable (m : Z) (e : nat) :
  normal_form (Fin m e) -> writable (Fin m e) = true.
Proof.
  destruct e as [|e]; simpl; [auto |].
  intros H. apply negb_true_iff. now apply Z.eqb_neq.
Qed.

Lemma follows_cases (rest : string) :
  follows rest ->
  rest = "" \/
  exists c t rest', rest = String c rest' /\ is_numeral_char c = false /\
                    punctuation c = Some t.
Proof.
  destruct rest as [|c rest]; [auto |]. simpl. intros H. right.
  destruct c as [b0 b1 b2 b3 b4 b5 b6 b7].
  destruct b0, b1, b2, b3, b4, b5, b6, b7; simpl in H; try discriminate H;
    eexists _, _, _; (split; [reflexivity |]); split; reflexivity.
Qed.

(** A number followed by the end of the text, a comma or a closing bracket
    is read back as that number. *)
Lemma lex_number (m : Z) (e : nat) (toks : list token) (rest : string) :
  normal_form (Fin m e) -> follows rest ->
  lex Default toks (num_to_string m e +:+ rest)
  = lex Default (TNumber (Fin m e) :: toks) rest.
Proof.
  intros Hnf Hrest.
  destruct (num_to_string_spec m e Hnf) as (c & l & Hl & Hstart & Hchars & Hval).
  rewrite <- (string_of_list_ascii_of_string (num_to_string m e)), Hl.
  simpl in Hchars. apply andb_prop in Hchars as [_ Hchars].
  simpl string_of_list_ascii. rewrite append_cons.
  rewrite lex_number_start by assumption.
  rewrite lex_number_run by assumption.
  assert (Hrev : rev (rev l ++ [c]) = c :: l)
    by now rewrite rev_app_distr, rev_involutive.
  destruct (follows_cases rest Hrest) as [-> | (c' & t & rest' & -> & Hc' & Ht)].
  - simpl. now rewrite Hrev, Hval.
  - rewrite (lex_punctuation c' t) by assumption.
    simpl lex. rewrite Hc'. unfold flush. rewrite Hrev, Hval.
    rewrite Ht.
    destruct c' as [b0 b1 b2 b3 b4 b5 b6 b7].
    destruct b0, b1, b2, b3, b4, b5, b6, b7; simpl in Ht; try discriminate Ht;
      reflexivity.
Qed.

Lemma serialize_defined (v : value) :
  v <> VUndefined -> serialize v = Some (text_of v).
Proof.
  unfold text_of. destruct v as [| |[|]|[| | |m e]|s|l|o]; simpl; congruence.
Qed.

Lemma clean_defined (v : value) : clean v = true -> v <> VUndefined.
Proof. now destruct v. Qed.

Lemma follows_closing (c : ascii) (rest : string) :
  (code c =? 44)%N || (code c =? 93)%N || (code c =? 125)%N = true ->
  follows (String c rest).
Proof. auto. Qed.

(** Items separated by commas and closed by a bracket. *)
Lemma lex_join (items : list (string * list token)) (c : ascii) (t : token) :
  Forall (fun p => lexes_as (fst p) (snd p)) items ->
  punctuation c = Some t ->
  (code c =? 93)%N || (code c =? 125)%N = true ->
  forall toks rest,
    lex Default toks (join_comma (List.map fst items) +:+ String c rest)
    = lex Default (t :: rev (separated (List.map snd items)) ++ toks) rest.
Proof.
  intros Hitems Hc Hclose.
  assert (Hfollow : forall rest, follows (String c rest)).
  { intros rest. apply follows_closing.
    destruct (code c =? 44)%N; [reflexivity |].
    apply orb_true_iff in Hclose as [-> | ->]; [reflexivity |].
    now destruct (code c =? 93)%N. }
  induction Hitems as [|[text ts] items Hx Hitems IH]; intros toks rest.
  - change (join_comma (List.map fst [])) with "".
    rewrite append_nil_l. now rewrite (lex_punctuation c t).
  - destruct items as [|[text' ts'] items].
    + change (join_comma (List.map fst [(text, ts)])) with text.
      simpl in Hx. rewrite (Hx toks (String c rest) (Hfollow rest)).
      now rewrite (lex_punctuation c t).
    + change (join_comma (List.map fst ((text, ts) :: (text', ts') :: items)))
        with (text +:+ String "," (join_comma (List.map fst ((text', ts') :: items)))).
      change (separated (List.map snd ((text, ts) :: (text', ts') :: items)))
        with (ts ++ TComma :: separated (List.map snd ((text', ts') :: items))).
      rewrite append_assoc, append_cons.
      rewrite (Hx toks _ (follows_closing "," _ eq_refl)).
      rewrite (lex_punctuation "," TComma) by reflexivity.
      rewrite IH. f_equal.
      rewrite rev_app_distr. simpl. now rewrite <- !app_assoc.
Qed.

Lemma lexes_as_member (k text : string) (ts : list token) :
  lexes_as text ts ->
  lexes_as (quote k +:+ String ":" text) (TString k :: TColon :: ts).
Proof.
  intros H toks rest Hrest.
  rewrite append_assoc, append_cons, lex_quote.
  rewrite (lex_punctuation ":" TColon) by reflexivity.
  rewrite (H _ _ Hrest). f_equal. simpl. now rewrite <- !app_assoc.
Qed.

Lemma serialize_members (o : object) :
  forallb (fun p => clean (snd p)) o = true ->
  omap (fun p => match p with
                 | (k, x) =>
                     match serialize x with
                     | Some s => Some (quote k +:+ String ":" s)
                     | None => None
                     end
                 end) o
  = List.map (fun p => quote (fst p) +:+ String ":" (text_of (snd p))) o.
Proof.
  induction o as [|[k x] o IH]; [reflexivity |].
  simpl. intros H. apply andb_prop in H as [Hx Ho].
  rewrite (serialize_defined x (clean_defined x Hx)).
  simpl. f_equal. now apply IH.
Qed.

Lemma serialize_elements (l : list value) :
  List.map (fun x => default "null" (serialize x)) l = List.map text_of l.
Proof. reflexivity. Qed.

(** The text written for a clean value is read back as its tokens. *)
Lemma lex_text_of (v : value) :
  clean v = true -> lexes_as (text_of v) (tokens_of v).
Proof.
  induction v as [| |b|n|s|l IH|o IH] using value_ind'; intros Hclean.
  - discriminate.
  - intros toks rest _. reflexivity.
  - intros toks rest _. now destruct b.
  - destruct n as [| | |m e]; try discriminate Hclean.
    intros toks rest Hrest. apply lex_number; [| assumption].
    now apply writable_normal.
  - intros toks rest _. apply lex_quote.
  - simpl in Hclean.
    assert (Hitems : Forall (fun p => lexes_as (fst p) (snd p))
                       (List.map (fun x => (text_of x, tokens_of x)) l)).
    { induction IH as [|x l Hx _ IHl]; simpl; constructor.
      - simpl in Hclean. apply andb_prop in Hclean as [Hc _]. now apply Hx.
      - simpl in Hclean. apply andb_prop in Hclean as [_ Hc]. now apply IHl. }
    intros toks rest _.
    change (text_of (VArr l))
      with (String "[" (join_comma (List.map text_of l) +:+ "]")).
    rewrite append_cons, append_assoc, append_cons, append_nil_l.
    rewrite (lex_punctuation "[" TLBracket) by reflexivity.
    pose proof (lex_join _ "]" TRBracket Hitems eq_refl eq_refl
                  (TLBracket :: toks) rest) as Hjoin.
    rewrite !List.map_map in Hjoin. simpl in Hjoin.
    etransitivity; [exact Hjoin |]. f_equal.
    simpl. rewrite rev_app_distr. simpl. now rewrite <- app_assoc.
  - simpl in Hclean. apply andb_prop in Hclean as [_ Hclean].
    assert (Hitems : Forall (fun p => lexes_as (fst p) (snd p))
                       (List.map (fun p => (quote (fst p) +:+ String ":" (text_of (snd p)),
                                            TString (fst p) :: TColon :: tokens_of (snd p)))
                                 o)).
    { induction IH as [|[k x] o Hx _ IHo]; simpl; constructor.
      - simpl in Hclean. apply andb_prop in Hclean as [Hc _].
        simpl. apply lexes_as_member. now apply Hx.
      - simpl in Hclean. apply andb_prop in Hclean as [_ Hc]. now apply IHo. }
    intros toks rest _.
    change (text_of (VObj o))
      with (String "{"
              (join_comma
                 (omap (fun p => match p with
                                 | (k, x) =>
                                     match serialize x with
                                     | Some s => Some (quote k +:+ String ":" s)
                                     | None => None
                                     end
                                 end) o) +:+ "}")).
    rewrite serialize_members by assumption.
    rewrite append_cons, append_assoc, append_cons, append_nil_l.
    rewrite (lex_punctuation "{" TLBrace) by reflexivity.
    pose proof (lex_join _ "}" TRBrace Hitems eq_refl eq_refl
                  (TLBrace :: toks) rest) as Hjoin.
    rewrite !List.map_map in Hjoin. simpl in Hjoin.
    etransitivity; [exact Hjoin |]. f_equal.
    simpl. rewrite rev_app_distr. simpl. now rewrite <- app_assoc.
Qed.

Lemma tokens_of_first (v : value) :
  clean v = true ->
  exists t ts, tokens_of v = t :: ts /\ opens_value t = true.
Proof.
  destruct v as [| |[|]|n|s|l|o]; simpl; try discriminate; intros _;
    eexists _, _; split; reflexivity.
Qed.

Lemma separated_cons2 (x y : list token) (l : list (list token)) :
  separated (x :: y :: l) = x ++ TComma :: separated (y :: l).
Proof. reflexivity. Qed.

Lemma parse_elements_spec (l : list value) :
  Forall parses_back l -> l <> [] ->
  forall fuel acc rest,
    (length (separated (List.map tokens_of l)) < fuel)%nat ->
    parse_elements fuel (separated (List.map tokens_of l) ++ TRBracket :: rest) acc
    = Some (VArr (rev acc ++ l), rest).
Proof.
  induction 1 as [|x l Hx Hl IH]; intros Hne fuel acc rest Hfuel; [congruence |].
  destruct fuel as [|fuel]; [lia |].
  destruct l as [|y l].
  - simpl in Hfuel. simpl.
    rewrite (Hx fuel (TRBracket :: rest)) by lia. reflexivity.
  - change (List.map tokens_of (x :: y :: l))
      with (tokens_of x :: tokens_of y :: List.map tokens_of l) in *.
    rewrite separated_cons2 in *. rewrite length_app in Hfuel.
    simpl length in Hfuel.
    rewrite <- app_assoc. simpl parse_elements.
    rewrite (Hx fuel) by lia.
    change ((TComma :: separated (tokens_of y :: List.map tokens_of l))
              ++ TRBracket :: rest)
      with (TComma :: (separated (List.map tokens_of (y :: l))
                         ++ TRBracket :: rest)).
    cbv iota beta.
    rewrite IH by (try discriminate; simpl in *; lia).
    simpl. now rewrite <- app_assoc.
Qed.

Lemma obj_set_fresh (o : object) (k : string) (v : value) :
  existsb (String.eqb k) (List.map fst o) = false ->
  obj_set o k v = o ++ [(k, v)].
Proof.
  induction o as [|[k' v'] o IH]; simpl; [reflexivity |].
  intros H. apply orb_false_elim in H as [Hk Ho].
  rewrite String.eqb_sym, Hk. now rewrite IH.
Qed.

Lemma existsb_eqb_app (k : string) (l1 l2 : list string) :
  existsb (String.eqb k) (l1 ++ l2)
  = existsb (String.eqb k) l1 || existsb (String.eqb k) l2.
Proof. apply existsb_app. Qed.

Lemma distinct_middle (l1 l2 : list string) (k : string) :
  distinct (l1 ++ k :: l2) = true ->
  existsb (String.eqb k) l1 = false /\ distinct ((l1 ++ [k]) ++ l2) = true.
Proof.
  induction l1 as [|a l1 IH]; simpl.
  - intros H. split; [reflexivity | exact H].
  - intros H. apply andb_prop in H as [Ha H].
    destruct (IH H) as [Hk Hd]. rewrite Hd, andb_true_r.
    rewrite existsb_app in Ha. simpl in Ha.
    apply negb_true_iff in Ha.
    apply orb_false_elim in Ha as [Ha1 Ha2].
    apply orb_false_elim in Ha2 as [Hak Ha2].
    split.
    + rewrite String.eqb_sym, Hak. exact Hk.
    + rewrite !existsb_app. simpl. now rewrite Ha1, Hak, Ha2.
Qed.

Lemma parse_members_spec (o : object) :
  Forall (fun p => parses_back (snd p)) o -> o <> [] ->
  forall fuel acc rest,
    (length (separated (List.map member_tokens o)) < fuel)%nat ->
    distinct (List.map fst (acc ++ o)) = true ->
    parse_members fuel (separated (List.map member_tokens o) ++ TRBrace :: rest) acc
    = Some (VObj (acc ++ o), rest).
Proof.
  induction 1 as [|[k x] o Hx Ho IH]; intros Hne fuel acc rest Hfuel Hdist;
    [congruence |].
  destruct fuel as [|fuel]; [lia |].
  rewrite List.map_app in Hdist. simpl List.map in Hdist.
  destruct (distinct_middle _ _ _ Hdist) as [Hfresh Hdist'].
  simpl in Hx.
  destruct o as [|[k' y] o].
  - simpl in Hfuel. simpl.
    rewrite (Hx fuel (TRBrace :: rest)) by lia.
    now rewrite obj_set_fresh.
  - change (List.map member_tokens ((k, x) :: (k', y) :: o))
      with (member_tokens (k, x) :: member_tokens (k', y) :: List.map member_tokens o)
      in *.
    rewrite separated_cons2 in *. rewrite length_app in Hfuel.
    unfold member_tokens at 1 in Hfuel. simpl length in Hfuel.
    unfold member_tokens at 1. simpl fst. simpl snd.
    rewrite <- app_assoc. simpl app at 1.
    change (parse_members (S fuel)
              (TString k :: TColon :: tokens_of x ++ ?r) acc)
      with (match parse_value fuel (tokens_of x ++ r) with
            | Some (v, TComma :: r') => parse_members fuel r' (obj_set acc k v)
            | Some (v, TRBrace :: r') => Some (VObj (obj_set acc k v), r')
            | _ => None
            end).
    rewrite (Hx fuel) by lia.
    change ((TComma :: separated (member_tokens (k', y) :: List.map member_tokens o))
              ++ TRBrace :: rest)
      with (TComma :: (separated (List.map member_tokens ((k', y) :: o))
                         ++ TRBrace :: rest)).
    cbv iota beta.
    rewrite obj_set_fresh by assumption.
    rewrite IH.
    + now rewrite <- app_assoc.
    + discriminate.
    + simpl in *. lia.
    + rewrite <- app_assoc. simpl. rewrite List.map_app in *. simpl in *.
      now rewrite <- app_assoc in Hdist'.
Qed.

(** The tokens of a clean value are parsed back as that value. *)
Lemma parse_tokens_of (v : value) : clean v = true -> parses_back v.
Proof.
  induction v as [| |b|n|s|l IH|o IH] using value_ind'; intros Hclean;
    try discriminate.
  - intros [|fuel] rest Hfuel; [simpl in Hfuel; lia | reflexivity].
  - destruct b; (intros [|fuel] rest Hfuel; [simpl in Hfuel; lia | reflexivity]).
  - intros [|fuel] rest Hfuel; [simpl in Hfuel; lia | reflexivity].
  - intros [|fuel] rest Hfuel; [simpl in Hfuel; lia | reflexivity].
  - simpl in Hclean.
    assert (Hback : Forall parses_back l).
    { induction IH as [|x l Hx _ IHl]; [constructor |].
      simpl in Hclean. apply andb_prop in Hclean as [Hc1 Hc2].
      constructor; [apply Hx; exact Hc1 | apply IHl; exact Hc2]. }
    intros fuel rest Hfuel.
    destruct l as [|x l].
    + destruct fuel as [|fuel]; [simpl in Hfuel; lia | reflexivity].
    + change (tokens_of (VArr (x :: l)))
        with (TLBracket :: separated (List.map tokens_of (x :: l))
                ++ [TRBracket]) in *.
      rewrite length_cons, length_app in Hfuel. cbn [length] in Hfuel.
      destruct fuel as [|fuel]; [lia |].
      simpl in Hclean. apply andb_prop in Hclean as [Hx _].
      destruct (tokens_of_first x Hx) as (t & ts & Ht & Hopen).
      assert (Hsep : exists ts', separated (List.map tokens_of (x :: l)) = t :: ts').
      { simpl List.map. destruct (List.map tokens_of l) as [|y l'].
        - simpl. rewrite Ht. eauto.
        - rewrite separated_cons2, Ht. simpl. eauto. }
      destruct Hsep as [ts' Hsep].
      rewrite <- app_comm_cons, <- app_assoc.
      pose proof (parse_elements_spec (x :: l) Hback ltac:(discriminate)
                    fuel [] rest ltac:(lia)) as Hel.
      simpl app at 2.
      rewrite Hsep in *.
      simpl parse_value. simpl app in Hel.
      destruct t; try discriminate Hopen; exact Hel.
  - simpl in Hclean. apply andb_prop in Hclean as [Hdist Hclean].
    assert (Hback : Forall (fun p => parses_back (snd p)) o).
    { clear Hdist. induction IH as [|[k x] o Hx _ IHo]; [constructor |].
      simpl in Hclean. apply andb_prop in Hclean as [Hc1 Hc2].
      constructor; [apply Hx; exact Hc1 | apply IHo; exact Hc2]. }
    intros fuel rest Hfuel.
    destruct o as [|[k x] o].
    + destruct fuel as [|fuel]; [simpl in Hfuel; lia | reflexivity].
    + change (tokens_of (VObj ((k, x) :: o)))
        with (TLBrace :: separated (List.map member_tokens ((k, x) :: o))
                ++ [TRBrace]) in *.
      rewrite length_cons, length_app in Hfuel. cbn [length] in Hfuel.
      destruct fuel as [|fuel]; [lia |].
      assert (Hsep : exists ts',
                 separated (List.map member_tokens ((k, x) :: o))
                 = TString k :: ts').
      { simpl List.map. destruct (List.map member_tokens o) as [|y l'].
        - simpl. eauto.
        - rewrite separated_cons2. simpl. eauto. }
      destruct Hsep as [ts' Hsep].
      rewrite <- app_comm_cons, <- app_assoc.
      pose proof (parse_members_spec ((k, x) :: o) Hback ltac:(discriminate)
                    fuel [] rest ltac:(lia) Hdist) as Hmem.
      simpl app at 2.
      rewrite Hsep in *.
      simpl parse_value. simpl app in Hmem. exact Hmem.
Qed.

Lemma append_nil_r (s : string) : s +:+ "" = s.
Proof.
  induction s as [|c s IH]; [reflexivity |]. rewrite append_cons. now rewrite IH.
Qed.

(** [JSON.parse] reads back every clean value that [JSON.stringify] wrote. *)
Theorem parse_stringify (v : value) :
  clean v = true -> parse (stringify v) = Normal v.
Proof.
  intros Hclean. unfold parse, stringify. fold (text_of v).
  rewrite <- (append_nil_r (text_of v)).
  rewrite (lex_text_of v Hclean [] "" I). simpl lex.
  rewrite app_nil_r, length_rev, rev_involutive.
  rewrite <- (app_nil_r (tokens_of v)) at 2.
  rewrite (parse_tokens_of v Hclean) by lia. reflexivity.
Qed.

Lemma writable_normalize (e : nat) : forall m, writable (normalize m e) = true.
Proof.
  induction e as [|e IH]; intros m; simpl; [reflexivity |].
  destruct (m mod 10 =? 0)%Z eqn:E; [apply IH |]. simpl. now rewrite E.
Qed.

Lemma writable_scale (neg : bool) (m : N) (nf : nat) (x : Z) :
  writable (scale neg m nf x) = true.
Proof.
  unfold scale. destruct (Z.of_nat nf <=? x)%Z; [reflexivity |].
  apply writable_normalize.
Qed.

Lemma numeral_value_writable (l : list ascii) (n : number) :
  numeral_value l = Some n -> writable n = true.
Proof.
  unfold numeral_value.
  destruct (read_sign l) as [neg l1].
  destruct (read_digits l1 0 0) as [[ip ni] l2].
  destruct (ni =? 0)%nat; [discriminate |].
  destruct (starts_with_zero l1 && negb (ni =? 1)%nat); [discriminate |].
  destruct (read_fraction ip l2) as [[[m nf] l4]|]; [| discriminate].
  destruct (read_exponent l4) as [x|]; [| discriminate].
  intros [= <-]. apply writable_scale.
Qed.

Lemma flush_ok (m : mode) (toks toks' : list token) :
  forallb token_ok toks = true -> flush m toks = Some toks' ->
  forallb token_ok toks' = true.
Proof.
  intros Hok. destruct m as [|acc|acc]; simpl.
  - now intros [= <-].
  - discriminate.
  - destruct (numeral_value (rev acc)) as [n|] eqn:Hn; [| discriminate].
    intros [= <-]. simpl. now rewrite (numeral_value_writable _ _ Hn).
Qed.

Ltac split_char c :=
  let b0 := fresh "b" in let b1 := fresh "b" in let b2 := fresh "b" in
  let b3 := fresh "b" in let b4 := fresh "b" in let b5 := fresh "b" in
  let b6 := fresh "b" in let b7 := fresh "b" in
  destruct c as [b0 b1 b2 b3 b4 b5 b6 b7];
  destruct b0, b1, b2, b3, b4, b5, b6, b7.

(** The numbers among the tokens of a text are finite and in normal form. *)
Lemma lex_ok (n : nat) : forall s m toks toks',
  (String.length s <= n)%nat ->
  forallb token_ok toks = true ->
  lex m toks s = Some toks' ->
  forallb token_ok toks' = true.
Proof.
  induction n as [|n IH]; intros s m toks toks' Hlen Hok H.
  - destruct s; [| simpl in Hlen; lia]. simpl in H. eapply flush_ok; eauto.
  - destruct s as [|c rest]; [simpl in H; eapply flush_ok; eauto |].
    simpl in Hlen. apply le_S_n in Hlen.
    assert (IH' : forall m toks toks',
               forallb token_ok toks = true ->
               lex m toks rest = Some toks' -> forallb token_ok toks' = true)
      by (intros; eapply (IH rest); eauto).
    assert (IH2 : forall c1 r m toks toks',
               rest = String c1 r ->
               forallb token_ok toks = true ->
               lex m toks r = Some toks' -> forallb token_ok toks' = true).
    { intros c1 r m0 t0 t0' -> Hok0 H0. simpl in Hlen.
      eapply (IH r); eauto. lia. }
    assert (IH5 : forall c1 c2 c3 c4 c5 r m toks toks',
               rest = String c1 (String c2 (String c3 (String c4 (String c5 r)))) ->
               forallb token_ok toks = true ->
               lex m toks r = Some toks' -> forallb token_ok toks' = true).
    { intros c1 c2 c3 c4 c5 r m0 t0 t0' -> Hok0 H0. simpl in Hlen.
      eapply (IH r); eauto. lia. }
    assert (IH3 : forall c1 c2 c3 r m toks toks',
               rest = String c1 (String c2 (String c3 r)) ->
               forallb token_ok toks = true ->
               lex m toks r = Some toks' -> forallb token_ok toks' = true).
    { intros c1 c2 c3 r m0 t0 t0' -> Hok0 H0. simpl in Hlen.
      eapply (IH r); eauto. lia. }
    assert (IH4 : forall c1 c2 c3 c4 r m toks toks',
               rest = String c1 (String c2 (String c3 (String c4 r))) ->
               forallb token_ok toks = true ->
               lex m toks r = Some toks' -> forallb token_ok toks' = true).
    { intros c1 c2 c3 c4 r m0 t0 t0' -> Hok0 H0. simpl in Hlen.
      eapply (IH r); eauto. lia. }
    clear IH.
    destruct m as [|acc|acc].
    + (* Default *)
      cbn [lex] in H.
      destruct (is_whitespace c); [eapply IH'; [exact Hok | exact H] |].
      destruct (punctuation c) as [t|] eqn:Ht.
      { eapply IH'; [| exact H].
        simpl. rewrite Hok. unfold punctuation in Ht.
        repeat match type of Ht with
               | (if ?b then _ else _) = _ => destruct b
               end; try discriminate Ht; now injection Ht as <-. }
      destruct (code c =? 34)%N; [eapply IH'; [exact Hok | exact H] |].
      destruct (is_digit c || (code c =? 45)%N); [eapply IH'; [exact Hok | exact H] |].
      split_char c; try discriminate H;
        (destruct rest as [|c1 [|c2 [|c3 r]]]; try discriminate H;
         split_char c1; try discriminate H;
         split_char c2; try discriminate H;
         split_char c3; try discriminate H;
         first
           [ eapply IH3; [reflexivity | | exact H]; exact Hok
           | destruct r as [|c4 r]; try discriminate H;
             split_char c4; try discriminate H;
             eapply IH4; [reflexivity | | exact H]; exact Hok ]).
    + (* InString *)
      cbn [lex] in H.
      destruct (code c =? 34)%N.
      { eapply IH'; [| exact H]. simpl. exact Hok. }
      destruct (code c =? 92)%N.
      { destruct rest as [|e rest']; [discriminate H |].
        destruct (simple_escape e).
        - eapply IH2; [reflexivity | exact Hok | exact H].
        - destruct (code e =? 117)%N; [| discriminate H].
          destruct rest' as [|h1 [|h2 [|h3 [|h4 r]]]]; try discriminate H.
          destruct (hex4 h1 h2 h3 h4); [| discriminate H].
          eapply IH5; [reflexivity | exact Hok | exact H]. }
      destruct (code c <? 32)%N; [discriminate H |].
      eapply IH'; [exact Hok | exact H].
    + (* InNumber *)
      cbn [lex] in H.
      destruct (is_numeral_char c); [eapply IH'; [exact Hok | exact H] |].
      destruct (flush (InNumber acc) toks) as [toks1|] eqn:Hflush;
        [| discriminate H].
      pose proof (flush_ok _ _ _ Hok Hflush) as Hok1.
      destruct (is_whitespace c); [eapply IH'; [exact Hok1 | exact H] |].
      destruct (punctuation c) as [t|] eqn:Ht; [| discriminate H].
      eapply IH'; [| exact H].
      simpl. rewrite Hok1. unfold punctuation in Ht.
      repeat match type of Ht with
             | (if ?b then _ else _) = _ => destruct b
             end; try discriminate Ht; now injection Ht as <-.
Qed.

Lemma forallb_rev {A} (f : A -> bool) (l : list A) :
  forallb f (rev l) = forallb f l.
Proof.
  induction l as [|x l IH]; [reflexivity |].
  simpl. rewrite forallb_app, IH. simpl. rewrite andb_true_r. apply andb_comm.
Qed.

Lemma distinct_snoc (l : list string) (k : string) :
  distinct l = true -> existsb (String.eqb k) l = false ->
  distinct (l ++ [k]) = true.
Proof.
  induction l as [|a l IH]; simpl; [reflexivity |].
  intros H Hk. apply andb_prop in H as [Ha Hl].
  apply orb_false_elim in Hk as [Hka Hk].
  rewrite IH, andb_true_r by assumption.
  rewrite existsb_app. simpl. apply negb_true_iff in Ha.
  now rewrite Ha, String.eqb_sym, Hka.
Qed.

Lemma keys_obj_set (o : object) (k : string) (v : value) :
  List.map fst (obj_set o k v)
  = if existsb (String.eqb k) (List.map fst o) then List.map fst o
    else List.map fst o ++ [k].
Proof.
  induction o as [|[k' v'] o IH]; simpl; [reflexivity |].
  rewrite (String.eqb_sym k k').
  destruct (String.eqb k' k); simpl; [reflexivity |].
  rewrite IH. now destruct (existsb (String.eqb k) (List.map fst o)).
Qed.

Lemma values_obj_set (o : object) (k : string) (v : value) :
  forallb (fun p => clean (snd p)) o = true -> clean v = true ->
  forallb (fun p => clean (snd p)) (obj_set o k v) = true.
Proof.
  intros Ho Hv. induction o as [|[k' v'] o IH]; simpl.
  - now rewrite Hv.
  - simpl in Ho. apply andb_prop in Ho as [Hv' Ho].
    destruct (String.eqb k' k); simpl.
    + now rewrite Hv, Ho.
    + now rewrite Hv', IH.
Qed.

(** Setting a property to a clean value keeps an object clean. *)
Lemma clean_obj_set (o : object) (k : string) (v : value) :
  clean (VObj o) = true -> clean v = true ->
  clean (VObj (obj_set o k v)) = true.
Proof.
  simpl. intros H Hv. apply andb_prop in H as [Hd Ho].
  rewrite values_obj_set, andb_true_r by assumption.
  rewrite keys_obj_set.
  destruct (existsb (String.eqb k) (List.map fst o)) eqn:E; [exact Hd |].
  now apply distinct_snoc.
Qed.

Lemma parse_ok (fuel : nat) :
  (forall ts v r,
      forallb token_ok ts = true -> parse_value fuel ts = Some (v, r) ->
      clean v = true /\ forallb token_ok r = true) /\
  (forall ts acc v r,
      forallb token_ok ts = true -> forallb clean acc = true ->
      parse_elements fuel ts acc = Some (v, r) ->
      clean v = true /\ forallb token_ok r = true) /\
  (forall ts acc v r,
      forallb token_ok ts = true -> clean (VObj acc) = true ->
      parse_members fuel ts acc = Some (v, r) ->
      clean v = true /\ forallb token_ok r = true).
Proof.
  induction fuel as [|fuel (IHv & IHe & IHm)];
    [repeat split; intros; discriminate |].
  split; [| split].
  - intros ts v r Hts H. simpl in H.
    destruct ts as [|t ts]; [discriminate H |].
    simpl in Hts. apply andb_prop in Hts as [Ht Hts].
    destruct t; try discriminate H;
      try (injection H as <- <-; split; [reflexivity | exact Hts]).
    + (* object *)
      destruct ts as [|t' ts'].
      * eapply IHm; [| | exact H]; reflexivity.
      * destruct t'; try (eapply IHm; [| | exact H]; [exact Hts | reflexivity]).
        injection H as <- <-. simpl in Hts. split; [reflexivity | exact Hts].
    + (* array *)
      destruct ts as [|t' ts'].
      * eapply IHe; [| | exact H]; reflexivity.
      * destruct t'; try (eapply IHe; [| | exact H]; [exact Hts | reflexivity]).
        injection H as <- <-. simpl in Hts. split; [reflexivity | exact Hts].
    + (* number *)
      injection H as <- <-. split; [exact Ht | exact Hts].
  - intros ts acc v r Hts Hacc H. simpl in H.
    destruct (parse_value fuel ts) as [[x [|t r']]|] eqn:Hx; try discriminate H.
    destruct (IHv _ _ _ Hts Hx) as [Hcx Hr'].
    simpl in Hr'. apply andb_prop in Hr' as [_ Hr'].
    destruct t; try discriminate H.
    + injection H as <- <-. split; [| exact Hr'].
      change (forallb clean (rev (x :: acc)) = true).
      rewrite forallb_rev. simpl. now rewrite Hcx, Hacc.
    + eapply IHe; [exact Hr' | | exact H]. simpl. now rewrite Hcx, Hacc.
  - intros ts acc v r Hts Hacc H. simpl in H.
    destruct ts as [|t1 ts]; [discriminate H |].
    destruct t1 as [| | | | | |k| | | |]; try discriminate H.
    destruct ts as [|t2 ts]; [discriminate H |].
    destruct t2; try discriminate H.
    simpl in Hts.
    destruct (parse_value fuel ts) as [[x [|t r']]|] eqn:Hx; try discriminate H.
    destruct (IHv _ _ _ Hts Hx) as [Hcx Hr'].
    simpl in Hr'. apply andb_prop in Hr' as [_ Hr'].
    pose proof (clean_obj_set acc k x Hacc Hcx) as Hacc'.
    destruct t; try discriminate H.
    + injection H as <- <-. split; [exact Hacc' | exact Hr'].
    + eapply IHm; [exact Hr' | exact Hacc' | exact H].
Qed.

(** What [JSON.parse] returns is clean. *)
Theorem parse_clean (text : string) (v : value) :
  parse text = Normal v -> clean v = true.
Proof.
  unfold parse. intros H.
  destruct (lex Default [] text) as [toks|] eqn:Hlex; [| discriminate H].
  assert (Hok : forallb token_ok toks = true).
  { eapply (lex_ok (String.length text) text Default []);
      [apply Nat.le_refl | reflexivity | exact Hlex]. }
  destruct (parse_value _ _) as [[v' [|t r]]|] eqn:Hparse; try discriminate H.
  injection H as ->.
  destruct (parse_ok (S (length toks))) as [Hv _].
  apply (Hv (rev toks) v []); [| exact Hparse].
  now rewrite forallb_rev.
Qed.

End JSONFacts.

Section QRRoundTrip.

Variable now_at : nat -> string.

(** C4, amended.  For a ticket whose [id], [parkingName] and [entryTime] are
    non-empty strings and whose [pricePerHour] is a finite number, decoding
    the encoded payload succeeds and yields these four fields unchanged. *)
Theorem qr_payload_round_trip (ticket : object) (id parking entry : string)
  (price : number) (w : world) :
  obj_get ticket "id" = VStr id -> id <> "" ->
  obj_get ticket "parkingName" = VStr parking -> parking <> "" ->
  obj_get ticket "entryTime" = VStr entry -> entry <> "" ->
  obj_get ticket "pricePerHour" = VNum price ->
  is_finite price = true -> normal_form price ->
  exists text payload,
    fst (createQRCodeData now_at (VObj ticket) w) = Normal text /\
    parseQRCodeData text = Normal (Some payload) /\
    get_field payload "id" = Normal (VStr id) /\
    get_field payload "parkingName" = Normal (VStr parking) /\
    get_field payload "entryTime" = Normal (VStr entry) /\
    get_field payload "pricePerHour" = Normal (VNum price).
Proof.
  intros Hid Hid' Hpn Hpn' Het Het' Hprice Hfin Hnf.
  destruct price as [| | |m e]; try discriminate Hfin.
  set (payload :=
         VObj [("id", VStr id); ("parkingName", VStr parking);
               ("entryTime", VStr entry); ("pricePerHour", VNum (Fin m e));
               ("timestamp", VStr (now_at (clock_reads w)))]).
  exists (JSON_stringify payload), payload.
  split.
  { unfold createQRCodeData, lift, mbind, io_bind, mret, io_ret. simpl.
    now rewrite Hid, Hpn, Het, Hprice. }
  split; [| repeat split].
  assert (Hclean : JSON.clean payload = true).
  { unfold payload.
    change (JSON.writable (Fin m e) && true = true).
    now rewrite (JSONFacts.normal_form_writable _ _ Hnf). }
  unfold parseQRCodeData, JSON_parse, JSON_stringify.
  rewrite (JSONFacts.parse_stringify _ Hclean). unfold payload.
  apply String.eqb_neq in Hid', Hpn', Het'.
  simpl. now rewrite Hid', Hpn', Het'.
Qed.

End QRRoundTrip.

Lemma qr_payload_round_trip_witness :
  exists text payload,
    fst (createQRCodeData Engine.now_at
           (VObj [("id", VStr "a-1"); ("parkingName", VStr "Central Lot");
                  ("entryTime", VStr "2025-01-20T14:30:00.000Z");
                  ("pricePerHour", VNum (Int 50))])
           Engine.empty_world) = Normal text /\
    parseQRCodeData text = Normal (Some payload) /\
    get_field payload "id" = Normal (VStr "a-1") /\
    get_field payload "parkingName" = Normal (VStr "Central Lot") /\
    get_field payload "entryTime" = Normal (VStr "2025-01-20T14:30:00.000Z") /\
    get_field payload "pricePerHour" = Normal (VNum (Int 50)).
Proof.
  apply qr_payload_round_trip; first [reflexivity | discriminate | exact I].
Defined.

(** C4 as stated fails for a rate that is a number but not a finite one:
    [JSON.stringify] writes [null] for it, and the decoded payload carries
    [null] in place of the rate. *)
Lemma qr_payload_round_trip_fails_for_NaN :
  exists text payload,
    obj_get ticket_with_NaN_rate "pricePerHour" = VNum NaN /\
    fst (createQRCodeData Engine.now_at (VObj ticket_with_NaN_rate)
           Engine.empty_world) = Normal text /\
    parseQRCodeData text = Normal (Some payload) /\
    get_field payload "pricePerHour" = Normal VNull /\
    get_field payload "pricePerHour"
    <> Normal (obj_get ticket_with_NaN_rate "pricePerHour").
Proof.
  eexists _, _. split; [reflexivity |]. split; [reflexivity |].
  split; [vm_compute; reflexivity |]. split; [reflexivity | discriminate].
Qed.

Section StorageFacts.

(** What a collection read returns is clean. *)
Lemma stored_clean (d : gmap string string) (key : string) :
  JSON.clean (stored d key) = true.
Proof.
  unfold stored. destruct (d !! key) as [s|]; [| reflexivity].
  destruct (String.eqb s ""); [reflexivity |].
  destruct (JSON_parse s) as [v|e] eqn:Hparse; [| reflexivity].
  exact (JSONFacts.parse_clean s v Hparse).
Qed.

Lemma tickets_clean (d : gmap string string) (key : string) (l : list value) :
  stored d key = VArr l -> forallb JSON.clean l = true.
Proof. intros H. pose proof (stored_clean d key) as Hc. now rewrite H in Hc. Qed.

(** A collection that was written is read back as it was. *)
Lemma stored_written (d : gmap string string) (key : string) (l : list value) :
  forallb JSON.clean l = true ->
  stored (<[key := JSON_stringify (VArr l)]> d) key = VArr l.
Proof.
  intros Hl. unfold stored. rewrite lookup_insert_eq.
  change (String.eqb (JSON_stringify (VArr l)) "") with false. cbv iota.
  unfold JSON_parse, JSON_stringify. now rewrite JSONFacts.parse_stringify.
Qed.

Lemma clean_splice1 (l : list value) : forall i,
  forallb JSON.clean l = true -> forallb JSON.clean (splice1 l i) = true.
Proof.
  unfold splice1. induction l as [|x l IH]; intros i Hl.
  - now destruct i.
  - simpl in Hl. apply andb_prop in Hl as [Hx Hl].
    destruct i as [|i]; simpl.
    + now rewrite drop_0.
    + rewrite Hx. now apply IH.
Qed.

Lemma clean_without_id (ticketId : string) (l : list value) :
  forallb JSON.clean l = true ->
  forallb JSON.clean (without_id ticketId l) = true.
Proof.
  unfold without_id. induction l as [|t l IH]; simpl; [reflexivity |].
  intros H. apply andb_prop in H as [Ht Hl].
  destruct (negb (has_id ticketId t)); simpl; [rewrite Ht |]; now apply IH.
Qed.

Lemma clean_closed_record (o : object) (exitTime : string) (totalAmount : number) :
  JSON.clean (VObj o) = true -> JSON.writable totalAmount = true ->
  JSON.clean (VObj (closed_record o exitTime totalAmount)) = true.
Proof.
  intros Ho Hamount. unfold closed_record.
  repeat apply JSONFacts.clean_obj_set; auto.
Qed.

Lemma clean_opened_record (name entry : string) (price : number)
  (id createdAt timestamp : string) :
  JSON.writable price = true ->
  JSON.clean (opened_record name entry price id createdAt timestamp) = true.
Proof.
  intros Hprice. unfold opened_record.
  change (JSON.writable price && true = true). now rewrite Hprice.
Qed.

Lemma rejects_healthy (w : world) : faults w = [] -> rejects w = false.
Proof. unfold rejects. now intros ->. Qed.

Lemma getActiveTickets_run (w : world) :
  getActiveTickets w
  = (Normal (if rejects w then VArr [] else stored (disk w) ACTIVE_TICKETS_KEY),
     after_call w).
Proof.
  unfold getActiveTickets, try_catch_io, mbind, io_bind, AsyncStorage_getItem,
    stored.
  destruct (rejects w); [reflexivity |]. simpl.
  destruct (disk w !! ACTIVE_TICKETS_KEY) as [s|]; [| reflexivity].
  destruct (String.eqb s ""); [reflexivity |].
  unfold lift. now destruct (JSON_parse s).
Qed.

Lemma getHistoryTickets_run (w : world) :
  getHistoryTickets w
  = (Normal (if rejects w then VArr [] else stored (disk w) HISTORY_TICKETS_KEY),
     after_call w).
Proof.
  unfold getHistoryTickets, try_catch_io, mbind, io_bind, AsyncStorage_getItem,
    stored.
  destruct (rejects w); [reflexivity |]. simpl.
  destruct (disk w !! HISTORY_TICKETS_KEY) as [s|]; [| reflexivity].
  destruct (String.eqb s ""); [reflexivity |].
  unfold lift. now destruct (JSON_parse s).
Qed.

Lemma saveActiveTickets_run (tickets : list value) (w : world) :
  saveActiveTickets tickets w
  = if rejects w then (Normal false, after_call w)
    else (Normal true,
          after_write ACTIVE_TICKETS_KEY (JSON_stringify (VArr tickets))
            (after_call w)).
Proof.
  unfold saveActiveTickets, try_catch_io, mbind, io_bind, AsyncStorage_setItem.
  now destruct (rejects w).
Qed.

Lemma saveHistoryTickets_run (tickets : list value) (w : world) :
  saveHistoryTickets tickets w
  = if rejects w then (Normal false, after_call w)
    else (Normal true,
          after_write HISTORY_TICKETS_KEY (JSON_stringify (VArr tickets))
            (after_call w)).
Proof.
  unfold saveHistoryTickets, try_catch_io, mbind, io_bind, AsyncStorage_setItem.
  now destruct (rejects w).
Qed.

Lemma id_is_has_id (ticketId : string) (t : value) :
  id_is ticketId t = Normal (has_id ticketId t) \/ id_is ticketId t = Throw TypeError.
Proof. destruct t; simpl; auto. Qed.

Lemma id_is_true (ticketId : string) (t : value) :
  id_is ticketId t = Normal true ->
  exists o, t = VObj o /\ strict_eq_str (obj_get o "id") ticketId = true.
Proof.
  destruct t; simpl; try discriminate. intros [= H]. eauto.
Qed.

(** A search that finds no ticket with the identifier answers [-1] or
    throws. *)
Lemma findIndex_absent (ticketId : string) (l : list value) : forall i,
  existsb (has_id ticketId) l = false ->
  findIndex_from (id_is ticketId) l i = Normal None \/
  findIndex_from (id_is ticketId) l i = Throw TypeError.
Proof.
  induction l as [|t l IH]; intros i H; simpl; [auto |].
  simpl in H. apply orb_false_elim in H as [Ht Hl].
  destruct (id_is_has_id ticketId t) as [-> | ->]; simpl; [| auto].
  rewrite Ht. auto.
Qed.

(** A successful search stops at the first ticket with the identifier. *)
Lemma findIndex_found (ticketId : string) (l : list value) : forall i j,
  findIndex_from (id_is ticketId) l i = Normal (Some j) ->
  exists k o,
    j = (i + k)%nat /\ l !! k = Some (VObj o) /\
    strict_eq_str (obj_get o "id") ticketId = true /\
    existsb (has_id ticketId) (take k l) = false.
Proof.
  induction l as [|t l IH]; intros i j H; simpl in H; [discriminate |].
  destruct (id_is ticketId t) as [[|]|e] eqn:Ht; simpl in H; try discriminate.
  - injection H as <-. apply id_is_true in Ht as (o & -> & Ho).
    exists 0%nat, o. rewrite Nat.add_0_r. auto.
  - destruct (IH _ _ H) as (k & o & -> & Hk & Ho & Hbefore).
    exists (S k), o. split; [lia |]. split; [exact Hk |]. split; [exact Ho |].
    simpl. rewrite Hbefore.
    destruct (id_is_has_id ticketId t) as [Ht' | Ht']; rewrite Ht' in Ht;
      [| discriminate].
    injection Ht as ->. reflexivity.
Qed.

End StorageFacts.

Section CloseTicket.

Lemma obj_get_set_same (o : object) (k : string) (v : value) :
  obj_get (obj_set o k v) k = v.
Proof.
  induction o as [|[k' v'] o IH]; simpl.
  - now rewrite String.eqb_refl.
  - destruct (String.eqb k' k) eqn:E; simpl; rewrite E; auto.
Qed.

Lemma obj_get_set_other (o : object) (k k' : string) (v : value) :
  k <> k' -> obj_get (obj_set o k v) k' = obj_get o k'.
Proof.
  intros Hne. induction o as [|[k0 v0] o IH]; simpl.
  - apply String.eqb_neq in Hne. now rewrite Hne.
  - destruct (String.eqb_spec k0 k) as [-> | Hk]; simpl.
    + apply String.eqb_neq in Hne. now rewrite Hne.
    + now rewrite IH.
Qed.

(** The closed record differs from the active one in [exitTime],
    [totalAmount] and [status] only. *)
Lemma closed_record_fields (o : object) (exitTime : string) (totalAmount : number) :
  obj_get (closed_record o exitTime totalAmount) "exitTime" = VStr exitTime /\
  obj_get (closed_record o exitTime totalAmount) "totalAmount" = VNum totalAmount /\
  obj_get (closed_record o exitTime totalAmount) "status" = VStr "closed" /\
  (forall key, key <> "exitTime" -> key <> "totalAmount" -> key <> "status" ->
               obj_get (closed_record o exitTime totalAmount) key = obj_get o key).
Proof.
  unfold closed_record. repeat split.
  - rewrite !obj_get_set_other by discriminate. apply obj_get_set_same.
  - rewrite obj_get_set_other by discriminate. apply obj_get_set_same.
  - apply obj_get_set_same.
  - intros key H1 H2 H3. now rewrite !obj_get_set_other by congruence.
Qed.

Lemma keys_differ : ACTIVE_TICKETS_KEY <> HISTORY_TICKETS_KEY.
Proof. discriminate. Qed.

Lemma stored_after_active_write (d : gmap string string) (s : string) :
  stored (<[ACTIVE_TICKETS_KEY := s]> d) HISTORY_TICKETS_KEY
  = stored d HISTORY_TICKETS_KEY.
Proof. unfold stored. now rewrite lookup_insert_ne by apply keys_differ. Qed.

(** The run of [closeTicket], whatever the storage does. *)
Lemma closeTicket_run (ticketId exitTime : string) (totalAmount : number)
  (w : world) :
  closeTicket ticketId exitTime totalAmount w =
  let activeTickets :=
    if rejects w then VArr [] else stored (disk w) ACTIVE_TICKETS_KEY in
  match Array_findIndex (id_is ticketId) activeTickets with
  | Normal (Some i) =>
      let l := tickets_of activeTickets in
      let closedTicket :=
        closed_record (own_props (element l i)) exitTime totalAmount in
      let w2 := snd (saveActiveTickets (splice1 l i) (after_call w)) in
      match (if rejects w2 then VArr [] else stored (disk w2) HISTORY_TICKETS_KEY)
      with
      | VArr hist =>
          (Normal true,
           snd (saveHistoryTickets (hist ++ [VObj closedTicket]) (after_call w2)))
      | _ => (Normal false, after_call w2)
      end
  | _ => (Normal false, after_call w)
  end.
Proof.
  unfold closeTicket, try_catch_io. unfold mbind at 1. unfold io_bind at 1.
  rewrite getActiveTickets_run.
  set (activeTickets :=
         if rejects w then VArr [] else stored (disk w) ACTIVE_TICKETS_KEY).
  unfold mbind at 1. unfold io_bind at 1. unfold lift at 1.
  destruct (Array_findIndex (id_is ticketId) activeTickets) as [[i|]|e] eqn:Hfind;
    simpl; try reflexivity.
  assert (Harr : activeTickets = VArr (tickets_of activeTickets)).
  { destruct activeTickets; try discriminate Hfind. reflexivity. }
  unfold mbind, io_bind.
  replace (match activeTickets with VArr l => l | _ => [] end)
    with (tickets_of activeTickets) by reflexivity.
  destruct (saveActiveTickets (splice1 (tickets_of activeTickets) i) (after_call w))
    as [r w2] eqn:Hsave.
  assert (Hr : exists b, r = Normal b).
  { rewrite saveActiveTickets_run in Hsave.
    destruct (rejects (after_call w)); injection Hsave as <- _; eauto. }
  destruct Hr as [b ->]. simpl snd.
  rewrite getHistoryTickets_run.
  destruct (if rejects w2 then VArr [] else stored (disk w2) HISTORY_TICKETS_KEY)
    as [| | | | |hist|]; simpl; try reflexivity.
  unfold closed_record.
  destruct (saveHistoryTickets _ (after_call w2)) as [r' w4] eqn:Hsave'.
  rewrite saveHistoryTickets_run in Hsave'.
  destruct (rejects (after_call w2)); injection Hsave' as <- <-; reflexivity.
Qed.

(** A close that finds no ticket answers [false] after its one read. *)
Lemma closeTicket_absent (ticketId exitTime : string) (totalAmount : number)
  (w : world) :
  existsb (has_id ticketId) (tickets_of (stored (disk w) ACTIVE_TICKETS_KEY))
  = false ->
  closeTicket ticketId exitTime totalAmount w = (Normal false, after_call w).
Proof.
  intros Habsent. rewrite closeTicket_run. cbv zeta.
  destruct (rejects w); [reflexivity |].
  destruct (stored (disk w) ACTIVE_TICKETS_KEY) as [| | | | |l|]; try reflexivity.
  simpl in Habsent. unfold Array_findIndex.
  now destruct (findIndex_absent ticketId l 0 Habsent) as [-> | ->].
Qed.

(** C6.  For an identifier that no ticket of the stored active collection
    carries (whatever the history holds), [closeTicket] returns [false]
    without throwing and writes nothing: it has only read the active
    collection. *)
Theorem closeTicket_unknown_id (ticketId exitTime : string)
  (totalAmount : number) (w : world) :
  existsb (has_id ticketId) (tickets_of (stored (disk w) ACTIVE_TICKETS_KEY))
  = false ->
  closeTicket ticketId exitTime totalAmount w = (Normal false, after_call w) /\
  disk (after_call w) = disk w /\
  writes (after_call w) = writes w /\
  storage_calls (after_call w) = S (storage_calls w).
Proof.
  intros Habsent. split; [now apply closeTicket_absent | repeat split].
Qed.

Lemma faults_after_call (w : world) : faults w = [] -> faults (after_call w) = [].
Proof. simpl. now intros ->. Qed.

(** What a successful close has done when no storage call was rejected. *)
Lemma closeTicket_true_healthy (ticketId exitTime : string)
  (totalAmount : number) (w w' : world) :
  faults w = [] ->
  closeTicket ticketId exitTime totalAmount w = (Normal true, w') ->
  exists act k o hist,
    stored (disk w) ACTIVE_TICKETS_KEY = VArr act /\
    act !! k = Some (VObj o) /\
    has_id ticketId (VObj o) = true /\
    existsb (has_id ticketId) (take k act) = false /\
    stored (disk w) HISTORY_TICKETS_KEY = VArr hist /\
    w' = after_write HISTORY_TICKETS_KEY
           (JSON_stringify
              (VArr (hist ++ [VObj (closed_record o exitTime totalAmount)])))
           (after_call (after_call
              (after_write ACTIVE_TICKETS_KEY
                 (JSON_stringify (VArr (splice1 act k)))
                 (after_call (after_call w))))).
Proof.
  intros Hf H. rewrite closeTicket_run in H. cbv zeta in H.
  rewrite (rejects_healthy w Hf) in H.
  destruct (stored (disk w) ACTIVE_TICKETS_KEY) as [| | | | |act|] eqn:Hact;
    try discriminate H.
  unfold Array_findIndex in H.
  destruct (findIndex_from (id_is ticketId) act 0) as [[i|]|e] eqn:Hfind;
    try discriminate H.
  destruct (findIndex_found _ _ _ _ Hfind) as (k & o & -> & Hk & Ho & Hbefore).
  simpl Nat.add in H. simpl tickets_of in H.
  unfold element in H. rewrite Hk in H. simpl own_props in H. simpl default in H.
  rewrite saveActiveTickets_run in H.
  rewrite (rejects_healthy (after_call w) (faults_after_call w Hf)) in H.
  simpl snd in H.
  set (w2 := after_write ACTIVE_TICKETS_KEY _ _) in H.
  assert (Hf2 : faults w2 = []) by (simpl; now rewrite Hf).
  rewrite (rejects_healthy w2 Hf2) in H.
  replace (disk w2) with
    (<[ACTIVE_TICKETS_KEY := JSON_stringify (VArr (splice1 act k))]> (disk w))
    in H by reflexivity.
  rewrite stored_after_active_write in H.
  destruct (stored (disk w) HISTORY_TICKETS_KEY) as [| | | | |hist|] eqn:Hhist;
    try discriminate H.
  rewrite saveHistoryTickets_run in H.
  rewrite (rejects_healthy (after_call w2) (faults_after_call w2 Hf2)) in H.
  injection H as <-.
  exists act, k, o, hist. repeat split; auto.
Qed.

Lemma clean_lookup (l : list value) (k : nat) (t : value) :
  forallb JSON.clean l = true -> l !! k = Some t -> JSON.clean t = true.
Proof.
  intros Hl Hk. rewrite forallb_forall in Hl. apply Hl.
  apply list_elem_of_In. eapply list_elem_of_lookup_2. exact Hk.
Qed.

(** C9.  After a successful close on a healthy storage, the history holds
    its former tickets followed by the closed record, which is the active
    record with [exitTime], [totalAmount] and [status] set and every other
    field, the QR payload among them, unchanged. *)
Theorem closeTicket_closed_record (ticketId exitTime : string)
  (totalAmount : number) (w w' : world) :
  faults w = [] ->
  closeTicket ticketId exitTime totalAmount w = (Normal true, w') ->
  exists act k o hist closed,
    stored (disk w) ACTIVE_TICKETS_KEY = VArr act /\
    act !! k = Some (VObj o) /\
    has_id ticketId (VObj o) = true /\
    stored (disk w) HISTORY_TICKETS_KEY = VArr hist /\
    disk w' !! HISTORY_TICKETS_KEY
    = Some (JSON_stringify (VArr (hist ++ [VObj closed]))) /\
    (JSON.writable totalAmount = true ->
     stored (disk w') HISTORY_TICKETS_KEY = VArr (hist ++ [VObj closed])) /\
    obj_get closed "exitTime" = VStr exitTime /\
    obj_get closed "totalAmount" = VNum totalAmount /\
    obj_get closed "status" = VStr "closed" /\
    (forall key, key <> "exitTime" -> key <> "totalAmount" -> key <> "status" ->
                 obj_get closed key = obj_get o key) /\
    obj_get closed "id" = obj_get o "id" /\
    obj_get closed "parkingName" = obj_get o "parkingName" /\
    obj_get closed "pricePerHour" = obj_get o "pricePerHour" /\
    obj_get closed "entryTime" = obj_get o "entryTime" /\
    obj_get closed "createdAt" = obj_get o "createdAt" /\
    obj_get closed "qrCodeData" = obj_get o "qrCodeData".
Proof.
  intros Hf H.
  destruct (closeTicket_true_healthy _ _ _ _ _ Hf H)
    as (act & k & o & hist & Hact & Hk & Ho & _ & Hhist & ->).
  exists act, k, o, hist, (closed_record o exitTime totalAmount).
  destruct (closed_record_fields o exitTime totalAmount) as (H1 & H2 & H3 & H4).
  split; [exact Hact |]. split; [exact Hk |]. split; [exact Ho |].
  split; [exact Hhist |]. split; [simpl; apply lookup_insert_eq |].
  split.
  { intros Hamount. simpl disk. apply stored_written.
    rewrite forallb_app, (tickets_clean _ _ _ Hhist).
    change (JSON.clean (VObj (closed_record o exitTime totalAmount)) && true
            = true).
    rewrite clean_closed_record; auto.
    exact (clean_lookup _ _ _ (tickets_clean _ _ _ Hact) Hk). }
  repeat split; auto; apply H4; discriminate.
Qed.

Lemma count_id_zero (ticketId : string) (l : list value) :
  count_id ticketId l = 0%nat -> existsb (has_id ticketId) l = false.
Proof.
  unfold count_id. induction l as [|t l IH]; simpl; [reflexivity |].
  destruct (has_id ticketId t); simpl; [discriminate | exact IH].
Qed.

Lemma count_id_app (ticketId : string) (l1 l2 : list value) :
  count_id ticketId (l1 ++ l2)
  = (count_id ticketId l1 + count_id ticketId l2)%nat.
Proof. unfold count_id. now rewrite List.filter_app, length_app. Qed.

(** Removing the only ticket with the identifier leaves none. *)
Lemma splice1_unique (ticketId : string) (l : list value) (k : nat) (t : value) :
  l !! k = Some t -> has_id ticketId t = true ->
  (count_id ticketId l <= 1)%nat ->
  existsb (has_id ticketId) (splice1 l k) = false.
Proof.
  intros Hk Ht Hcount. unfold splice1.
  rewrite <- (take_drop_middle l k t Hk) in Hcount.
  rewrite count_id_app in Hcount.
  change (t :: drop (S k) l) with ([t] ++ drop (S k) l) in Hcount.
  rewrite count_id_app in Hcount.
  unfold count_id at 2 in Hcount. simpl in Hcount. rewrite Ht in Hcount.
  simpl in Hcount.
  rewrite existsb_app, !count_id_zero by lia. reflexivity.
Qed.


Lemma stored_after_history_write (d : gmap string string) (s : string) :
  stored (<[HISTORY_TICKETS_KEY := s]> d) ACTIVE_TICKETS_KEY
  = stored d ACTIVE_TICKETS_KEY.
Proof.
  unfold stored.
  now rewrite lookup_insert_ne by (symmetry; apply keys_differ).
Qed.

(** After a successful close of the only active ticket with the identifier,
    a second close of the same identifier fails. *)
Lemma closeTicket_twice (ticketId exitTime exitTime' : string)
  (totalAmount totalAmount' : number) (w w' : world) :
  faults w = [] ->
  closeTicket ticketId exitTime totalAmount w = (Normal true, w') ->
  (count_id ticketId (tickets_of (stored (disk w) ACTIVE_TICKETS_KEY)) <= 1)%nat ->
  closeTicket ticketId exitTime' totalAmount' w' = (Normal false, after_call w').
Proof.
  intros Hf H Hunique.
  destruct (closeTicket_true_healthy _ _ _ _ _ Hf H)
    as (act & k & o & hist & Hact & Hk & Ho & _ & Hhist & ->).
  rewrite Hact in Hunique. simpl in Hunique.
  apply closeTicket_absent. simpl disk.
  rewrite stored_after_history_write, stored_written
    by (apply clean_splice1; exact (tickets_clean _ _ _ Hact)).
  exact (splice1_unique _ _ _ _ Hk Ho Hunique).
Qed.

End CloseTicket.

Section WriteFailures.

Variable uuidv4 : nat -> string.
Variable now_at : nat -> string.

(** Whatever the two writes of a close do, a close that found its ticket and
    could read an array for the history answers [true]. *)
Lemma closeTicket_ignores_write_outcome (ticketId exitTime : string)
  (totalAmount : number) (w w' : world) (r : completion bool) (i : nat) :
  Array_findIndex (id_is ticketId)
    (if rejects w then VArr [] else stored (disk w) ACTIVE_TICKETS_KEY)
  = Normal (Some i) ->
  closeTicket ticketId exitTime totalAmount w = (r, w') ->
  r = Normal true \/
  (r = Normal false /\ disk w' !! HISTORY_TICKETS_KEY = disk w !! HISTORY_TICKETS_KEY).
Proof.
  intros Hfind H. rewrite closeTicket_run in H. cbv zeta in H.
  rewrite Hfind in H.
  rewrite saveActiveTickets_run in H.
  destruct (rejects (after_call w)); simpl snd in H.
  - match type of H with
    | context [if rejects ?x then VArr [] else ?s] =>
        destruct (if rejects x then VArr [] else s)
    end; injection H as <- <-; auto.
  - set (w2 := after_write _ _ _) in H.
    match type of H with
    | context [if rejects ?x then VArr [] else ?s] =>
        destruct (if rejects x then VArr [] else s)
    end; injection H as <- <-; auto;
      right; split; auto; simpl; now rewrite lookup_insert_ne by apply keys_differ.
Qed.

(** [deleteHistoryTicket] passes the outcome of its write on. *)
Lemma deleteHistoryTicket_write_rejected (ticketId : string) (w : world) :
  rejects (after_call w) = true ->
  fst (deleteHistoryTicket ticketId w) = Normal false.
Proof.
  intros Hrej. unfold deleteHistoryTicket, try_catch_io, mbind, io_bind.
  rewrite getHistoryTickets_run. unfold lift.
  destruct (Array_filter _ _); [| reflexivity].
  rewrite saveHistoryTickets_run, Hrej. reflexivity.
Qed.

(** [addTicket] answers [null] when its write is rejected. *)
Lemma addTicket_write_rejected (ticket : object) (w : world) :
  rejects (after_call w) = true ->
  fst (addTicket uuidv4 now_at ticket w) = Normal None.
Proof.
  intros Hrej.
  unfold addTicket, try_catch_io, mbind, io_bind, generateTicketId,
    Date_now_toISOString, createQRCodeData, lift. simpl.
  rewrite getActiveTickets_run. simpl.
  match goal with
  | |- context [Array_push ?a ?x] => destruct (Array_push a x)
  end; [| reflexivity].
  rewrite saveActiveTickets_run.
  replace (rejects (after_call _)) with true; reflexivity.
Qed.

End WriteFailures.

(** C8 at a failing input: the storage rejects both writes of the close,
    nothing is persisted, and [closeTicket] still answers [true]. *)
Theorem closeTicket_reports_success_on_rejected_writes :
  exists w',
    closeTicket Sample.ticket_id Sample.exit_time (Int 150)
      Sample.opened_read_only = (Normal true, w') /\
    disk w' = disk Sample.opened_read_only /\
    writes w' = writes Sample.opened_read_only /\
    existsb (has_id Sample.ticket_id)
      (tickets_of (stored (disk w') ACTIVE_TICKETS_KEY)) = true /\
    stored (disk w') HISTORY_TICKETS_KEY = VArr [].
Proof.
  eexists. split; [vm_compute; reflexivity |].
  repeat split; vm_compute; reflexivity.
Qed.

(** ** Deleting from the history *)

Section DeleteHistoryTicket.

Lemma filter_list_spec (ticketId : string) (l : list value) :
  filter_list (id_is_not ticketId) l = Normal (without_id ticketId l) \/
  filter_list (id_is_not ticketId) l = Throw TypeError.
Proof.
  induction l as [|t l IH]; simpl; [auto |].
  destruct t; simpl; auto; destruct IH as [-> | ->]; simpl; auto.
Qed.

Lemma filter_list_readable (ticketId : string) (l : list value) :
  forallb readable l = true ->
  filter_list (id_is_not ticketId) l = Normal (without_id ticketId l).
Proof.
  induction l as [|t l IH]; simpl; [auto |].
  intros H. apply andb_prop in H as [Ht Hl]. rewrite (IH Hl).
  destruct t; simpl; try discriminate Ht; reflexivity.
Qed.

Lemma without_id_absent (ticketId : string) (l : list value) :
  existsb (has_id ticketId) l = false -> without_id ticketId l = l.
Proof.
  unfold without_id. induction l as [|t l IH]; simpl; [reflexivity |].
  intros H. apply orb_false_elim in H as [-> Hl]. simpl. now rewrite IH.
Qed.

Lemma without_id_removes (ticketId : string) (l : list value) :
  existsb (has_id ticketId) (without_id ticketId l) = false.
Proof.
  unfold without_id. induction l as [|t l IH]; simpl; [reflexivity |].
  destruct (has_id ticketId t) eqn:Ht; simpl; [exact IH |].
  now rewrite Ht, IH.
Qed.

Lemma deleteHistoryTicket_run (ticketId : string) (w : world) :
  deleteHistoryTicket ticketId w =
  match Array_filter (id_is_not ticketId)
          (if rejects w then VArr [] else stored (disk w) HISTORY_TICKETS_KEY)
  with
  | Normal l => saveHistoryTickets l (after_call w)
  | Throw _ => (Normal false, after_call w)
  end.
Proof.
  unfold deleteHistoryTicket, try_catch_io, mbind, io_bind.
  rewrite getHistoryTickets_run. unfold lift.
  destruct (Array_filter _ _) as [l|e]; [| reflexivity].
  rewrite saveHistoryTickets_run. now destruct (rejects (after_call w)).
Qed.

(** C7, amended.  [deleteHistoryTicket] completes without throwing and never
    changes what is stored under another key than the history's, so the
    active collection stays as it is, and when it answers [false] it has
    written nothing.  When the read of the history is answered with an
    array [l] of records that can be read, the outcome is that of the
    write: when the write is accepted the answer is [true] and the history
    has become [l] without the tickets that carry the identifier, which is
    [l] itself when no ticket carries it; when the write is rejected the
    answer is [false]. *)
Theorem deleteHistoryTicket_history_only (ticketId : string) (w : world) :
  (exists b w',
      deleteHistoryTicket ticketId w = (Normal b, w') /\
      (forall key, key <> HISTORY_TICKETS_KEY ->
                   disk w' !! key = disk w !! key) /\
      stored (disk w') ACTIVE_TICKETS_KEY = stored (disk w) ACTIVE_TICKETS_KEY /\
      (b = false -> disk w' = disk w)) /\
  (forall l,
      rejects w = false ->
      stored (disk w) HISTORY_TICKETS_KEY = VArr l ->
      forallb readable l = true ->
      (rejects (after_call w) = false ->
       exists w',
         deleteHistoryTicket ticketId w = (Normal true, w') /\
         disk w' !! HISTORY_TICKETS_KEY
         = Some (JSON_stringify (VArr (without_id ticketId l))) /\
         stored (disk w') HISTORY_TICKETS_KEY = VArr (without_id ticketId l) /\
         existsb (has_id ticketId) (without_id ticketId l) = false /\
         (existsb (has_id ticketId) l = false -> without_id ticketId l = l)) /\
      (rejects (after_call w) = true ->
       exists w',
         deleteHistoryTicket ticketId w = (Normal false, w') /\
         disk w' = disk w /\ writes w' = writes w)).
Proof.
  split.
  - rewrite deleteHistoryTicket_run.
    destruct (Array_filter (id_is_not ticketId)
                (if rejects w then VArr []
                 else stored (disk w) HISTORY_TICKETS_KEY)) as [kept|e].
    + rewrite saveHistoryTickets_run.
      destruct (rejects (after_call w)).
      * exists false, (after_call (after_call w)). repeat split.
      * eexists true, _. split; [reflexivity |].
        split; [| split; [| discriminate]].
        -- intros key Hkey. simpl. now rewrite lookup_insert_ne by congruence.
        -- unfold stored. simpl.
           rewrite lookup_insert_ne by (symmetry; apply keys_differ).
           reflexivity.
    + exists false, (after_call w). repeat split.
  - intros l Hread Hl Hreadable.
    assert (Hrun : deleteHistoryTicket ticketId w
                   = saveHistoryTickets (without_id ticketId l) (after_call w)).
    { rewrite deleteHistoryTicket_run, Hread, Hl. cbn [Array_filter].
      now rewrite filter_list_readable. }
    rewrite Hrun, saveHistoryTickets_run. split; intros ->.
    + eexists. split; [reflexivity |].
      split; [simpl; apply lookup_insert_eq |].
      split.
      { simpl disk. apply stored_written. apply clean_without_id.
        exact (tickets_clean (disk w) HISTORY_TICKETS_KEY _ Hl). }
      split; [apply without_id_removes | apply without_id_absent].
    + eexists. repeat split.
Qed.

End DeleteHistoryTicket.

(** C7 as stated fails: for an identifier that no ticket of the history
    carries, [deleteHistoryTicket] answers [true]. *)
Lemma deleteHistoryTicket_absent_id_succeeds :
  existsb (has_id "no-such-ticket")
    (tickets_of (stored (disk Sample.closed) HISTORY_TICKETS_KEY)) = false /\
  fst (deleteHistoryTicket "no-such-ticket" Sample.closed) = Normal true.
Proof. split; vm_compute; reflexivity. Qed.

Lemma deleteHistoryTicket_history_only_witness :
  (exists w',
      deleteHistoryTicket Sample.ticket_id Sample.closed = (Normal true, w') /\
      stored (disk w') HISTORY_TICKETS_KEY = VArr []) /\
  (exists w',
      deleteHistoryTicket Sample.ticket_id
        (Sample.with_faults [false; true] Sample.closed) = (Normal false, w') /\
      disk w' = disk Sample.closed).
Proof.
  split.
  - destruct (proj2 (deleteHistoryTicket_history_only Sample.ticket_id
                       Sample.closed)
                (tickets_of (stored (disk Sample.closed) HISTORY_TICKETS_KEY)))
      as [Hok _]; [vm_compute; reflexivity .. |].
    destruct (Hok eq_refl) as (w' & Hrun & _ & Hstored & _).
    exists w'. split; [exact Hrun | exact Hstored].
  - destruct (proj2 (deleteHistoryTicket_history_only Sample.ticket_id
                       (Sample.with_faults [false; true] Sample.closed))
                (tickets_of (stored (disk Sample.closed) HISTORY_TICKETS_KEY)))
      as [_ Hko]; [vm_compute; reflexivity .. |].
    destruct (Hko eq_refl) as (w' & Hrun & Hdisk & _).
    exists w'. split; [exact Hrun | exact Hdisk].
Defined.

(** ** Opening a ticket *)

Section OpenTicket.

Variable uuidv4 : nat -> string.
Variable now_at : nat -> string.
Variable String_trim : string -> string.
Variable parseInt : string -> number.

Lemma addTicket_healthy (name entry : string) (price : number)
  (old : list value) (w : world) :
  faults w = [] ->
  stored (disk w) ACTIVE_TICKETS_KEY = VArr old ->
  addTicket uuidv4 now_at
    [("parkingName", VStr name); ("entryTime", VStr entry);
     ("pricePerHour", VNum price)] w
  = (Normal (Some (opened_record name entry price (uuidv4 (ids_minted w))
                     (now_at (clock_reads w)) (now_at (S (clock_reads w))))),
     after_open old
       (opened_record name entry price (uuidv4 (ids_minted w))
          (now_at (clock_reads w)) (now_at (S (clock_reads w))))
       w).
Proof.
  intros Hf Hold.
  unfold addTicket, try_catch_io, mbind, io_bind, generateTicketId,
    Date_now_toISOString, createQRCodeData, lift. simpl.
  rewrite getActiveTickets_run. unfold rejects. simpl. rewrite Hf, Hold. simpl.
  unfold opened_record, qr_payload, after_open, after_write, after_call. simpl.
  rewrite Hf. reflexivity.
Qed.

Lemma io_bind_run {A B} (m : io A) (k : A -> io B) (w : world) :
  (m ≫= k) w
  = match m w with
    | (Normal a, w') => k a w'
    | (Throw e, w') => (Throw e, w')
    end.
Proof. reflexivity. Qed.

Lemma truthy_str (s : string) : truthy (VStr s) = negb (String.eqb s "").
Proof. reflexivity. Qed.

Lemma not_num_pos (price : number) :
  ~ num_pos price -> isNaN price || num_le_zero price = true.
Proof.
  destruct price as [| | |m e]; simpl; intros H; try reflexivity.
  - exfalso. apply H. exact I.
  - apply Z.leb_le. lia.
Qed.

Lemma num_pos_valid (price : number) :
  num_pos price -> isNaN price || num_le_zero price = false.
Proof.
  destruct price as [| | |m e]; simpl; try tauto.
  intros H. apply Z.leb_gt. lia.
Qed.

(** [handleSave] on a form of strings: an empty (trimmed) parking name and
    a rate that is not strictly positive are rejected with an error dialog
    and nothing else; an accepted form opens a ticket on a healthy
    storage. *)
Lemma handleSave_form_validates_then_opens (f : form) (w : world) :
  (String_trim (parkingName f) = "" \/
   ~ num_pos (parseInt (pricePerHour f)) ->
   exists message,
     handleSave uuidv4 now_at String_trim parseInt f w
     = (Normal tt, with_alert (Alert "Erreur" message) w)) /\
  (String_trim (parkingName f) <> "" ->
   num_pos (parseInt (pricePerHour f)) ->
   useCurrentTime f = true \/ entryTime f <> "" ->
   faults w = [] ->
   uuidv4 (ids_minted w) <> "" ->
   forall old, stored (disk w) ACTIVE_TICKETS_KEY = VArr old ->
   exists entry w0 t message,
     (if useCurrentTime f then getCurrentDateTime now_at else mret (entryTime f)) w
     = (Normal entry, w0) /\
     t = opened_record (String_trim (parkingName f)) entry
           (parseInt (pricePerHour f)) (uuidv4 (ids_minted w))
           (now_at (clock_reads w0)) (now_at (S (clock_reads w0))) /\
     addTicket uuidv4 now_at
       [("parkingName", VStr (String_trim (parkingName f)));
        ("entryTime", VStr entry);
        ("pricePerHour", VNum (parseInt (pricePerHour f)))] w0
     = (Normal (Some t), after_open old t w0) /\
     handleSave uuidv4 now_at String_trim parseInt f w
     = (Normal tt,
        with_alert (Alert "Ticket créé avec succès! 🎫" message)
          (after_open old t w0)) /\
     disk (after_open old t w0) !! ACTIVE_TICKETS_KEY
     = Some (JSON_stringify (VArr (old ++ [t]))) /\
     disk (after_open old t w0) !! HISTORY_TICKETS_KEY
     = disk w !! HISTORY_TICKETS_KEY /\
     (JSON.writable (parseInt (pricePerHour f)) = true ->
      stored (disk (after_open old t w0)) ACTIVE_TICKETS_KEY = VArr (old ++ [t]))).
Proof.
  split.
  - intros Hbad. unfold handleSave.
    destruct (String.eqb_spec (String_trim (parkingName f)) "") as [Hname | Hname].
    + simpl. rewrite Hname. simpl. eexists. reflexivity.
    + simpl. apply String.eqb_neq in Hname. rewrite Hname. simpl.
      destruct Hbad as [Hbad | Hbad]; [apply String.eqb_neq in Hname; contradiction |].
      rewrite (not_num_pos _ Hbad). eexists. reflexivity.
  - intros Hname Hprice Htime Hf Hid old Hold.
    assert (Hentry : exists entry w0,
               (if useCurrentTime f then getCurrentDateTime now_at
                else mret (entryTime f)) w = (Normal entry, w0) /\
               faults w0 = [] /\ disk w0 = disk w /\
               ids_minted w0 = ids_minted w).
    { destruct (useCurrentTime f); eexists _, _; (split; [reflexivity |]); auto. }
    destruct Hentry as (entry & w0 & Hrun & Hf0 & Hd0 & Hi0).
    exists entry, w0. eexists. eexists.
    split; [exact Hrun |]. split; [reflexivity |].
    assert (Hadd := addTicket_healthy (String_trim (parkingName f)) entry
                      (parseInt (pricePerHour f)) old w0 Hf0).
    rewrite Hd0, Hi0 in Hadd. specialize (Hadd Hold).
    split; [exact Hadd |].
    split.
    + unfold handleSave.
      apply String.eqb_neq in Hname. rewrite !truthy_str, Hname. cbn [negb]. rewrite (num_pos_valid _ Hprice). cbv iota.
      assert (Hgate : negb (useCurrentTime f)
                      && negb (negb (String.eqb (entryTime f) "")) = false).
      { destruct Htime as [-> | Ht]; [reflexivity |].
        apply String.eqb_neq in Ht. rewrite Ht. now destruct (useCurrentTime f). }
      rewrite Hgate. cbv iota.
      rewrite io_bind_run, Hrun. unfold try_catch_io.
      rewrite io_bind_run, Hadd. unfold opened_record at 1.
      rewrite io_bind_run. unfold lift at 1. simpl get_field. cbv iota beta.
      rewrite truthy_str.
      apply String.eqb_neq in Hid. rewrite Hid. cbn [negb].
      rewrite io_bind_run. reflexivity.
    + split; [simpl; apply lookup_insert_eq |].
      split; [simpl; rewrite lookup_insert_ne by apply keys_differ;
              now rewrite Hd0 |].
      intros Hwritable. simpl disk. apply stored_written.
      rewrite forallb_app, (tickets_clean _ _ _ Hold).
      cbn [forallb andb]. now rewrite clean_opened_record.
Qed.

(** On strings the handler of the screen is [handleSave] on the form. *)
Lemma handleSave_on_strings (s : NewTicketScreen.state) (name entry : string)
  (w : world) :
  NewTicketScreen.parkingName s = VStr name ->
  (NewTicketScreen.useCurrentTime s = false ->
   NewTicketScreen.entryTime s = VStr entry) ->
  NewTicketScreen.handleSave uuidv4 now_at String_trim parseInt s w
  = handleSave uuidv4 now_at String_trim parseInt
      (Form name (NewTicketScreen.pricePerHour s) entry
         (NewTicketScreen.useCurrentTime s)) w.
Proof.
  intros Hn He. unfold NewTicketScreen.handleSave, handleSave. rewrite Hn.
  cbn [NewTicketScreen.method_trim parkingName pricePerHour entryTime
       useCurrentTime].
  rewrite io_bind_run. unfold lift at 1. cbv beta iota.
  destruct (negb (truthy (VStr (String_trim name)))); [reflexivity |].
  destruct (isNaN _ || num_le_zero _); [reflexivity |].
  destruct (NewTicketScreen.useCurrentTime s).
  - reflexivity.
  - rewrite (He eq_refl). reflexivity.
Qed.

(** A name that is not a string makes the handler throw before any check:
    no dialog, no storage call. *)
Lemma handleSave_name_not_text (s : NewTicketScreen.state) (w : world) :
  (forall name, NewTicketScreen.parkingName s <> VStr name) ->
  NewTicketScreen.handleSave uuidv4 now_at String_trim parseInt s w
  = (Throw TypeError, w).
Proof.
  intros Hn. unfold NewTicketScreen.handleSave.
  destruct (NewTicketScreen.parkingName s) as [| | | |name| |];
    try reflexivity.
  now destruct (Hn name).
Qed.

(** C5, amended.  For a parking name that is text, [handleSave] rejects an
    empty (trimmed) name, a rate text that [parseInt] does not read as a
    number above 0, and a missing entry time when the current time is not
    used: it shows an error dialog before any storage call, leaving the
    storage, the identifier supply and the clock as they were.  On an input
    that passes the three checks (an entry time of its own being text) and
    a healthy storage, [addTicket] returns the new ticket, with its
    identifier, [createdAt], QR payload and status [active], and the active
    collection is rewritten with the ticket appended (and reads back so
    when the rate is finite). *)
Theorem handleSave_validates_then_opens (s : NewTicketScreen.state)
  (name : string) (w : world) :
  NewTicketScreen.parkingName s = VStr name ->
  (String_trim name = "" \/
   ~ num_pos (parseInt (NewTicketScreen.pricePerHour s)) \/
   (NewTicketScreen.useCurrentTime s = false /\
    truthy (NewTicketScreen.entryTime s) = false) ->
   exists message,
     NewTicketScreen.handleSave uuidv4 now_at String_trim parseInt s w
     = (Normal tt, with_alert (Alert "Erreur" message) w)) /\
  (String_trim name <> "" ->
   num_pos (parseInt (NewTicketScreen.pricePerHour s)) ->
   forall own,
   NewTicketScreen.useCurrentTime s = true \/
   (NewTicketScreen.entryTime s = VStr own /\ own <> "") ->
   faults w = [] ->
   uuidv4 (ids_minted w) <> "" ->
   forall old, stored (disk w) ACTIVE_TICKETS_KEY = VArr old ->
   exists entry w0 t message,
     (if NewTicketScreen.useCurrentTime s then getCurrentDateTime now_at
      else mret own) w
     = (Normal entry, w0) /\
     t = opened_record (String_trim name) entry
           (parseInt (NewTicketScreen.pricePerHour s)) (uuidv4 (ids_minted w))
           (now_at (clock_reads w0)) (now_at (S (clock_reads w0))) /\
     addTicket uuidv4 now_at
       [("parkingName", VStr (String_trim name));
        ("entryTime", VStr entry);
        ("pricePerHour", VNum (parseInt (NewTicketScreen.pricePerHour s)))] w0
     = (Normal (Some t), after_open old t w0) /\
     NewTicketScreen.handleSave uuidv4 now_at String_trim parseInt s w
     = (Normal tt,
        with_alert (Alert "Ticket créé avec succès! 🎫" message)
          (after_open old t w0)) /\
     disk (after_open old t w0) !! ACTIVE_TICKETS_KEY
     = Some (JSON_stringify (VArr (old ++ [t]))) /\
     disk (after_open old t w0) !! HISTORY_TICKETS_KEY
     = disk w !! HISTORY_TICKETS_KEY /\
     (JSON.writable (parseInt (NewTicketScreen.pricePerHour s)) = true ->
      stored (disk (after_open old t w0)) ACTIVE_TICKETS_KEY = VArr (old ++ [t]))).
Proof.
  intros Hn. split.
  - intros Hbad. unfold NewTicketScreen.handleSave. rewrite Hn.
    cbn [NewTicketScreen.method_trim].
    rewrite io_bind_run. unfold lift at 1. cbv beta iota.
    destruct (String.eqb_spec (String_trim name) "") as [Hname | Hname].
    + rewrite Hname. eexists. reflexivity.
    + rewrite truthy_str. apply String.eqb_neq in Hname as Hname'.
      rewrite Hname'. cbn [negb].
      destruct (isNaN (parseInt (NewTicketScreen.pricePerHour s))
                || num_le_zero (parseInt (NewTicketScreen.pricePerHour s)))
        eqn:Hrate; [eexists; reflexivity |].
      destruct Hbad as [Hb | [Hb | [Hu Ht]]].
      * contradiction.
      * rewrite (not_num_pos _ Hb) in Hrate. discriminate.
      * rewrite Hu, Ht. eexists. reflexivity.
  - intros Hname Hprice own Htime Hf Hid old Hold.
    set (f := Form name (NewTicketScreen.pricePerHour s) own
                (NewTicketScreen.useCurrentTime s)).
    assert (Hsame : NewTicketScreen.handleSave uuidv4 now_at String_trim parseInt
                      s w
                    = handleSave uuidv4 now_at String_trim parseInt f w).
    { apply handleSave_on_strings; [exact Hn |].
      intros Hu. destruct Htime as [Ht | [Ht _]]; [congruence | exact Ht]. }
    rewrite Hsame.
    apply (proj2 (handleSave_form_validates_then_opens f w)); try assumption.
    destruct Htime as [Ht | [_ Ht]]; [left; exact Ht | right; exact Ht].
Qed.

End OpenTicket.

(** ** Concrete runs *)

Lemma handleSave_validates_then_opens_witness :
  (exists message,
      NewTicketScreen.handleSave Engine.uuidv4 Engine.now_at Engine.String_trim
        Engine.parseInt
        (NewTicketScreen.State (VStr " Central Lot ") "50" (VStr "") false false)
        Engine.empty_world
      = (Normal tt, with_alert (Alert "Erreur" message) Engine.empty_world)) /\
  (exists entry w0 t message,
      (if true then getCurrentDateTime Engine.now_at else mret "")
        Engine.empty_world = (Normal entry, w0) /\
      t = opened_record "Central Lot" entry (Int 50) Sample.ticket_id
            (Engine.now_at (clock_reads w0)) (Engine.now_at (S (clock_reads w0))) /\
      addTicket Engine.uuidv4 Engine.now_at
        [("parkingName", VStr "Central Lot"); ("entryTime", VStr entry);
         ("pricePerHour", VNum (Int 50))] w0
      = (Normal (Some t), after_open [] t w0) /\
      NewTicketScreen.handleSave Engine.uuidv4 Engine.now_at Engine.String_trim
        Engine.parseInt
        (NewTicketScreen.State (VStr " Central Lot ") "50" (VStr "") true false)
        Engine.empty_world
      = (Normal tt,
         with_alert (Alert "Ticket créé avec succès! 🎫" message)
           (after_open [] t w0)) /\
      disk (after_open [] t w0) !! ACTIVE_TICKETS_KEY
      = Some (JSON_stringify (VArr ([] ++ [t]))) /\
      disk (after_open [] t w0) !! HISTORY_TICKETS_KEY
      = disk Engine.empty_world !! HISTORY_TICKETS_KEY /\
      (JSON.writable (Int 50) = true ->
       stored (disk (after_open [] t w0)) ACTIVE_TICKETS_KEY = VArr ([] ++ [t]))).
Proof.
  split.
  - apply (proj1 (handleSave_validates_then_opens Engine.uuidv4 Engine.now_at
                    Engine.String_trim Engine.parseInt
                    (NewTicketScreen.State (VStr " Central Lot ") "50" (VStr "")
                       false false)
                    " Central Lot " Engine.empty_world eq_refl)).
    right. right. split; reflexivity.
  - apply (proj2 (handleSave_validates_then_opens Engine.uuidv4 Engine.now_at
                    Engine.String_trim Engine.parseInt
                    (NewTicketScreen.State (VStr " Central Lot ") "50" (VStr "")
                       true false)
                    " Central Lot " Engine.empty_world eq_refl))
      with (own := "").
    + vm_compute. discriminate.
    + vm_compute. reflexivity.
    + left. reflexivity.
    + reflexivity.
    + vm_compute. discriminate.
    + reflexivity.
Defined.

(** C5 as stated fails.  A form with a name and the rate 50 is refused when
    the current time is not used and no entry time is given; the rate 0.5,
    which is strictly positive, is refused, [parseInt] reading it as 0; and
    the rate text 12abc is accepted as the rate 12. *)
Lemma handleSave_refuses_valid_name_and_rate :
  NewTicketScreen.handleSave Engine.uuidv4 Engine.now_at Engine.String_trim
    Engine.parseInt
    (NewTicketScreen.State (VStr "Central Lot") "50" (VStr "") false false)
    Engine.empty_world
  = (Normal tt,
     with_alert (Alert "Erreur" "Veuillez entrer une heure d'entrée")
       Engine.empty_world) /\
  NewTicketScreen.handleSave Engine.uuidv4 Engine.now_at Engine.String_trim
    Engine.parseInt
    (NewTicketScreen.State (VStr "Central Lot") "0.5" (VStr "") true false)
    Engine.empty_world
  = (Normal tt,
     with_alert
       (Alert "Erreur" "Veuillez entrer un tarif valide (supérieur à 0)")
       Engine.empty_world) /\
  (exists t,
      stored
        (disk
           (snd (NewTicketScreen.handleSave Engine.uuidv4 Engine.now_at
                   Engine.String_trim Engine.parseInt
                   (NewTicketScreen.State (VStr "Central Lot") "12abc" (VStr "")
                      true false)
                   Engine.empty_world)))
        ACTIVE_TICKETS_KEY = VArr [VObj t] /\
      obj_get t "pricePerHour" = VNum (Int 12)).
Proof.
  split; [reflexivity |]. split; [reflexivity |].
  eexists. split; [vm_compute; reflexivity | reflexivity].
Qed.

(** A second close of a closed ticket fails. *)
Lemma closeTicket_unknown_id_witness :
  closeTicket Sample.ticket_id Sample.exit_time (Int 150) Sample.closed
  = (Normal false, after_call Sample.closed) /\
  disk (after_call Sample.closed) = disk Sample.closed /\
  writes (after_call Sample.closed) = writes Sample.closed /\
  storage_calls (after_call Sample.closed) = S (storage_calls Sample.closed).
Proof.
  apply closeTicket_unknown_id. vm_compute. reflexivity.
Defined.

Lemma closeTicket_closed_record_witness :
  exists act k o hist closed,
    stored (disk Sample.opened) ACTIVE_TICKETS_KEY = VArr act /\
    act !! k = Some (VObj o) /\
    has_id Sample.ticket_id (VObj o) = true /\
    stored (disk Sample.opened) HISTORY_TICKETS_KEY = VArr hist /\
    disk Sample.closed !! HISTORY_TICKETS_KEY
    = Some (JSON_stringify (VArr (hist ++ [VObj closed]))) /\
    (JSON.writable (Int 150) = true ->
     stored (disk Sample.closed) HISTORY_TICKETS_KEY
     = VArr (hist ++ [VObj closed])) /\
    obj_get closed "exitTime" = VStr Sample.exit_time /\
    obj_get closed "totalAmount" = VNum (Int 150) /\
    obj_get closed "status" = VStr "closed" /\
    (forall key, key <> "exitTime" -> key <> "totalAmount" -> key <> "status" ->
                 obj_get closed key = obj_get o key) /\
    obj_get closed "id" = obj_get o "id" /\
    obj_get closed "parkingName" = obj_get o "parkingName" /\
    obj_get closed "pricePerHour" = obj_get o "pricePerHour" /\
    obj_get closed "entryTime" = obj_get o "entryTime" /\
    obj_get closed "createdAt" = obj_get o "createdAt" /\
    obj_get closed "qrCodeData" = obj_get o "qrCodeData".
Proof.
  apply (closeTicket_closed_record Sample.ticket_id Sample.exit_time (Int 150)
           Sample.opened Sample.closed).
  - reflexivity.
  - vm_compute. reflexivity.
Defined.


(** The scenario of the specification: 125 minutes at 50 FCFA an hour cost
    150 FCFA, and the close moves the ticket into the history. *)
Example scenario_central_lot :
  calculatePrice Engine.Date_parse "2025-01-20T14:30:00.000Z" Sample.exit_time
    (Int 50) = Normal (Int 150) /\
  existsb (has_id Sample.ticket_id)
    (tickets_of (stored (disk Sample.opened) ACTIVE_TICKETS_KEY)) = true /\
  stored (disk Sample.closed) ACTIVE_TICKETS_KEY = VArr [] /\
  (exists o,
      stored (disk Sample.closed) HISTORY_TICKETS_KEY = VArr [VObj o] /\
      obj_get o "id" = VStr Sample.ticket_id /\
      obj_get o "totalAmount" = VNum (Int 150) /\
      obj_get o "status" = VStr "closed").
Proof.
  split; [reflexivity |]. split; [vm_compute; reflexivity |].
  split; [vm_compute; reflexivity |].
  eexists. split; [vm_compute; reflexivity |]. repeat split.
Qed.

(** * The rest of the program: properties *)

(** ** Printing numbers *)

Lemma string_length_list (s : string) :
  String.length s = length (list_ascii_of_string s).
Proof. induction s as [|c s IH]; simpl; congruence. Qed.

Lemma dval_ge (l : list ascii) : forall acc,
  (acc * 10 ^ N.of_nat (length l) <= JSON.dval l acc)%N.
Proof.
  unfold JSON.dval.
  induction l as [|c l IH]; intros acc.
  - simpl. lia.
  - cbn [fold_left length]. specialize (IH (acc * 10 + JSON.digit_val c)%N).
    rewrite Nat2N.inj_succ, N.pow_succ_r'. nia.
Qed.

(** A positive number has as many digits as its magnitude tells. *)
Lemma digits_length_bound (a : N) (k : nat) :
  (a < 10 ^ N.of_nat k)%N -> (0 < k)%nat ->
  (String.length (JSON.digits a) <= k)%nat.
Proof.
  intros Ha Hk.
  destruct (JSONFacts.digits_spec a) as (d & Hd & Hdig & Hval & Hlen & Hzero).
  rewrite string_length_list, Hd.
  destruct d as [|c d']; [simpl in Hlen; lia |].
  destruct (JSON.starts_with_zero (c :: d')) eqn:Hz.
  - rewrite (Hzero eq_refl). lia.
  - specialize (Hval 0%N). simpl in Hz.
    assert (Hc : (1 <= JSON.digit_val c)%N).
    { simpl in Hdig. apply andb_prop in Hdig as [Hc _].
      unfold JSON.is_digit in Hc. apply andb_prop in Hc as [Hc1 Hc2].
      apply N.leb_le in Hc1. apply N.eqb_neq in Hz.
      unfold JSON.digit_val. lia. }
    assert (Hge := dval_ge d' (0 * 10 + JSON.digit_val c)%N).
    unfold JSON.dval in Hval, Hge. cbn [fold_left] in Hval.
    rewrite Hval in Hge. cbn [length].
    destruct (le_lt_dec (S (length d')) k) as [|Hlt]; [assumption | exfalso].
    assert (10 ^ N.of_nat k <= 10 ^ N.of_nat (length d'))%N.
    { apply N.pow_le_mono_r; lia. }
    nia.
Qed.

Lemma digits_zero : JSON.digits 0 = "0".
Proof. reflexivity. Qed.

(** A non-negative integer below 10^21 prints as its decimal digits. *)
Lemma Number_toString_Int (m : Z) :
  (0 <= m < 10 ^ 21)%Z ->
  Number_toString (Int m) = JSON.digits (Z.to_N m).
Proof.
  intros Hm. unfold Number_toString, Int.
  rewrite Z.abs_eq by lia.
  destruct (N.eqb_spec (Z.to_N m) 0) as [H0 | H0].
  - now rewrite H0.
  - assert (Hlen : (String.length (JSON.digits (Z.to_N m)) <= 21)%nat).
    { apply digits_length_bound; [| lia].
      change (10 ^ N.of_nat 21)%N with (Z.to_N (10 ^ 21)). lia. }
    assert (Hpos : (0 < String.length (JSON.digits (Z.to_N m)))%nat).
    { destruct (JSONFacts.digits_spec (Z.to_N m)) as (d & Hd & _ & _ & Hl & _).
      now rewrite string_length_list, Hd. }
    replace ((-6 <? _)%Z && _) with true.
    + unfold JSON.num_to_string. rewrite Z.abs_eq by lia.
      destruct (Z.ltb_spec m 0); [lia |]. reflexivity.
    + symmetry. apply andb_true_intro. split; [apply Z.ltb_lt | apply Z.leb_le]; lia.
Qed.

(** ** Displaying a duration *)

Lemma formatDuration_minutes (h m : Z) :
  (0 <= h < 10 ^ 21)%Z -> (0 <= m < 60)%Z ->
  formatDuration (Int (60 * h + m)) = duration_text h m.
Proof.
  intros Hh Hm. unfold formatDuration, duration_text, Int.
  cbn [num_lt_zero isNaN Math_floor_div num_rem normalize].
  destruct (Z.ltb_spec (60 * h + m) 0); [lia |]. cbn [orb].
  change (10 ^ Z.of_nat 0)%Z with 1%Z. rewrite Z.mul_1_r.
  replace ((60 * h + m) / 60)%Z with h
    by (apply Z.div_unique with m; lia).
  replace (Z.rem (60 * h + m) 60) with m.
  2:{ rewrite Z.rem_mod_nonneg by lia.
      apply Z.mod_unique with h; lia. }
  unfold Int. cbn [num_is_zero].
  change (Fin h 0) with (Int h). change (Fin m 0) with (Int m).
  rewrite (Number_toString_Int h) by lia.
  rewrite (Number_toString_Int m) by lia.
  reflexivity.
Qed.

Section DurationDisplay.

Variable Date_parse : string -> option Z.

(** X1.  For a stay of [h] hours, [m] minutes and less than a minute more,
    of at most 2^53 ms in all, the duration is displayed as these hours and
    minutes, and the fee charges the displayed hours, plus one hour when
    minutes are displayed. *)
Theorem fee_charges_displayed_hours (entryTime exitTime : string)
  (entry h m r : Z) (rate : number) :
  Date_parse entryTime = Some entry ->
  Date_parse exitTime = Some (entry + 60000 * (60 * h + m) + r)%Z ->
  (0 <= h)%Z -> (0 <= m < 60)%Z -> (0 <= r < 60000)%Z ->
  (60000 * (60 * h + m) + r <= 2 ^ 53)%Z ->
  exists d,
    calculateDuration Date_parse entryTime exitTime = Normal d /\
    d = (60 * h + m)%Z /\
    formatDuration (Int d) = duration_text h m /\
    calculatePrice Date_parse entryTime exitTime rate
    = Normal (if (d =? 0)%Z then Int 0
              else num_mul (Int (if (m =? 0)%Z then h else h + 1)) rate).
Proof.
  intros He Hx Hh Hm Hr Hfar. exists (60 * h + m)%Z.
  assert (Hd : calculateDuration Date_parse entryTime exitTime
               = Normal (60 * h + m)%Z).
  { apply calculateDuration_minutes with entry r; auto; lia. }
  split; [exact Hd |]. split; [reflexivity |].
  assert (Hh' : (0 <= h < 10 ^ 21)%Z).
  { change (2 ^ 53)%Z with 9007199254740992%Z in Hfar.
    change (10 ^ 21)%Z with 1000000000000000000000%Z. lia. }
  split; [now apply formatDuration_minutes |].
  rewrite (calculatePrice_of_duration _ _ _ _ _ Hd).
  destruct (Z.eqb_spec (60 * h + m) 0); [reflexivity |].
  do 3 f_equal. unfold Math_ceil_div.
  destruct (Z.eqb_spec m 0) as [-> | Hm0].
  - rewrite Z.add_0_r.
    replace (- (60 * h))%Z with ((- h) * 60)%Z by lia.
    rewrite Z.div_mul by lia. lia.
  - assert ((- (60 * h + m)) / 60 = - h - 1)%Z; [| lia].
    symmetry. apply Z.div_unique with (60 - m)%Z; lia.
Qed.

End DurationDisplay.

(** ** Displaying dates *)

Lemma below_by_cases (P : Z -> bool) (lo hi : Z) :
  forallb (fun k => P (lo + Z.of_nat k)%Z) (seq 0 (Z.to_nat (hi - lo))) = true ->
  forall z, (lo <= z < hi)%Z -> P z = true.
Proof.
  intros H z Hz. rewrite forallb_forall in H.
  specialize (H (Z.to_nat (z - lo))).
  replace (lo + Z.of_nat (Z.to_nat (z - lo)))%Z with z in H by lia.
  apply H. apply in_seq. lia.
Qed.

(** A number below 100 is padded to the two digits that denote it. *)
Lemma pad2_two_digits (n : Z) :
  (0 <= n < 100)%Z -> two_digits (pad2 n) n = true.
Proof.
  intros Hn.
  apply (below_by_cases (fun z => two_digits (pad2 z) z) 0 100);
    [vm_compute; reflexivity | lia].
Qed.

(** A year of four digits is printed as these digits. *)
Lemma year_four_digits (y : Z) :
  (1000 <= y <= 9999)%Z -> four_digits (Number_toString (Int y)) y = true.
Proof.
  intros Hy.
  apply (below_by_cases (fun z => four_digits (Number_toString (Int z)) z)
           1000 10000);
    [vm_compute; reflexivity | lia].
Qed.

Lemma two_digits_inv (s : string) (n : Z) :
  two_digits s n = true ->
  exists a b,
    s = String a (String b "") /\ JSON.is_digit a = true /\
    JSON.is_digit b = true /\
    Z.of_N (10 * JSON.digit_val a + JSON.digit_val b) = n.
Proof.
  destruct s as [|a [|b [|c s]]]; simpl; try discriminate.
  intros H. apply andb_prop in H as [H Hn]. apply andb_prop in H as [Ha Hb].
  apply Z.eqb_eq in Hn. eauto 10.
Qed.

Lemma four_digits_inv (s : string) (n : Z) :
  four_digits s n = true -> String.length s = 4%nat.
Proof.
  destruct s as [|a [|b [|c [|d [|e s]]]]]; simpl; try discriminate. reflexivity.
Qed.

Lemma two_digits_length (s : string) (n : Z) :
  two_digits s n = true -> String.length s = 2%nat.
Proof.
  destruct s as [|a [|b [|c s]]]; simpl; try discriminate. reflexivity.
Qed.

Lemma two_digits_first (s rest : string) (n : Z) :
  two_digits s n = true ->
  exists a b, s +:+ rest = String a (String b rest) /\ JSON.is_digit a = true.
Proof.
  intros H. apply two_digits_inv in H as (a & b & -> & Ha & _). eauto.
Qed.

Lemma length_append (a b : string) :
  String.length (a +:+ b) = (String.length a + String.length b)%nat.
Proof.
  induction a as [|c a IH]; [reflexivity |].
  rewrite JSONFacts.append_cons. simpl. now rewrite IH.
Qed.

Section DateDisplay.

Variable Date_parse : string -> option Z.
Variable getFullYear : Z -> Z.
Variable getMonth : Z -> Z.
Variable getDate : Z -> Z.
Variable getHours : Z -> Z.
Variable getMinutes : Z -> Z.

Local Abbreviation formatTime' := (formatTime Date_parse getHours getMinutes).
Local Abbreviation formatDate' :=
  (formatDate Date_parse getFullYear getMonth getDate getHours getMinutes).
Local Abbreviation formatForInput' :=
  (formatForInput Date_parse getFullYear getMonth getDate getHours getMinutes).

(** X2.  For a valid date, [formatTime] prints two digits that denote the
    hour, the letter h, and two digits that denote the minute: five
    characters, never the placeholder of an invalid date. *)
Theorem formatTime_two_digit_fields (dateString : string) (t : Z) :
  Date_parse dateString = Some t ->
  (0 <= getHours t < 24)%Z -> (0 <= getMinutes t < 60)%Z ->
  exists hh mm,
    formatTime' dateString = Normal (hh +:+ "h" +:+ mm) /\
    two_digits hh (getHours t) = true /\
    two_digits mm (getMinutes t) = true /\
    String.length (hh +:+ "h" +:+ mm) = 5%nat /\
    formatTime' dateString <> Normal "--h--".
Proof.
  intros Ht Hh Hm.
  assert (H1 := pad2_two_digits (getHours t) ltac:(lia)).
  assert (H2 := pad2_two_digits (getMinutes t) ltac:(lia)).
  exists (pad2 (getHours t)), (pad2 (getMinutes t)).
  unfold formatTime. rewrite Ht. cbn [try_catch].
  split; [reflexivity |]. split; [exact H1 |]. split; [exact H2 |].
  split.
  - rewrite !length_append, (two_digits_length _ _ H1), (two_digits_length _ _ H2).
    reflexivity.
  - destruct (two_digits_first _ ("h" +:+ pad2 (getMinutes t)) _ H1)
      as (a & b & -> & Ha).
    intros [= -> _]. discriminate Ha.
Qed.

(** X3.  For a valid date in a year of four digits, [formatForInput] prints
    the sixteen characters YYYY-MM-DDTHH:mm, each field the digits that
    denote it, the month counted from 1. *)
Theorem formatForInput_fields (dateString : string) (t : Z) :
  Date_parse dateString = Some t ->
  (1000 <= getFullYear t <= 9999)%Z -> (0 <= getMonth t < 12)%Z ->
  (1 <= getDate t <= 31)%Z ->
  (0 <= getHours t < 24)%Z -> (0 <= getMinutes t < 60)%Z ->
  exists year month day hh mm,
    formatForInput' dateString
    = Normal (year +:+ "-" +:+ month +:+ "-" +:+ day +:+ "T" +:+ hh +:+ ":" +:+ mm) /\
    four_digits year (getFullYear t) = true /\
    two_digits month (getMonth t + 1) = true /\
    two_digits day (getDate t) = true /\
    two_digits hh (getHours t) = true /\
    two_digits mm (getMinutes t) = true /\
    String.length
      (year +:+ "-" +:+ month +:+ "-" +:+ day +:+ "T" +:+ hh +:+ ":" +:+ mm)
    = 16%nat.
Proof.
  intros Ht Hy Hmo Hd Hh Hm.
  assert (H0 := year_four_digits (getFullYear t) Hy).
  assert (H1 := pad2_two_digits (getMonth t + 1) ltac:(lia)).
  assert (H2 := pad2_two_digits (getDate t) ltac:(lia)).
  assert (H3 := pad2_two_digits (getHours t) ltac:(lia)).
  assert (H4 := pad2_two_digits (getMinutes t) ltac:(lia)).
  eexists _, _, _, _, _.
  unfold formatForInput. rewrite Ht. cbn [try_catch].
  split; [reflexivity |]. repeat (split; [eassumption |]).
  rewrite !length_append, (four_digits_inv _ _ H0), (two_digits_length _ _ H1),
    (two_digits_length _ _ H2), (two_digits_length _ _ H3),
    (two_digits_length _ _ H4).
  reflexivity.
Qed.

(** X4.  For a valid date in a year of four digits, [formatDate] prints the
    sixteen characters DD/MM/YYYY HHhMM: the day, the month counted from 1
    and the year, a space, and the very text that [formatTime] prints for
    the same date. *)
Theorem formatDate_fields (dateString : string) (t : Z) :
  Date_parse dateString = Some t ->
  (1000 <= getFullYear t <= 9999)%Z -> (0 <= getMonth t < 12)%Z ->
  (1 <= getDate t <= 31)%Z ->
  (0 <= getHours t < 24)%Z -> (0 <= getMinutes t < 60)%Z ->
  exists day month year time,
    formatTime' dateString = Normal time /\
    formatDate' dateString
    = Normal (day +:+ "/" +:+ month +:+ "/" +:+ year +:+ " " +:+ time) /\
    two_digits day (getDate t) = true /\
    two_digits month (getMonth t + 1) = true /\
    four_digits year (getFullYear t) = true /\
    String.length (day +:+ "/" +:+ month +:+ "/" +:+ year +:+ " " +:+ time)
    = 16%nat.
Proof.
  intros Ht Hy Hmo Hd Hh Hm.
  assert (H0 := year_four_digits (getFullYear t) Hy).
  assert (H1 := pad2_two_digits (getMonth t + 1) ltac:(lia)).
  assert (H2 := pad2_two_digits (getDate t) ltac:(lia)).
  assert (H3 := pad2_two_digits (getHours t) ltac:(lia)).
  assert (H4 := pad2_two_digits (getMinutes t) ltac:(lia)).
  eexists _, _, _, _.
  unfold formatDate, formatTime. rewrite Ht. cbn [try_catch].
  split; [reflexivity |]. split; [reflexivity |].
  repeat (split; [eassumption |]).
  rewrite !length_append, (four_digits_inv _ _ H0), (two_digits_length _ _ H1),
    (two_digits_length _ _ H2), (two_digits_length _ _ H3),
    (two_digits_length _ _ H4).
  reflexivity.
Qed.

End DateDisplay.

Lemma formatTime_two_digit_fields_witness :
  exists hh mm,
    Device.formatTime "2025-01-20T14:30:00.000Z" = Normal (hh +:+ "h" +:+ mm) /\
    two_digits hh 14 = true /\
    two_digits mm 30 = true /\
    String.length (hh +:+ "h" +:+ mm) = 5%nat /\
    Device.formatTime "2025-01-20T14:30:00.000Z" <> Normal "--h--".
Proof.
  apply (formatTime_two_digit_fields Engine.Date_parse Device.getHours
           Device.getMinutes "2025-01-20T14:30:00.000Z" 1737383400000);
    [reflexivity | vm_compute; split; congruence | vm_compute; split; congruence].
Defined.

Lemma formatDate_fields_witness :
  exists day month year time,
    Device.formatTime "2025-01-20T14:30:00.000Z" = Normal time /\
    Device.formatDate "2025-01-20T14:30:00.000Z"
    = Normal (day +:+ "/" +:+ month +:+ "/" +:+ year +:+ " " +:+ time) /\
    two_digits day 20 = true /\
    two_digits month (0 + 1) = true /\
    four_digits year 2025 = true /\
    String.length (day +:+ "/" +:+ month +:+ "/" +:+ year +:+ " " +:+ time)
    = 16%nat.
Proof.
  apply (formatDate_fields Engine.Date_parse Device.getFullYear Device.getMonth
           Device.getDate Device.getHours Device.getMinutes
           "2025-01-20T14:30:00.000Z" 1737383400000);
    first [reflexivity | vm_compute; split; congruence].
Defined.

Lemma formatForInput_fields_witness :
  exists year month day hh mm,
    Device.formatForInput "2025-01-20T14:30:00.000Z"
    = Normal (year +:+ "-" +:+ month +:+ "-" +:+ day +:+ "T" +:+ hh +:+ ":" +:+ mm) /\
    four_digits year 2025 = true /\
    two_digits month (0 + 1) = true /\
    two_digits day 20 = true /\
    two_digits hh 14 = true /\
    two_digits mm 30 = true /\
    String.length
      (year +:+ "-" +:+ month +:+ "-" +:+ day +:+ "T" +:+ hh +:+ ":" +:+ mm)
    = 16%nat.
Proof.
  apply (formatForInput_fields Engine.Date_parse Device.getFullYear Device.getMonth
           Device.getDate Device.getHours Device.getMinutes
           "2025-01-20T14:30:00.000Z" 1737383400000);
    first [reflexivity | vm_compute; split; congruence].
Defined.

(** ** The fee as a function of the exit time *)

Lemma num_mul_Int (a b : Z) : num_mul (Int a) (Int b) = Int (a * b).
Proof. reflexivity. Qed.

Section FeeGrows.

Variable Date_parse : string -> option Z.

(** The hours that a stay of [d] minutes is charged for. *)
Lemma fee_of_minutes (entryTime exitTime : string) (d r : Z) :
  calculateDuration Date_parse entryTime exitTime = Normal d ->
  calculatePrice Date_parse entryTime exitTime (Int r)
  = Normal (Int ((if (d =? 0)%Z then 0 else Math_ceil_div d 60) * r)).
Proof.
  intros Hd. rewrite (calculatePrice_of_duration _ _ _ _ _ Hd).
  destruct (d =? 0)%Z; [reflexivity |]. now rewrite num_mul_Int.
Qed.

(** The fee at a whole rate, for a stay of at most 2^53 ms whose hours cost
    at most 2^53: a whole number of hours times the rate. *)
Lemma fee_whole (entryTime exitTime : string) (t0 t1 r : Z) :
  Date_parse entryTime = Some t0 -> Date_parse exitTime = Some t1 ->
  (0 <= r)%Z -> (t1 - t0 <= 2 ^ 53)%Z ->
  (((t1 - t0) / 3600000 + 1) * r <= 2 ^ 53)%Z ->
  exists h,
    calculatePrice Date_parse entryTime exitTime (Int r) = Normal (Int (h * r)) /\
    (0 <= h)%Z /\ (0 <= h * r <= 2 ^ 53)%Z.
Proof.
  intros H0 H1 Hr Hfar Hfee.
  assert (Hd := calculateDuration_valid Date_parse _ _ _ _ H0 H1 Hfar).
  set (d := Z.max 0 ((t1 - t0) / 60000)) in *.
  eexists. split; [apply (fee_of_minutes _ _ _ _ Hd) |].
  assert (Hc := Math_ceil_div_60 d).
  assert (Hh : (0 <= (if (d =? 0)%Z then 0 else Math_ceil_div d 60)
                <= Z.max 0 ((t1 - t0) / 3600000 + 1))%Z).
  { destruct (Z.eqb_spec d 0); [lia |].
    assert (Hpos : (0 <= (t1 - t0) / 60000)%Z) by (unfold d in *; lia).
    assert (Hd' : d = ((t1 - t0) / 60000)%Z) by (unfold d; lia).
    assert (Hq : ((t1 - t0) / 3600000 = (t1 - t0) / 60000 / 60)%Z).
    { rewrite Z.div_div by lia. reflexivity. }
    rewrite Hq, <- Hd'.
    assert (Hdm := Z.div_mod d 60 ltac:(lia)).
    assert (Hmb := Z.mod_pos_bound d 60 ltac:(lia)).
    lia. }
  assert (Hbound : (Z.max 0 ((t1 - t0) / 3600000 + 1) * r <= 2 ^ 53)%Z).
  { destruct (Z.max_spec 0 ((t1 - t0) / 3600000 + 1)) as [[_ ->] | [_ ->]];
      [exact Hfee |].
    rewrite Z.mul_0_l. apply Z.pow_nonneg. lia. }
  split; [lia | nia].
Qed.

(** X5.  At a whole rate that is not negative, for exits at most 2^53 ms
    after the entry and hours whose fee is at most 2^53, the fee is a whole
    number of hours times the rate, and leaving later never costs less. *)
Theorem calculatePrice_grows_with_exit (entryTime exit1 exit2 : string)
  (t0 t1 t2 r : Z) :
  Date_parse entryTime = Some t0 ->
  Date_parse exit1 = Some t1 -> Date_parse exit2 = Some t2 ->
  (t1 <= t2)%Z -> (0 <= r)%Z ->
  (t2 - t0 <= 2 ^ 53)%Z ->
  (((t2 - t0) / 3600000 + 1) * r <= 2 ^ 53)%Z ->
  exists h1 h2,
    calculatePrice Date_parse entryTime exit1 (Int r) = Normal (Int (h1 * r)) /\
    calculatePrice Date_parse entryTime exit2 (Int r) = Normal (Int (h2 * r)) /\
    (0 <= h1 <= h2)%Z /\ (h1 * r <= h2 * r <= 2 ^ 53)%Z.
Proof.
  intros H0 H1 H2 Hle Hr Hfar Hfee.
  assert (Hd1 := calculateDuration_valid Date_parse _ _ _ _ H0 H1 ltac:(lia)).
  assert (Hd2 := calculateDuration_valid Date_parse _ _ _ _ H0 H2 Hfar).
  set (d1 := Z.max 0 ((t1 - t0) / 60000)) in *.
  set (d2 := Z.max 0 ((t2 - t0) / 60000)) in *.
  assert (Hd : (0 <= d1 <= d2)%Z).
  { unfold d1, d2.
    assert ((t1 - t0) / 60000 <= (t2 - t0) / 60000)%Z
      by (apply Z.div_le_mono; lia).
    lia. }
  eexists _, _.
  split; [apply (fee_of_minutes _ _ _ _ Hd1) |].
  split; [apply (fee_of_minutes _ _ _ _ Hd2) |].
  assert (Hc1 := Math_ceil_div_60 d1). assert (Hc2 := Math_ceil_div_60 d2).
  assert (Hh : (0 <= (if (d1 =? 0)%Z then 0 else Math_ceil_div d1 60)
                <= (if (d2 =? 0)%Z then 0 else Math_ceil_div d2 60))%Z).
  { destruct (Z.eqb_spec d1 0), (Z.eqb_spec d2 0); lia. }
  split; [exact Hh |].
  assert (Hhours : ((if (d2 =? 0)%Z then 0 else Math_ceil_div d2 60)
                    <= Z.max 0 ((t2 - t0) / 3600000 + 1))%Z).
  { destruct (Z.eqb_spec d2 0); [lia |].
    assert (Hpos : (0 <= (t2 - t0) / 60000)%Z) by (unfold d2 in *; lia).
    assert (Hd2' : d2 = ((t2 - t0) / 60000)%Z) by (unfold d2; lia).
    assert (Hq : ((t2 - t0) / 3600000 = (t2 - t0) / 60000 / 60)%Z).
    { rewrite Z.div_div by lia. reflexivity. }
    rewrite Hq, <- Hd2'.
    assert (Hdm := Z.div_mod d2 60 ltac:(lia)).
    assert (Hmb := Z.mod_pos_bound d2 60 ltac:(lia)).
    lia. }
  assert (Hbound : (Z.max 0 ((t2 - t0) / 3600000 + 1) * r <= 2 ^ 53)%Z).
  { destruct (Z.max_spec 0 ((t2 - t0) / 3600000 + 1)) as [[_ ->] | [_ ->]];
      [exact Hfee |].
    rewrite Z.mul_0_l. apply Z.pow_nonneg. lia. }
  split; nia.
Qed.

End FeeGrows.

(** ** Verifying a scanned ticket *)

Lemma get_field_readable (t : value) (k : string) :
  readable t = true -> get_field t k = Normal (field t k).
Proof. destruct t; simpl; intros H; try discriminate; reflexivity. Qed.

Lemma truthy_readable (t : value) : truthy t = true -> readable t = true.
Proof. destruct t; simpl; intros H; try discriminate; reflexivity. Qed.

Lemma id_eq_readable (ticketId t : value) :
  readable t = true -> id_eq ticketId t = Normal (carries ticketId t).
Proof.
  intros H. unfold id_eq. now rewrite (get_field_readable _ _ H).
Qed.

Lemma find_list_id_eq (ticketId : value) (l : list value) :
  forallb readable l = true ->
  find_list (id_eq ticketId) l
  = Normal (default VUndefined (List.find (carries ticketId) l)).
Proof.
  induction l as [|t l IH]; intros H; [reflexivity |].
  simpl in H. apply andb_prop in H as [Ht Hl].
  cbn [find_list List.find]. rewrite (id_eq_readable _ _ Ht). simpl.
  destruct (carries ticketId t); [reflexivity | now apply IH].
Qed.

Lemma find_carries (ticketId : value) (l : list value) :
  match List.find (carries ticketId) l with
  | Some t =>
      existsb (carries ticketId) l = true /\ In t l /\ carries ticketId t = true
  | None => existsb (carries ticketId) l = false
  end.
Proof.
  induction l as [|t l IH]; simpl; [reflexivity |].
  destruct (carries ticketId t) eqn:Ht; simpl; [auto |].
  destruct (List.find (carries ticketId) l); [| exact IH].
  destruct IH as (? & ? & ?). auto.
Qed.

Lemma carries_object (ticketId t : value) :
  is_undefined ticketId = false -> carries ticketId t = true ->
  exists o, t = VObj o.
Proof.
  unfold carries. destruct t; simpl; eauto; destruct ticketId; discriminate.
Qed.

(** What [verifyTicket] answers for a ticket it found. *)
Lemma verifyTicket_found (l : list value) (ticketId t : value) :
  is_undefined ticketId = false ->
  forallb readable l = true ->
  List.find (carries ticketId) l = Some t ->
  let isActive :=
    strict_eq_str (field t "status") "active"
    || negb (truthy (field t "exitTime")) in
  verifyTicket (VArr l) ticketId
  = Normal (VObj [("isValid", VBool true); ("ticket", t);
                  ("status", VStr (if isActive then "active" else "closed"));
                  ("message",
                   VStr (if isActive then "Ticket valide et actif"
                         else "Ticket clôturé (historique)"))]).
Proof.
  intros Hid Hl Hfind. unfold verifyTicket. cbn [Array_find].
  rewrite (find_list_id_eq _ _ Hl), Hfind. cbn [default mbind completion_bind].
  assert (Hc := find_carries ticketId l). rewrite Hfind in Hc.
  destruct Hc as (_ & _ & Hc). apply (carries_object _ _ Hid) in Hc as [o ->].
  reflexivity.
Qed.

Lemma verifyTicket_absent (l : list value) (ticketId : value) :
  forallb readable l = true ->
  List.find (carries ticketId) l = None ->
  verifyTicket (VArr l) ticketId
  = Normal (VObj [("isValid", VBool false); ("ticket", VNull);
                  ("status", VStr "not_found");
                  ("message", VStr "Ticket non trouvé dans la base locale")]).
Proof.
  intros Hl Hfind. unfold verifyTicket. cbn [Array_find].
  rewrite (find_list_id_eq _ _ Hl), Hfind. reflexivity.
Qed.

(** X6.  On a collection whose entries can be read, [verifyTicket] declares
    the ticket valid exactly when some entry carries the identifier; it then
    reports the first such entry, as active or closed, and as closed only
    when that entry has an exit time and a status other than active. *)
Theorem verifyTicket_valid_iff_present (l : list value) (ticketId : value) :
  is_undefined ticketId = false ->
  forallb readable l = true ->
  exists r,
    verifyTicket (VArr l) ticketId = Normal (VObj r) /\
    obj_get r "isValid" = VBool (existsb (carries ticketId) l) /\
    (existsb (carries ticketId) l = false ->
     obj_get r "ticket" = VNull /\ obj_get r "status" = VStr "not_found") /\
    (existsb (carries ticketId) l = true ->
     exists l1 t l2,
       l = l1 ++ t :: l2 /\ existsb (carries ticketId) l1 = false /\
       carries ticketId t = true /\
       obj_get r "ticket" = t /\
       (obj_get r "status" = VStr "active" \/ obj_get r "status" = VStr "closed") /\
       (obj_get r "status" = VStr "closed" <->
        strict_eq_str (field t "status") "active" = false /\
        truthy (field t "exitTime") = true)).
Proof.
  intros Hid Hl.
  destruct (List.find (carries ticketId) l) as [t|] eqn:Hfind.
  - eexists. split; [apply (verifyTicket_found _ _ _ Hid Hl Hfind) |].
    assert (Hc := find_carries ticketId l). rewrite Hfind in Hc.
    destruct Hc as (Hex & _ & Hc). rewrite Hex.
    split; [reflexivity |]. split; [discriminate |]. intros _.
    assert (Hsplit : exists l1 l2,
               l = l1 ++ t :: l2 /\ existsb (carries ticketId) l1 = false).
    { clear Hl Hex. revert Hfind. induction l as [|x l IH]; simpl; [discriminate |].
      destruct (carries ticketId x) eqn:Hx.
      - intros [= ->]. exists [], l. auto.
      - intros H. destruct (IH H) as (l1 & l2 & -> & H1).
        exists (x :: l1), l2. simpl. rewrite Hx. auto. }
    destruct Hsplit as (l1 & l2 & Heq & H1).
    exists l1, t, l2. split; [exact Heq |]. split; [exact H1 |].
    split; [exact Hc |]. split; [reflexivity |].
    cbn [obj_get String.eqb Ascii.eqb Bool.eqb].
    destruct (strict_eq_str (field t "status") "active");
      destruct (truthy (field t "exitTime")); simpl; split; auto.
    all: split; intros H; try discriminate H; try (destruct H; discriminate);
      auto.
  - eexists. split; [apply (verifyTicket_absent _ _ Hl Hfind) |].
    assert (Hc := find_carries ticketId l). rewrite Hfind in Hc. rewrite Hc.
    split; [reflexivity |]. split; [auto | discriminate].
Qed.

(** X7.  The status shown after a scan, which [formatScannedTicketInfo]
    takes from the stored ticket, is the status that [verifyTicket]
    reports exactly when the stored status is active, or is missing, or is
    closed with an exit time. *)
Theorem displayed_status_agrees_iff (ticketData : value) (l : list value)
  (ticketId t : value) :
  readable ticketData = true ->
  is_undefined ticketId = false ->
  forallb readable l = true ->
  List.find (carries ticketId) l = Some t ->
  exists r info,
    verifyTicket (VArr l) ticketId = Normal (VObj r) /\
    formatScannedTicketInfo ticketData (obj_get r "ticket")
    = Normal (VObj info) /\
    (obj_get info "status" = obj_get r "status" <->
     strict_eq_str (field t "status") "active" = true \/
     truthy (field t "status") = false \/
     (strict_eq_str (field t "status") "closed" = true /\
      truthy (field t "exitTime") = true)).
Proof.
  intros Hdata Hid Hl Hfind.
  assert (Hc := find_carries ticketId l). rewrite Hfind in Hc.
  destruct Hc as (_ & _ & Hc). apply (carries_object _ _ Hid) in Hc as [o ->].
  eexists _, _. split; [apply (verifyTicket_found _ _ _ Hid Hl Hfind) |].
  cbn [obj_get String.eqb Ascii.eqb Bool.eqb].
  unfold formatScannedTicketInfo. cbn [is_undefined truthy].
  rewrite !(get_field_readable _ _ Hdata).
  cbn [mbind completion_bind get_field].
  split; [reflexivity |].
  cbn [field app obj_get String.eqb Ascii.eqb Bool.eqb].
  assert (Hfin : forall (a b : value) (P Q R : bool) (S : Prop),
             (a = b /\ (P = true \/ Q = false \/ (R = true /\ S))) \/
             (a <> b /\ P = false /\ Q = true /\ (R = false \/ ~ S)) ->
             a = b <-> P = true \/ Q = false \/ (R = true /\ S)).
  { intros a b P Q R S [[Hab H] | (Hab & HP & HQ & HR)]; [tauto |].
    split; [contradiction |]. intros [H | [H | [H H']]]; try congruence.
    destruct HR; [congruence | contradiction]. }
  apply Hfin.
  destruct (truthy (obj_get o "exitTime")) eqn:Hexit;
    destruct (obj_get o "status") as [| |[|]|n|s| |] eqn:Hs;
    cbn [truthy strict_eq_str orb negb];
    try (left; split; [reflexivity | auto]; fail);
    try (right; split; [discriminate | auto]; fail).
  - destruct n as [| | |m e]; cbn [truthy];
      try (left; split; [reflexivity | auto]; fail);
      try (right; split; [discriminate | auto]; fail).
    destruct (Z.eqb_spec m 0); cbn [negb];
      try (left; split; [reflexivity | auto]; fail);
      try (right; split; [discriminate | auto]; fail).
  - destruct (String.eqb_spec s "") as [-> | Hne]; cbn [negb];
      [left; split; [reflexivity | auto] |].
    destruct (String.eqb_spec s "active") as [-> | Hact]; cbn [orb];
      [left; split; [reflexivity | auto] |].
    destruct (String.eqb_spec s "closed") as [-> | Hcl];
      [left; split; [reflexivity | auto] |].
    right. split; [congruence | auto].
  - destruct n as [| | |m e]; cbn [truthy];
      try (left; split; [reflexivity | auto]; fail);
      try (right; split; [discriminate | auto]; fail).
    destruct (Z.eqb_spec m 0); cbn [negb];
      try (left; split; [reflexivity | auto]; fail);
      try (right; split; [discriminate | auto]; fail).
  - destruct (String.eqb_spec s "") as [-> | Hne]; cbn [negb];
      [left; split; [reflexivity | auto] |].
    destruct (String.eqb_spec s "active") as [-> | Hact]; cbn [orb];
      [left; split; [reflexivity | auto] |].
    right. split; [congruence |]. repeat split; auto.
Qed.

(** ** Looking a ticket up *)

Lemma id_is_readable (ticketId : string) (t : value) :
  readable t = true -> id_is ticketId t = Normal (has_id ticketId t).
Proof. destruct t; simpl; intros H; try discriminate; reflexivity. Qed.

Lemma has_id_truthy (ticketId : string) (t : value) :
  has_id ticketId t = true -> truthy t = true.
Proof. destruct t; simpl; try discriminate. reflexivity. Qed.

(** A search with [find] answers a ticket of the collection that carries
    the identifier, or [undefined], or throws on an unreadable entry. *)
Lemma find_list_id_is_cases (ticketId : string) (l : list value) :
  (exists t, find_list (id_is ticketId) l = Normal t /\
             In t l /\ has_id ticketId t = true) \/
  find_list (id_is ticketId) l = Normal VUndefined \/
  find_list (id_is ticketId) l = Throw TypeError.
Proof.
  induction l as [|x l IH]; [right; left; reflexivity |].
  cbn [find_list].
  destruct (id_is_has_id ticketId x) as [-> | ->]; [| right; right; reflexivity].
  cbn [mbind completion_bind].
  destruct (has_id ticketId x) eqn:Hx.
  - left. exists x. split; [reflexivity |]. split; [now left | exact Hx].
  - destruct IH as [(t & -> & Hin & Ht) | [-> | ->]]; auto.
    left. exists t. split; [reflexivity |]. split; [now right | exact Ht].
Qed.

Lemma find_list_id_is (ticketId : string) (l : list value) :
  forallb readable l = true ->
  find_list (id_is ticketId) l = Normal (first_with_id ticketId l).
Proof.
  unfold first_with_id.
  induction l as [|t l IH]; intros H; [reflexivity |].
  simpl in H. apply andb_prop in H as [Ht Hl].
  cbn [find_list List.find]. rewrite (id_is_readable _ _ Ht). simpl.
  destruct (has_id ticketId t); [reflexivity | now apply IH].
Qed.

Lemma first_with_id_cases (ticketId : string) (l : list value) :
  (existsb (has_id ticketId) l = false /\ first_with_id ticketId l = VUndefined) \/
  (exists l1 t l2,
      l = l1 ++ t :: l2 /\ existsb (has_id ticketId) l1 = false /\
      has_id ticketId t = true /\ first_with_id ticketId l = t).
Proof.
  unfold first_with_id.
  induction l as [|x l IH]; [left; auto |].
  cbn [List.find existsb].
  destruct (has_id ticketId x) eqn:Hx.
  - right. exists [], x, l. auto.
  - destruct IH as [[H1 H2] | (l1 & t & l2 & -> & H1 & H2 & H3)].
    + left. auto.
    + right. exists (x :: l1), t, l2. simpl. rewrite Hx. auto.
Qed.

(** The run of [getTicketById], whatever the storage does. *)
Lemma getTicketById_run (ticketId : string) (w : world) :
  getTicketById ticketId w =
  let activeTickets :=
    if rejects w then VArr [] else stored (disk w) ACTIVE_TICKETS_KEY in
  match Array_find (id_is ticketId) activeTickets with
  | Normal activeTicket =>
      if truthy activeTicket then (Normal activeTicket, after_call w)
      else
        let w1 := after_call w in
        let historyTickets :=
          if rejects w1 then VArr [] else stored (disk w1) HISTORY_TICKETS_KEY in
        match Array_find (id_is ticketId) historyTickets with
        | Normal historyTicket =>
            (Normal (if truthy historyTicket then historyTicket else VNull),
             after_call w1)
        | Throw _ => (Normal VNull, after_call w1)
        end
  | Throw _ => (Normal VNull, after_call w)
  end.
Proof.
  unfold getTicketById, try_catch_io.
  rewrite io_bind_run, getActiveTickets_run.
  rewrite io_bind_run. unfold lift at 1. cbv zeta.
  destruct (Array_find (id_is ticketId) _) as [a|e]; [| reflexivity].
  destruct (truthy a); [reflexivity |].
  rewrite io_bind_run, getHistoryTickets_run.
  rewrite io_bind_run. unfold lift at 1.
  destruct (Array_find (id_is ticketId) _) as [h|e]; reflexivity.
Qed.

Lemma Array_find_stored (ticketId : string) (v : value) :
  (exists t, Array_find (id_is ticketId) v = Normal t /\
             In t (tickets_of v) /\ has_id ticketId t = true) \/
  Array_find (id_is ticketId) v = Normal VUndefined \/
  Array_find (id_is ticketId) v = Throw TypeError.
Proof.
  destruct v; try (right; right; reflexivity).
  apply find_list_id_is_cases.
Qed.

(** X8.  [getTicketById] never throws and never writes: the storage is as
    before.  What it answers is [null] or a ticket that carries the
    identifier and is stored in the active collection or in the history. *)
Theorem getTicketById_reads_only (ticketId : string) (w : world) :
  exists r w',
    getTicketById ticketId w = (Normal r, w') /\
    disk w' = disk w /\ writes w' = writes w /\ alerts w' = alerts w /\
    (r = VNull \/
     (has_id ticketId r = true /\
      (In r (tickets_of (stored (disk w) ACTIVE_TICKETS_KEY)) \/
       In r (tickets_of (stored (disk w) HISTORY_TICKETS_KEY))))).
Proof.
  rewrite getTicketById_run. cbv zeta.
  set (act := if rejects w then VArr [] else stored (disk w) ACTIVE_TICKETS_KEY).
  assert (Hact : forall t, In t (tickets_of act) ->
                           In t (tickets_of (stored (disk w) ACTIVE_TICKETS_KEY))).
  { unfold act. destruct (rejects w); [intros t [] | auto]. }
  destruct (Array_find_stored ticketId act) as [(t & -> & Hin & Ht) | [-> | ->]].
  - rewrite (has_id_truthy _ _ Ht). eexists _, _. split; [reflexivity |].
    repeat split; auto.
  - cbn [truthy].
    set (hist := if rejects (after_call w) then VArr []
                 else stored (disk (after_call w)) HISTORY_TICKETS_KEY).
    assert (Hhist : forall t, In t (tickets_of hist) ->
                      In t (tickets_of (stored (disk w) HISTORY_TICKETS_KEY))).
    { unfold hist. destruct (rejects (after_call w)); [intros t [] | auto]. }
    destruct (Array_find_stored ticketId hist) as [(t & -> & Hin & Ht) | [-> | ->]].
    + rewrite (has_id_truthy _ _ Ht). eexists _, _. split; [reflexivity |].
      repeat split; auto.
    + eexists _, _. split; [reflexivity |]. repeat split; auto.
    + eexists _, _. split; [reflexivity |]. repeat split; auto.
  - eexists _, _. split; [reflexivity |]. repeat split; auto.
Qed.

(** A lookup that finds the ticket among the active ones stops there. *)
Lemma getTicketById_found_active (ticketId : string) (w : world)
  (act : list value) (t : value) :
  faults w = [] ->
  stored (disk w) ACTIVE_TICKETS_KEY = VArr act ->
  forallb readable act = true ->
  List.find (has_id ticketId) act = Some t ->
  getTicketById ticketId w = (Normal t, after_call w).
Proof.
  intros Hf Hact Hra Hfind.
  rewrite getTicketById_run. cbv zeta.
  rewrite (rejects_healthy _ Hf), Hact. cbn [Array_find].
  rewrite (find_list_id_is _ _ Hra). unfold first_with_id. rewrite Hfind.
  apply find_some in Hfind as [_ Ht]. cbn [default from_option id].
  now rewrite (has_id_truthy _ _ Ht).
Qed.

(** X9.  On a storage that answers, with collections whose entries can be
    read, [getTicketById] answers the first active ticket that carries the
    identifier; when there is none, the first such ticket of the history;
    when there is none either, [null]. *)
Theorem getTicketById_active_first (ticketId : string) (w : world)
  (act hist : list value) :
  faults w = [] ->
  stored (disk w) ACTIVE_TICKETS_KEY = VArr act ->
  stored (disk w) HISTORY_TICKETS_KEY = VArr hist ->
  forallb readable act = true -> forallb readable hist = true ->
  fst (getTicketById ticketId w)
  = Normal (match List.find (has_id ticketId) act with
            | Some t => t
            | None =>
                match List.find (has_id ticketId) hist with
                | Some t => t
                | None => VNull
                end
            end).
Proof.
  intros Hf Hact Hhist Hra Hrh.
  rewrite getTicketById_run. cbv zeta.
  rewrite (rejects_healthy _ Hf), Hact. cbn [Array_find].
  rewrite (find_list_id_is _ _ Hra). unfold first_with_id.
  destruct (List.find (has_id ticketId) act) as [t|] eqn:Hfind.
  - apply find_some in Hfind as [_ Ht]. cbn [default from_option id].
    now rewrite (has_id_truthy _ _ Ht).
  - cbn [default from_option id truthy].
    rewrite (rejects_healthy _ (faults_after_call _ Hf)).
    change (disk (after_call w)) with (disk w). rewrite Hhist. cbn [Array_find].
    rewrite (find_list_id_is _ _ Hrh). unfold first_with_id.
    destruct (List.find (has_id ticketId) hist) as [t|] eqn:Hfind2.
    + apply find_some in Hfind2 as [_ Ht]. cbn [default from_option id].
      now rewrite (has_id_truthy _ _ Ht).
    + reflexivity.
Qed.

Lemma first_with_id_absent (ticketId : string) (l : list value) :
  existsb (has_id ticketId) l = false -> first_with_id ticketId l = VUndefined.
Proof.
  unfold first_with_id. induction l as [|x l IH]; [reflexivity |].
  simpl. intros H. apply orb_false_elim in H as [-> Hl]. now apply IH.
Qed.

Lemma first_with_id_app (ticketId : string) (l1 l2 : list value) :
  existsb (has_id ticketId) l1 = false ->
  first_with_id ticketId (l1 ++ l2) = first_with_id ticketId l2.
Proof.
  unfold first_with_id. induction l1 as [|x l IH]; [reflexivity |].
  simpl. intros H. apply orb_false_elim in H as [-> Hl]. now apply IH.
Qed.

(** A lookup that finds no ticket with the identifier among the active ones
    goes on to the history, whether or not the active entries can be read. *)
Lemma getTicketById_not_active (ticketId : string) (w : world) :
  faults w = [] ->
  existsb (has_id ticketId) (tickets_of (stored (disk w) ACTIVE_TICKETS_KEY))
  = false ->
  fst (getTicketById ticketId w) = Normal VNull \/
  fst (getTicketById ticketId w)
  = match Array_find (id_is ticketId) (stored (disk w) HISTORY_TICKETS_KEY) with
    | Normal historyTicket =>
        Normal (if truthy historyTicket then historyTicket else VNull)
    | Throw _ => Normal VNull
    end.
Proof.
  intros Hf Habs. rewrite getTicketById_run. cbv zeta.
  rewrite (rejects_healthy _ Hf).
  destruct (Array_find_stored ticketId (stored (disk w) ACTIVE_TICKETS_KEY))
    as [(t & _ & Hin & Ht) | [-> | ->]].
  - exfalso.
    assert (existsb (has_id ticketId)
              (tickets_of (stored (disk w) ACTIVE_TICKETS_KEY)) = true);
      [| congruence].
    apply existsb_exists. eauto.
  - right. cbn [truthy].
    rewrite (rejects_healthy _ (faults_after_call _ Hf)).
    change (disk (after_call w)) with (disk w).
    now destruct (Array_find _ _).
  - left. reflexivity.
Qed.

Lemma find_app_absent {A} (f : A -> bool) (l1 l2 : list A) :
  existsb f l1 = false -> List.find f (l1 ++ l2) = List.find f l2.
Proof.
  induction l1 as [|x l IH]; [reflexivity |].
  simpl. intros H. apply orb_false_elim in H as [-> Hl]. now apply IH.
Qed.

Lemma readable_app (l1 l2 : list value) :
  forallb readable (l1 ++ l2) = forallb readable l1 && forallb readable l2.
Proof. apply forallb_app. Qed.

Section LookupAfter.

Variable uuidv4 : nat -> string.
Variable now_at : nat -> string.

(** X10.  On a storage on which no call fails, whose active collection is
    an array of records that can be read (no [null] entry), none of them
    with the coming identifier: a ticket that [addTicket] opens from a
    name, an entry time and a finite rate is what [getTicketById] then
    answers for its identifier. *)
Theorem getTicketById_after_addTicket (name entry : string) (price : number)
  (old : list value) (w : world) :
  faults w = [] ->
  stored (disk w) ACTIVE_TICKETS_KEY = VArr old ->
  forallb readable old = true ->
  existsb (has_id (uuidv4 (ids_minted w))) old = false ->
  JSON.writable price = true ->
  exists t w1,
    addTicket uuidv4 now_at
      [("parkingName", VStr name); ("entryTime", VStr entry);
       ("pricePerHour", VNum price)] w = (Normal (Some t), w1) /\
    field t "id" = VStr (uuidv4 (ids_minted w)) /\
    field t "status" = VStr "active" /\
    fst (getTicketById (uuidv4 (ids_minted w)) w1) = Normal t.
Proof.
  intros Hf Hold Hread Hfresh Hprice.
  eexists _, _. split; [apply (addTicket_healthy _ _ _ _ _ _ _ Hf Hold) |].
  split; [reflexivity |]. split; [reflexivity |].
  set (t := opened_record _ _ _ _ _ _).
  rewrite getTicketById_run. cbv zeta.
  assert (Hf1 : faults (after_open old t w) = []) by exact Hf.
  rewrite (rejects_healthy _ Hf1).
  assert (Hst : stored (disk (after_open old t w)) ACTIVE_TICKETS_KEY
                = VArr (old ++ [t])).
  { simpl disk. apply stored_written.
    rewrite forallb_app, (tickets_clean _ _ _ Hold).
    cbn [forallb andb]. unfold t. now rewrite clean_opened_record. }
  rewrite Hst. cbn [Array_find].
  rewrite find_list_id_is
    by (rewrite readable_app, Hread; reflexivity).
  rewrite (first_with_id_app _ _ _ Hfresh).
  unfold first_with_id, t, opened_record.
  cbn [List.find has_id obj_get String.eqb Ascii.eqb Bool.eqb strict_eq_str].
  rewrite String.eqb_refl. reflexivity.
Qed.

End LookupAfter.

Lemma readable_splice1 (l : list value) : forall i,
  forallb readable l = true -> forallb readable (splice1 l i) = true.
Proof.
  unfold splice1.
  induction l as [|t l IH]; intros [|i] H; simpl in *; auto.
  - apply andb_prop in H as [_ H]. now rewrite drop_0.
  - apply andb_prop in H as [-> H]. simpl. now apply IH.
Qed.

(** The two collections as they are stored after a successful close on a
    healthy storage. *)
Lemma closeTicket_true_stored (ticketId exitTime : string)
  (totalAmount : number) (w w' : world) :
  faults w = [] ->
  closeTicket ticketId exitTime totalAmount w = (Normal true, w') ->
  JSON.writable totalAmount = true ->
  exists act k o hist,
    stored (disk w) ACTIVE_TICKETS_KEY = VArr act /\
    act !! k = Some (VObj o) /\
    has_id ticketId (VObj o) = true /\
    stored (disk w) HISTORY_TICKETS_KEY = VArr hist /\
    faults w' = [] /\
    stored (disk w') ACTIVE_TICKETS_KEY = VArr (splice1 act k) /\
    stored (disk w') HISTORY_TICKETS_KEY
    = VArr (hist ++ [VObj (closed_record o exitTime totalAmount)]) /\
    has_id ticketId (VObj (closed_record o exitTime totalAmount)) = true.
Proof.
  intros Hf Hclose Hamount.
  destruct (closeTicket_true_healthy _ _ _ _ _ Hf Hclose)
    as (act & k & o & hist & Hact & Hk & Ho & Hbefore & Hhist & ->).
  assert (Hca : forallb JSON.clean act = true) by exact (tickets_clean _ _ _ Hact).
  assert (Hch : forallb JSON.clean hist = true) by exact (tickets_clean _ _ _ Hhist).
  exists act, k, o, hist.
  split; [exact Hact |]. split; [exact Hk |]. split; [exact Ho |].
  split; [exact Hhist |]. split; [simpl; now rewrite Hf |].
  split; [| split].
  - simpl disk. rewrite stored_after_history_write.
    apply stored_written. now apply clean_splice1.
  - simpl disk. apply stored_written.
    rewrite forallb_app, Hch. cbn [forallb andb].
    rewrite clean_closed_record; auto.
    exact (clean_lookup _ _ _ Hca Hk).
  - simpl. simpl in Ho.
    destruct (closed_record_fields o exitTime totalAmount) as (_ & _ & _ & Hother).
    rewrite Hother by discriminate. exact Ho.
Qed.

(** X11.  On a storage on which no call fails, whose two collections hold
    only records that can be read (no [null] entry), with the identifier
    carried by at most one active ticket and by no ticket of the history:
    after a close that answered [true], with a finite total,
    [getTicketById] answers the closed record for the identifier: the
    ticket is no longer found among the active ones but in the history,
    with its exit time, its total and the status closed. *)
Theorem getTicketById_after_closeTicket (ticketId exitTime : string)
  (totalAmount : number) (w w' : world) :
  faults w = [] ->
  closeTicket ticketId exitTime totalAmount w = (Normal true, w') ->
  (count_id ticketId (tickets_of (stored (disk w) ACTIVE_TICKETS_KEY)) <= 1)%nat ->
  forallb readable (tickets_of (stored (disk w) ACTIVE_TICKETS_KEY)) = true ->
  existsb (has_id ticketId) (tickets_of (stored (disk w) HISTORY_TICKETS_KEY))
  = false ->
  forallb readable (tickets_of (stored (disk w) HISTORY_TICKETS_KEY)) = true ->
  JSON.writable totalAmount = true ->
  exists closed,
    fst (getTicketById ticketId w') = Normal closed /\
    has_id ticketId closed = true /\
    field closed "status" = VStr "closed" /\
    field closed "exitTime" = VStr exitTime /\
    field closed "totalAmount" = VNum totalAmount /\
    existsb (has_id ticketId) (tickets_of (stored (disk w') ACTIVE_TICKETS_KEY))
    = false.
Proof.
  intros Hf Hclose Hcount Hreada Hnew Hread Hamount.
  destruct (closeTicket_true_stored _ _ _ _ _ Hf Hclose Hamount)
    as (act & k & o & hist & Hact & Hk & Ho & Hhist & Hf' & Hsa & Hsh & Hid).
  rewrite Hact in Hcount, Hreada. rewrite Hhist in Hnew, Hread.
  cbn [tickets_of] in *.
  set (closed := closed_record o exitTime totalAmount) in *.
  assert (Hgone : existsb (has_id ticketId) (splice1 act k) = false).
  { apply (splice1_unique _ _ _ _ Hk Ho Hcount). }
  exists (VObj closed).
  split.
  - rewrite getTicketById_run. cbv zeta.
    rewrite (rejects_healthy _ Hf'), Hsa. cbn [Array_find].
    rewrite find_list_id_is by now apply readable_splice1.
    rewrite (first_with_id_absent _ _ Hgone). cbn [truthy].
    rewrite (rejects_healthy _ (faults_after_call _ Hf')).
    change (disk (after_call w')) with (disk w'). rewrite Hsh.
    cbn [Array_find].
    rewrite find_list_id_is by (rewrite readable_app, Hread; reflexivity).
    rewrite (first_with_id_app _ _ _ Hnew).
    unfold first_with_id. cbn [List.find]. now rewrite Hid.
  - split; [exact Hid |].
    destruct (closed_record_fields o exitTime totalAmount) as (H1 & H2 & H3 & _).
    split; [exact H3 |]. split; [exact H1 |]. split; [exact H2 |].
    rewrite Hsa. exact Hgone.
Qed.

Lemma filter_list_normal (ticketId : string) (l r : list value) :
  filter_list (id_is_not ticketId) l = Normal r -> r = without_id ticketId l.
Proof.
  intros H. destruct (filter_list_spec ticketId l) as [H' | H'];
    rewrite H' in H; [now injection H | discriminate].
Qed.

(** X12.  After a successful removal from the history on a healthy storage,
    [getTicketById] answers [null] for the identifier, unless an active
    ticket carries it. *)
Theorem getTicketById_after_deleteHistoryTicket (ticketId : string)
  (w w' : world) :
  faults w = [] ->
  deleteHistoryTicket ticketId w = (Normal true, w') ->
  existsb (has_id ticketId) (tickets_of (stored (disk w) ACTIVE_TICKETS_KEY))
  = false ->
  fst (getTicketById ticketId w') = Normal VNull /\
  existsb (has_id ticketId) (tickets_of (stored (disk w') HISTORY_TICKETS_KEY))
  = false /\
  stored (disk w') ACTIVE_TICKETS_KEY = stored (disk w) ACTIVE_TICKETS_KEY.
Proof.
  intros Hf Hdel Hact.
  rewrite deleteHistoryTicket_run, (rejects_healthy _ Hf) in Hdel.
  destruct (stored (disk w) HISTORY_TICKETS_KEY) as [| | | | |hist|] eqn:Hhist;
    try discriminate Hdel.
  cbn [Array_filter] in Hdel.
  destruct (filter_list (id_is_not ticketId) hist) as [l|e] eqn:Hfilter;
    [| discriminate Hdel].
  apply filter_list_normal in Hfilter as ->.
  rewrite saveHistoryTickets_run,
    (rejects_healthy _ (faults_after_call _ Hf)) in Hdel.
  injection Hdel as <-.
  set (w' := after_write HISTORY_TICKETS_KEY _ _).
  assert (Hf' : faults w' = []) by (simpl; now rewrite Hf).
  assert (Hsa : stored (disk w') ACTIVE_TICKETS_KEY
                = stored (disk w) ACTIVE_TICKETS_KEY).
  { simpl disk. apply stored_after_history_write. }
  assert (Hsh : stored (disk w') HISTORY_TICKETS_KEY
                = VArr (without_id ticketId hist)).
  { simpl disk. apply stored_written. apply clean_without_id.
    exact (tickets_clean _ _ _ Hhist). }
  split; [| split; [rewrite Hsh; apply without_id_removes | exact Hsa]].
  rewrite <- Hsa in Hact.
  destruct (getTicketById_not_active _ _ Hf' Hact) as [H | ->]; [exact H |].
  rewrite Hsh. cbn [Array_find].
  destruct (find_list_id_is_cases ticketId (without_id ticketId hist))
    as [(t & _ & Hin & Ht) | [-> | ->]]; try reflexivity.
  exfalso.
  assert (existsb (has_id ticketId) (without_id ticketId hist) = true);
    [apply existsb_exists; eauto |].
  rewrite without_id_removes in H. discriminate.
Qed.

(** X13.  An entry of the active collection that cannot be read, a [null]
    for instance, hides every ticket stored after it: for a ticket that
    comes later in the active collection, or that is in the history,
    [getTicketById] answers [null] and [closeTicket] answers [false] and
    writes nothing. *)
Theorem unreadable_entry_hides_tickets (ticketId exitTime : string)
  (totalAmount : number) (w : world) (l1 l2 : list value) (bad : value) :
  rejects w = false ->
  stored (disk w) ACTIVE_TICKETS_KEY = VArr (l1 ++ bad :: l2) ->
  readable bad = false ->
  existsb (has_id ticketId) l1 = false ->
  forallb readable l1 = true ->
  fst (getTicketById ticketId w) = Normal VNull /\
  closeTicket ticketId exitTime totalAmount w = (Normal false, after_call w) /\
  disk (after_call w) = disk w.
Proof.
  intros Hrej Hact Hbad Habs Hread.
  assert (Hfind : find_list (id_is ticketId) (l1 ++ bad :: l2) = Throw TypeError).
  { clear Hact. induction l1 as [|x l IH]; simpl in *.
    - destruct bad; try discriminate Hbad; reflexivity.
    - apply orb_false_elim in Habs as [Hx Hl].
      apply andb_prop in Hread as [Hrx Hrl].
      rewrite (id_is_readable _ _ Hrx), Hx. simpl. now apply IH. }
  assert (Hindex : forall i, findIndex_from (id_is ticketId) (l1 ++ bad :: l2) i
                             = Throw TypeError).
  { clear Hact Hfind. induction l1 as [|x l IH]; intros i; simpl in *.
    - destruct bad; try discriminate Hbad; reflexivity.
    - apply orb_false_elim in Habs as [Hx Hl].
      apply andb_prop in Hread as [Hrx Hrl].
      rewrite (id_is_readable _ _ Hrx), Hx. simpl. now apply IH. }
  split; [| split; [| reflexivity]].
  - rewrite getTicketById_run. cbv zeta.
    rewrite Hrej, Hact. cbn [Array_find]. now rewrite Hfind.
  - rewrite closeTicket_run. cbv zeta.
    rewrite Hrej, Hact. cbn [Array_findIndex]. now rewrite Hindex.
Qed.

(** ** The storage interface *)

Lemma findIndex_present (ticketId : string) (l : list value) : forall i,
  forallb readable l = true ->
  existsb (has_id ticketId) l = true ->
  exists k t,
    findIndex_from (id_is ticketId) l i = Normal (Some (i + k)%nat) /\
    l !! k = Some t /\ has_id ticketId t = true /\
    existsb (has_id ticketId) (take k l) = false.
Proof.
  induction l as [|x l IH]; intros i Hread Hex; [discriminate |].
  simpl in Hread. apply andb_prop in Hread as [Hx Hl].
  cbn [findIndex_from]. rewrite (id_is_readable _ _ Hx).
  cbn [mbind completion_bind].
  destruct (has_id ticketId x) eqn:Hid.
  - exists 0%nat, x. rewrite Nat.add_0_r. auto.
  - simpl in Hex. rewrite Hid in Hex. simpl in Hex.
    destruct (IH (S i) Hl Hex) as (k & t & Hfind & Hk & Ht & Hbefore).
    exists (S k), t. rewrite Hfind.
    split; [do 2 f_equal; lia |]. split; [exact Hk |]. split; [exact Ht |].
    simpl. now rewrite Hid.
Qed.

(** The run of a close that finds its ticket on a healthy storage. *)
Lemma closeTicket_present (ticketId exitTime : string)
  (totalAmount : number) (w : world) (act hist : list value) :
  faults w = [] ->
  stored (disk w) ACTIVE_TICKETS_KEY = VArr act ->
  stored (disk w) HISTORY_TICKETS_KEY = VArr hist ->
  forallb readable act = true ->
  existsb (has_id ticketId) act = true ->
  exists k t,
    act !! k = Some t /\ has_id ticketId t = true /\
    existsb (has_id ticketId) (take k act) = false /\
    closeTicket ticketId exitTime totalAmount w
    = (Normal true,
       after_write HISTORY_TICKETS_KEY
         (JSON_stringify
            (VArr (hist ++ [VObj (closed_record (own_props t) exitTime
                                    totalAmount)])))
         (after_call (after_call
            (after_write ACTIVE_TICKETS_KEY
               (JSON_stringify (VArr (splice1 act k)))
               (after_call (after_call w)))))).
Proof.
  intros Hf Hact Hhist Hread Hex.
  destruct (findIndex_present ticketId act 0 Hread Hex)
    as (k & t & Hfind & Hk & Ht & Hbefore).
  exists k, t. split; [exact Hk |]. split; [exact Ht |]. split; [exact Hbefore |].
  rewrite closeTicket_run. cbv zeta.
  rewrite (rejects_healthy _ Hf), Hact. cbn [Array_findIndex tickets_of].
  rewrite Hfind. cbn [Nat.add].
  rewrite saveActiveTickets_run,
    (rejects_healthy _ (faults_after_call _ Hf)). cbn [snd].
  set (w2 := after_write ACTIVE_TICKETS_KEY _ _).
  assert (Hf2 : faults w2 = []) by (simpl; now rewrite Hf).
  rewrite (rejects_healthy _ Hf2).
  replace (stored (disk w2) HISTORY_TICKETS_KEY) with (VArr hist).
  2:{ simpl disk. now rewrite stored_after_active_write. }
  rewrite saveHistoryTickets_run,
    (rejects_healthy _ (faults_after_call _ Hf2)). cbn [snd].
  unfold element. rewrite Hk. reflexivity.
Qed.

(** X14.  On a healthy storage whose two collections are arrays, with active
    entries that can be read, [closeTicket] succeeds for every identifier
    that an active ticket carries: the first such ticket leaves the active
    collection and its closed record is appended to the history. *)
Theorem closeTicket_succeeds_for_active_ticket (ticketId exitTime : string)
  (totalAmount : number) (w : world) (act hist : list value) :
  faults w = [] ->
  stored (disk w) ACTIVE_TICKETS_KEY = VArr act ->
  stored (disk w) HISTORY_TICKETS_KEY = VArr hist ->
  forallb readable act = true ->
  existsb (has_id ticketId) act = true ->
  exists w' k t,
    closeTicket ticketId exitTime totalAmount w = (Normal true, w') /\
    act !! k = Some t /\ has_id ticketId t = true /\
    existsb (has_id ticketId) (take k act) = false /\
    disk w' !! ACTIVE_TICKETS_KEY
    = Some (JSON_stringify (VArr (splice1 act k))) /\
    disk w' !! HISTORY_TICKETS_KEY
    = Some (JSON_stringify
              (VArr (hist ++ [VObj (closed_record (own_props t) exitTime
                                      totalAmount)]))) /\
    (forall key, key <> ACTIVE_TICKETS_KEY -> key <> HISTORY_TICKETS_KEY ->
                 disk w' !! key = disk w !! key).
Proof.
  intros Hf Hact Hhist Hread Hex.
  destruct (closeTicket_present ticketId exitTime totalAmount w act hist
              Hf Hact Hhist Hread Hex) as (k & t & Hk & Ht & Hbefore & Hrun).
  eexists _, k, t. split; [exact Hrun |].
  split; [exact Hk |]. split; [exact Ht |]. split; [exact Hbefore |].
  split; [| split].
  - simpl disk. rewrite lookup_insert_ne by (apply not_eq_sym, keys_differ).
    apply lookup_insert_eq.
  - simpl disk. apply lookup_insert_eq.
  - intros key H1 H2. simpl disk.
    rewrite lookup_insert_ne by congruence.
    now rewrite lookup_insert_ne by congruence.
Qed.

(** X15.  A ticket is closed once.  After a successful close, on a healthy
    storage, of the only active ticket with the identifier, a second close
    of the identifier answers [false] and writes nothing: the history keeps
    the exit time and the total of the first close. *)
Theorem closeTicket_only_once (ticketId exitTime exitTime' : string)
  (totalAmount totalAmount' : number) (w w' : world) :
  faults w = [] ->
  closeTicket ticketId exitTime totalAmount w = (Normal true, w') ->
  (count_id ticketId (tickets_of (stored (disk w) ACTIVE_TICKETS_KEY)) <= 1)%nat ->
  exists w'',
    closeTicket ticketId exitTime' totalAmount' w' = (Normal false, w'') /\
    disk w'' = disk w' /\ writes w'' = writes w' /\
    alerts w'' = alerts w'.
Proof.
  intros Hf H Hunique. exists (after_call w').
  split; [| repeat split].
  exact (closeTicket_twice ticketId exitTime exitTime' totalAmount
           totalAmount' w w' Hf H Hunique).
Qed.

Section ReportedFailures.

Variable uuidv4 : nat -> string.
Variable now_at : nat -> string.

(** [addTicket] on a storage that rejects its write. *)
Lemma addTicket_rejected (ticket : object) (w : world) :
  rejects (after_call w) = true ->
  exists w',
    addTicket uuidv4 now_at ticket w = (Normal None, w') /\
    disk w' = disk w /\ writes w' = writes w /\ alerts w' = alerts w /\
    ids_minted w' = S (ids_minted w).
Proof.
  intros Hrej.
  unfold addTicket, try_catch_io, mbind, io_bind, generateTicketId,
    Date_now_toISOString, createQRCodeData, lift. simpl.
  rewrite getActiveTickets_run. simpl.
  match goal with
  | |- context [Array_push ?a ?x] => destruct (Array_push a x)
  end; [| eexists; split; [reflexivity |]; auto].
  rewrite saveActiveTickets_run.
  replace (rejects (after_call _)) with true.
  eexists. split; [reflexivity |]. auto.
Qed.

(** X16.  When the storage rejects their write, [addTicket] answers [null]
    and [deleteHistoryTicket] answers [false], and what is stored stays as
    it was; [addTicket] has then used up an identifier. *)
Theorem rejected_write_is_reported (ticket : object) (ticketId : string)
  (w : world) :
  rejects (after_call w) = true ->
  (exists w',
      addTicket uuidv4 now_at ticket w = (Normal None, w') /\
      disk w' = disk w /\ writes w' = writes w /\
      ids_minted w' = S (ids_minted w)) /\
  (exists w',
      deleteHistoryTicket ticketId w = (Normal false, w') /\
      disk w' = disk w /\ writes w' = writes w).
Proof.
  intros Hrej. split.
  - destruct (addTicket_rejected ticket w Hrej) as (w' & H1 & H2 & H3 & _ & H5).
    exists w'. auto.
  - rewrite deleteHistoryTicket_run.
    destruct (Array_filter _ _);
      [| eexists; split; [reflexivity |]; auto].
    rewrite saveHistoryTickets_run, Hrej.
    eexists. split; [reflexivity |]. auto.
Qed.

Variable String_trim : string -> string.
Variable parseInt : string -> number.

(** X17.  When the form is valid and the storage rejects the write,
    [handleSave] tells the user that the ticket could not be created, and
    nothing is stored. *)
Theorem handleSave_reports_failed_write (f : form) (w : world) :
  String_trim (parkingName f) <> "" ->
  num_pos (parseInt (pricePerHour f)) ->
  useCurrentTime f = true \/ entryTime f <> "" ->
  rejects (after_call w) = true ->
  exists w',
    handleSave uuidv4 now_at String_trim parseInt f w = (Normal tt, w') /\
    alerts w' = Alert "Erreur" "Impossible de créer le ticket" :: alerts w /\
    disk w' = disk w /\ writes w' = writes w.
Proof.
  intros Hname Hprice Htime Hrej.
  assert (Hentry : exists entry w0,
             (if useCurrentTime f then getCurrentDateTime now_at
              else mret (entryTime f)) w = (Normal entry, w0) /\
             rejects (after_call w0) = true /\ disk w0 = disk w /\
             writes w0 = writes w /\ alerts w0 = alerts w).
  { destruct (useCurrentTime f); eexists _, _; (split; [reflexivity |]); auto. }
  destruct Hentry as (entry & w0 & Hrun & Hrej0 & Hd0 & Hw0 & Ha0).
  destruct (addTicket_rejected
              [("parkingName", VStr (String_trim (parkingName f)));
               ("entryTime", VStr entry);
               ("pricePerHour", VNum (parseInt (pricePerHour f)))] w0 Hrej0)
    as (w1 & Hadd & Hd1 & Hw1 & Ha1 & _).
  exists (with_alert (Alert "Erreur" "Impossible de créer le ticket") w1).
  split.
  - unfold handleSave.
    apply String.eqb_neq in Hname. rewrite !truthy_str, Hname. cbn [negb].
    rewrite (num_pos_valid _ Hprice). cbv iota.
    assert (Hgate : negb (useCurrentTime f)
                    && negb (negb (String.eqb (entryTime f) "")) = false).
    { destruct Htime as [-> | Ht]; [reflexivity |].
      apply String.eqb_neq in Ht. rewrite Ht. now destruct (useCurrentTime f). }
    rewrite Hgate. cbv iota.
    rewrite io_bind_run, Hrun. unfold try_catch_io.
    rewrite io_bind_run, Hadd. reflexivity.
  - simpl. rewrite Ha1, Ha0, Hd1, Hd0, Hw1, Hw0. auto.
Qed.

End ReportedFailures.

(** X18.  A collection that was saved is what the next read returns, when
    its tickets are values that JSON can write; the other collection reads
    as before. *)
Theorem saved_collection_reads_back (l : list value) (w w1 : world) :
  forallb JSON.clean l = true ->
  (saveActiveTickets l w = (Normal true, w1) -> rejects w1 = false ->
   fst (getActiveTickets w1) = Normal (VArr l) /\
   stored (disk w1) HISTORY_TICKETS_KEY = stored (disk w) HISTORY_TICKETS_KEY) /\
  (saveHistoryTickets l w = (Normal true, w1) -> rejects w1 = false ->
   fst (getHistoryTickets w1) = Normal (VArr l) /\
   stored (disk w1) ACTIVE_TICKETS_KEY = stored (disk w) ACTIVE_TICKETS_KEY).
Proof.
  intros Hclean. split.
  - rewrite saveActiveTickets_run. destruct (rejects w); [discriminate |].
    intros [= <-] Hrej. rewrite getActiveTickets_run, Hrej. simpl disk.
    split; [now rewrite stored_written | apply stored_after_active_write].
  - rewrite saveHistoryTickets_run. destruct (rejects w); [discriminate |].
    intros [= <-] Hrej. rewrite getHistoryTickets_run, Hrej. simpl disk.
    split; [now rewrite stored_written | apply stored_after_history_write].
Qed.

(** ** Scanning a ticket's code *)

(** What [parseQRCodeData] returns is an object that was parsed from the
    text and has the required fields. *)
Lemma parseQRCodeData_some (data : string) (v : value) :
  parseQRCodeData data = Normal (Some v) ->
  exists q,
    v = VObj q /\ JSON_parse data = Normal (VObj q) /\
    truthy (obj_get q "id") = true /\
    truthy (obj_get q "parkingName") = true /\
    truthy (obj_get q "entryTime") = true /\
    is_undefined (obj_get q "pricePerHour") = false.
Proof.
  unfold parseQRCodeData.
  destruct (JSON_parse data) as [parsed|e]; [| discriminate].
  cbn [mbind completion_bind].
  destruct parsed as [| | | | | |q]; cbn; try discriminate.
  destruct (truthy (obj_get q "id")) eqn:H1; cbn; [| discriminate].
  destruct (truthy (obj_get q "parkingName")) eqn:H2; cbn; [| discriminate].
  destruct (truthy (obj_get q "entryTime")) eqn:H3; cbn; [| discriminate].
  destruct (is_undefined (obj_get q "pricePerHour")) eqn:H4; cbn; [discriminate |].
  intros [= <-]. exists q. repeat split; assumption.
Qed.

Lemma parseQRCodeData_total (data : string) :
  exists r, parseQRCodeData data = Normal r.
Proof.
  unfold parseQRCodeData.
  destruct (JSON_parse data) as [parsed|e]; [| eexists; reflexivity].
  cbn [mbind completion_bind].
  destruct (get_field parsed "id") as [id|]; [| eexists; reflexivity].
  cbn. destruct (truthy id); cbn; [| eexists; reflexivity].
  destruct (get_field parsed "parkingName") as [x|]; [| eexists; reflexivity].
  cbn. destruct (truthy x); cbn; [| eexists; reflexivity].
  destruct (get_field parsed "entryTime") as [y|]; [| eexists; reflexivity].
  cbn. destruct (truthy y); cbn; [| eexists; reflexivity].
  destruct (get_field parsed "pricePerHour") as [z|]; [| eexists; reflexivity].
  cbn. destruct (is_undefined z); eexists; reflexivity.
Qed.

Lemma truthy_defined (v : value) : truthy v = true -> is_undefined v = false.
Proof. destruct v; simpl; auto; discriminate. Qed.

Section Scanner.

Import QRScannerScreen.

(** What the screen shows for a ticket [t] found in storage. *)
Lemma handleBarCodeScanned_known (data : string) (q : object)
  (act hist : list value) (t : value) (s : state) (w : world) :
  scanning s = true ->
  parseQRCodeData data = Normal (Some (VObj q)) ->
  rejects w = false -> rejects (after_call w) = false ->
  stored (disk w) ACTIVE_TICKETS_KEY = VArr act ->
  stored (disk w) HISTORY_TICKETS_KEY = VArr hist ->
  forallb readable (act ++ hist) = true ->
  List.find (carries (obj_get q "id")) (act ++ hist) = Some t ->
  let isActive :=
    strict_eq_str (field t "status") "active"
    || negb (truthy (field t "exitTime")) in
  handleBarCodeScanned data s w
  = (Normal tt,
     State false false
       (VObj [("id", obj_get q "id"); ("parkingName", obj_get q "parkingName");
              ("entryTime", obj_get q "entryTime");
              ("pricePerHour", obj_get q "pricePerHour");
              ("generatedAt", obj_get q "timestamp");
              ("exitTime", field t "exitTime");
              ("totalAmount", field t "totalAmount");
              ("status",
               if truthy (field t "status") then field t "status"
               else if truthy (field t "exitTime") then VStr "closed"
                    else VStr "active")])
       (VObj [("isValid", VBool true); ("ticket", t);
              ("status", VStr (if isActive then "active" else "closed"));
              ("message",
               VStr (if isActive then "Ticket valide et actif"
                     else "Ticket clôturé (historique)"));
              ("foundInBase", VBool true)]),
     after_call (after_call w)).
Proof.
  intros Hs Hq Hr1 Hr2 Hact Hhist Hread Hfind isActive.
  destruct (parseQRCodeData_some _ _ Hq) as (q' & [= <-] & _ & Hid & _).
  assert (Hdef := truthy_defined _ Hid).
  assert (Hc := find_carries (obj_get q "id") (act ++ hist)).
  rewrite Hfind in Hc. destruct Hc as (_ & _ & Hc).
  destruct (carries_object _ _ Hdef Hc) as [o ->].
  unfold handleBarCodeScanned.
  unfold mbind, handler_bind, get_state, set_state, try_finally, try_catch_h,
    sync, await, call, mret, handler_ret.
  rewrite Hs, Hq. cbn [negb default from_option id truthy].
  rewrite getActiveTickets_run, getHistoryTickets_run, Hr1, Hr2.
  change (disk (after_call w)) with (disk w). rewrite Hact, Hhist.
  cbn [spread_elements get_field].
  rewrite (verifyTicket_found _ _ _ Hdef Hread Hfind).
  cbn [get_field obj_get String.eqb Ascii.eqb Bool.eqb truthy negb].
  unfold formatScannedTicketInfo.
  cbn [is_undefined truthy get_field mbind completion_bind app field
       own_props obj_set String.eqb Ascii.eqb Bool.eqb
       setScanning setLoading setScannedTicket setVerificationResult
       scanning loading scannedTicket verificationResult].
  reflexivity.
Qed.

(** What the screen shows for a code whose identifier no stored ticket
    carries. *)
Lemma handleBarCodeScanned_unknown (data : string) (q : object)
  (act hist : list value) (s : state) (w : world) :
  scanning s = true ->
  parseQRCodeData data = Normal (Some (VObj q)) ->
  rejects w = false -> rejects (after_call w) = false ->
  stored (disk w) ACTIVE_TICKETS_KEY = VArr act ->
  stored (disk w) HISTORY_TICKETS_KEY = VArr hist ->
  forallb readable (act ++ hist) = true ->
  List.find (carries (obj_get q "id")) (act ++ hist) = None ->
  handleBarCodeScanned data s w
  = (Normal tt,
     State false false (VObj q)
       (VObj [("isValid", VBool false); ("ticket", VNull);
              ("status", VStr "not_found");
              ("message", VStr "Ticket non trouvé dans la base locale");
              ("foundInBase", VBool false)]),
     after_call (after_call w)).
Proof.
  intros Hs Hq Hr1 Hr2 Hact Hhist Hread Hfind.
  unfold handleBarCodeScanned.
  unfold mbind, handler_bind, get_state, set_state, try_finally, try_catch_h,
    sync, await, call, mret, handler_ret.
  rewrite Hs, Hq. cbn [negb default from_option id truthy].
  rewrite getActiveTickets_run, getHistoryTickets_run, Hr1, Hr2.
  change (disk (after_call w)) with (disk w). rewrite Hact, Hhist.
  cbn [spread_elements get_field].
  rewrite (verifyTicket_absent _ _ Hread Hfind).
  reflexivity.
Qed.

(** X19.  While the screen is scanning, on a storage on which no call fails
    and whose two collections are arrays of records that can be read (no
    [null] entry): a code that [parseQRCodeData] accepts, an object whose
    identifier a stored ticket carries, is declared valid and found,
    whatever else the code says: the screen shows the name, the entry time
    and the rate that the code carries, not those of the stored ticket,
    together with the exit time and the total of the stored ticket.  The
    storage is read twice and not written, and no dialog is shown. *)
Theorem scan_shows_the_fields_of_the_code (data : string) (q : object)
  (act hist : list value) (t : value) (s : state) (w : world) :
  scanning s = true ->
  parseQRCodeData data = Normal (Some (VObj q)) ->
  faults w = [] ->
  stored (disk w) ACTIVE_TICKETS_KEY = VArr act ->
  stored (disk w) HISTORY_TICKETS_KEY = VArr hist ->
  forallb readable (act ++ hist) = true ->
  List.find (carries (obj_get q "id")) (act ++ hist) = Some t ->
  exists shown result w',
    handleBarCodeScanned data s w
    = (Normal tt, State false false (VObj shown) (VObj result), w') /\
    obj_get result "isValid" = VBool true /\
    obj_get result "foundInBase" = VBool true /\
    obj_get result "ticket" = t /\
    carries (obj_get q "id") t = true /\
    obj_get shown "id" = obj_get q "id" /\
    obj_get shown "parkingName" = obj_get q "parkingName" /\
    obj_get shown "entryTime" = obj_get q "entryTime" /\
    obj_get shown "pricePerHour" = obj_get q "pricePerHour" /\
    obj_get shown "generatedAt" = obj_get q "timestamp" /\
    obj_get shown "exitTime" = field t "exitTime" /\
    obj_get shown "totalAmount" = field t "totalAmount" /\
    disk w' = disk w /\ writes w' = writes w /\ alerts w' = alerts w /\
    storage_calls w' = S (S (storage_calls w)).
Proof.
  intros Hs Hq Hf Hact Hhist Hread Hfind.
  eexists _, _, _.
  split.
  { apply (handleBarCodeScanned_known _ _ _ _ _ _ _ Hs Hq
             (rejects_healthy _ Hf)
             (rejects_healthy _ (faults_after_call _ Hf)) Hact Hhist Hread Hfind). }
  assert (Hc := find_carries (obj_get q "id") (act ++ hist)).
  rewrite Hfind in Hc. destruct Hc as (_ & _ & Hc).
  repeat split; try reflexivity. exact Hc.
Qed.

(** X20.  While the screen is scanning, on a storage on which no call fails
    and whose two collections are arrays of records that can be read (no
    [null] entry): a code that [parseQRCodeData] accepts, an object whose
    identifier no stored ticket carries, is shown as it was read, with the
    verdict that the ticket was not found; nothing is written and no dialog
    is shown. *)
Theorem scan_of_unknown_ticket (data : string) (q : object)
  (act hist : list value) (s : state) (w : world) :
  scanning s = true ->
  parseQRCodeData data = Normal (Some (VObj q)) ->
  faults w = [] ->
  stored (disk w) ACTIVE_TICKETS_KEY = VArr act ->
  stored (disk w) HISTORY_TICKETS_KEY = VArr hist ->
  forallb readable (act ++ hist) = true ->
  existsb (carries (obj_get q "id")) (act ++ hist) = false ->
  exists result w',
    handleBarCodeScanned data s w
    = (Normal tt, State false false (VObj q) (VObj result), w') /\
    obj_get result "isValid" = VBool false /\
    obj_get result "foundInBase" = VBool false /\
    obj_get result "status" = VStr "not_found" /\
    obj_get result "ticket" = VNull /\
    disk w' = disk w /\ writes w' = writes w /\ alerts w' = alerts w.
Proof.
  intros Hs Hq Hf Hact Hhist Hread Habs.
  assert (Hfind : List.find (carries (obj_get q "id")) (act ++ hist) = None).
  { destruct (List.find _ _) eqn:H; [| reflexivity].
    assert (Hc := find_carries (obj_get q "id") (act ++ hist)).
    rewrite H in Hc. destruct Hc as (Hc & _). congruence. }
  eexists _, _.
  split.
  { apply (handleBarCodeScanned_unknown _ _ _ _ _ _ Hs Hq
             (rejects_healthy _ Hf)
             (rejects_healthy _ (faults_after_call _ Hf)) Hact Hhist Hread Hfind). }
  repeat split; reflexivity.
Qed.

(** X21.  While the screen is not scanning, a code is ignored.  A text that
    [parseQRCodeData] rejects is answered with a dialog and makes the
    screen scan again, without any access to the storage. *)
Theorem scan_ignored_or_rejected (data : string) (s : state) (w : world) :
  (scanning s = false ->
   handleBarCodeScanned data s w = (Normal tt, s, w)) /\
  (scanning s = true -> parseQRCodeData data = Normal None ->
   handleBarCodeScanned data s w
   = (Normal tt,
      State true false (scannedTicket s) (verificationResult s),
      with_alert
        (Alert "QR Code invalide"
           "Ce QR code ne contient pas de données valides de ticket") w)).
Proof.
  split.
  - intros Hs. unfold handleBarCodeScanned.
    unfold mbind, handler_bind, get_state. now rewrite Hs.
  - intros Hs Hq. unfold handleBarCodeScanned.
    unfold mbind, handler_bind, get_state, set_state, try_finally, try_catch_h,
      sync, await, call, mret, handler_ret.
    rewrite Hs, Hq. reflexivity.
Qed.

(** X22.  Whatever the text and whatever the storage does,
    [handleBarCodeScanned] does not throw, writes nothing, and leaves the
    screen not loading. *)
Theorem scan_never_throws_nor_writes (data : string) (s : state) (w : world) :
  scanning s = true ->
  exists s' w',
    handleBarCodeScanned data s w = (Normal tt, s', w') /\
    loading s' = false /\
    disk w' = disk w /\ writes w' = writes w.
Proof.
  intros Hs. unfold handleBarCodeScanned.
  unfold mbind, handler_bind, get_state, set_state, try_finally, try_catch_h,
    sync, await, call, mret, handler_ret.
  rewrite Hs. cbn [negb].
  destruct (parseQRCodeData_total data) as [r ->].
  destruct (truthy (default VNull r)).
  2:{ cbn [negb]. eexists _, _. split; [reflexivity |]. auto. }
  cbn [negb].
  rewrite getActiveTickets_run, getHistoryTickets_run.
  change (disk (after_call w)) with (disk w).
  destruct (spread_elements _) as [a|?];
    [| eexists _, _; split; [reflexivity |]; auto].
  destruct (spread_elements _) as [h|?];
    [| eexists _, _; split; [reflexivity |]; auto].
  destruct (get_field (default VNull r) "id") as [i|?];
    [| eexists _, _; split; [reflexivity |]; auto].
  destruct (verifyTicket (VArr (a ++ h)) i) as [v|?];
    [| eexists _, _; split; [reflexivity |]; auto].
  destruct (get_field v "isValid") as [b|?];
    [| eexists _, _; split; [reflexivity |]; auto].
  destruct (truthy b); cbn [negb];
    [| eexists _, _; split; [reflexivity |]; auto].
  destruct (get_field v "ticket") as [t|?];
    [| eexists _, _; split; [reflexivity |]; auto].
  destruct (formatScannedTicketInfo (default VNull r) t) as [info|?];
    eexists _, _; (split; [reflexivity |]); auto.
Qed.

Lemma carries_has_id (ticketId : string) (t : value) :
  carries (VStr ticketId) t = has_id ticketId t.
Proof.
  unfold carries. destruct t; try reflexivity.
  simpl. now destruct (obj_get o "id") as [| | |[| | |]| | |].
Qed.

Lemma find_carries_has_id (ticketId : string) (l : list value) :
  List.find (carries (VStr ticketId)) l = List.find (has_id ticketId) l.
Proof.
  induction l as [|x l IH]; [reflexivity |].
  simpl. rewrite carries_has_id, IH. reflexivity.
Qed.

(** The payload that [addTicket] stores in a ticket is accepted by
    [parseQRCodeData]. *)
Lemma parseQRCodeData_qr_payload (name entry : string) (price : number)
  (id timestamp : string) :
  id <> "" -> name <> "" -> entry <> "" -> JSON.writable price = true ->
  parseQRCodeData (JSON_stringify (qr_payload name entry price id timestamp))
  = Normal (Some (qr_payload name entry price id timestamp)).
Proof.
  intros Hid Hname Hentry Hprice.
  assert (Hclean : JSON.clean (qr_payload name entry price id timestamp) = true).
  { unfold qr_payload. change (JSON.writable price && true = true).
    now rewrite Hprice. }
  unfold parseQRCodeData, JSON_parse, JSON_stringify.
  rewrite (JSONFacts.parse_stringify _ Hclean). unfold qr_payload.
  apply String.eqb_neq in Hid, Hname, Hentry.
  simpl. rewrite Hid, Hname, Hentry. simpl.
  now destruct price.
Qed.

Section ScanOwnTicket.

Variable uuidv4 : nat -> string.
Variable now_at : nat -> string.

(** X23.  On a storage on which no call fails, whose two collections are
    arrays of records that can be read (no [null] entry), none of the
    active ones with the coming identifier: the code of a ticket that
    [addTicket] has just opened from a name and an entry time that are not
    empty and a finite rate, under an identifier that is not empty,
    scanned on the same device by a screen that is scanning, is
    recognised: the ticket is found, valid and active, and the screen
    shows its identifier, name, entry time and rate. *)
Theorem scan_of_opened_ticket (name entry : string) (price : number)
  (old hist : list value) (w : world) :
  faults w = [] ->
  stored (disk w) ACTIVE_TICKETS_KEY = VArr old ->
  stored (disk w) HISTORY_TICKETS_KEY = VArr hist ->
  forallb readable old = true -> forallb readable hist = true ->
  existsb (has_id (uuidv4 (ids_minted w))) old = false ->
  uuidv4 (ids_minted w) <> "" -> name <> "" -> entry <> "" ->
  JSON.writable price = true ->
  exists t w1 code shown result w2,
    addTicket uuidv4 now_at
      [("parkingName", VStr name); ("entryTime", VStr entry);
       ("pricePerHour", VNum price)] w = (Normal (Some t), w1) /\
    field t "qrCodeData" = VStr code /\
    handleBarCodeScanned code initial w1
    = (Normal tt, State false false (VObj shown) (VObj result), w2) /\
    obj_get result "isValid" = VBool true /\
    obj_get result "foundInBase" = VBool true /\
    obj_get result "status" = VStr "active" /\
    obj_get result "ticket" = t /\
    obj_get shown "id" = VStr (uuidv4 (ids_minted w)) /\
    obj_get shown "parkingName" = VStr name /\
    obj_get shown "entryTime" = VStr entry /\
    obj_get shown "pricePerHour" = VNum price /\
    obj_get shown "status" = VStr "active" /\
    disk w2 = disk w1.
Proof.
  intros Hf Hold Hhist Hro Hrh Hfresh Hid Hname Hentry Hprice.
  set (id := uuidv4 (ids_minted w)) in *.
  set (t := opened_record name entry price id (now_at (clock_reads w))
              (now_at (S (clock_reads w)))).
  set (payload := qr_payload name entry price id (now_at (S (clock_reads w)))).
  assert (Hadd := addTicket_healthy uuidv4 now_at name entry price old w Hf Hold).
  fold id t in Hadd.
  set (w1 := after_open old t w) in *.
  assert (Hf1 : faults w1 = []) by exact Hf.
  assert (Hsa : stored (disk w1) ACTIVE_TICKETS_KEY = VArr (old ++ [t])).
  { simpl disk. apply stored_written.
    rewrite forallb_app, (tickets_clean _ _ _ Hold).
    cbn [forallb andb]. unfold t. now rewrite clean_opened_record. }
  assert (Hsh : stored (disk w1) HISTORY_TICKETS_KEY = VArr hist).
  { simpl disk. now rewrite stored_after_active_write. }
  assert (Hparse := parseQRCodeData_qr_payload name entry price id
                      (now_at (S (clock_reads w))) Hid Hname Hentry Hprice).
  fold payload in Hparse.
  assert (Hread : forallb readable ((old ++ [t]) ++ hist) = true).
  { rewrite !forallb_app, Hro, Hrh. reflexivity. }
  assert (Hfind : List.find (carries (obj_get
                    [("id", VStr id); ("parkingName", VStr name);
                     ("entryTime", VStr entry); ("pricePerHour", VNum price);
                     ("timestamp", VStr (now_at (S (clock_reads w))))] "id"))
                    ((old ++ [t]) ++ hist) = Some t).
  { cbn [obj_get String.eqb Ascii.eqb Bool.eqb].
    rewrite find_carries_has_id, <- app_assoc.
    rewrite (find_app_absent _ _ _ Hfresh). simpl.
    now rewrite String.eqb_refl. }
  assert (Hs : scanning initial = true) by reflexivity.
  assert (Hrun := handleBarCodeScanned_known (JSON_stringify payload) _ _ _ _
                    initial w1 Hs Hparse (rejects_healthy _ Hf1)
                    (rejects_healthy _ (faults_after_call _ Hf1)) Hsa Hsh
                    Hread Hfind).
  cbv zeta in Hrun.
  exists t, w1, (JSON_stringify payload).
  eexists _, _, _.
  split; [exact Hadd |]. split; [reflexivity |]. split; [exact Hrun |].
  repeat split; reflexivity.
Qed.

End ScanOwnTicket.

(** X24.  On a storage on which no call fails, whose two collections hold
    only records that can be read (no [null] entry), with the identifier
    carried by at most one active ticket and by no ticket of the history:
    after a close that answered [true], with a finite total, a screen that
    is scanning and reads a code that [parseQRCodeData] accepts, an object
    with the ticket's identifier, recognises a closed ticket, provided the
    exit time is not the empty text: the screen shows the exit time and
    the total of the close.  With an empty exit time the verdict is that
    the ticket is active. *)
Theorem scan_of_closed_ticket (ticketId exitTime : string)
  (totalAmount : number) (data : string) (q : object) (s : state)
  (w w' : world) :
  faults w = [] ->
  closeTicket ticketId exitTime totalAmount w = (Normal true, w') ->
  (count_id ticketId (tickets_of (stored (disk w) ACTIVE_TICKETS_KEY)) <= 1)%nat ->
  forallb readable (tickets_of (stored (disk w) ACTIVE_TICKETS_KEY)) = true ->
  existsb (has_id ticketId) (tickets_of (stored (disk w) HISTORY_TICKETS_KEY))
  = false ->
  forallb readable (tickets_of (stored (disk w) HISTORY_TICKETS_KEY)) = true ->
  JSON.writable totalAmount = true ->
  scanning s = true ->
  parseQRCodeData data = Normal (Some (VObj q)) ->
  obj_get q "id" = VStr ticketId ->
  exists shown result w'',
    handleBarCodeScanned data s w'
    = (Normal tt, State false false (VObj shown) (VObj result), w'') /\
    obj_get result "isValid" = VBool true /\
    obj_get result "foundInBase" = VBool true /\
    obj_get result "status"
    = VStr (if String.eqb exitTime "" then "active" else "closed") /\
    obj_get shown "status" = VStr "closed" /\
    obj_get shown "exitTime" = VStr exitTime /\
    obj_get shown "totalAmount" = VNum totalAmount /\
    disk w'' = disk w'.
Proof.
  intros Hf Hclose Hcount Hreada Hnew Hread Hamount Hs Hq Hqid.
  destruct (closeTicket_true_stored _ _ _ _ _ Hf Hclose Hamount)
    as (act & k & o & hist & Hact & Hk & Ho & Hhist & Hf' & Hsa & Hsh & Hid).
  rewrite Hact in Hcount, Hreada. rewrite Hhist in Hnew, Hread.
  cbn [tickets_of] in *.
  set (closed := closed_record o exitTime totalAmount) in *.
  assert (Hgone : existsb (has_id ticketId) (splice1 act k) = false).
  { apply (splice1_unique _ _ _ _ Hk Ho Hcount). }
  assert (Hreadable : forallb readable (splice1 act k ++ hist ++ [VObj closed])
                      = true).
  { rewrite !forallb_app, (readable_splice1 _ _ Hreada), Hread. reflexivity. }
  assert (Hfind : List.find (carries (obj_get q "id"))
                    (splice1 act k ++ hist ++ [VObj closed])
                  = Some (VObj closed)).
  { rewrite Hqid, find_carries_has_id.
    rewrite (find_app_absent _ _ _ Hgone), (find_app_absent _ _ _ Hnew).
    cbn [List.find]. now rewrite Hid. }
  assert (Hrun := handleBarCodeScanned_known data q _ _ _ s w' Hs Hq
                    (rejects_healthy _ Hf')
                    (rejects_healthy _ (faults_after_call _ Hf')) Hsa Hsh
                    Hreadable Hfind).
  cbv zeta in Hrun.
  destruct (closed_record_fields o exitTime totalAmount) as (H1 & H2 & H3 & _).
  fold closed in H1, H2, H3.
  cbn [field] in Hrun. rewrite H1, H2, H3 in Hrun.
  cbn [truthy strict_eq_str String.eqb Ascii.eqb Bool.eqb orb negb] in Hrun.
  eexists _, _, _. split; [exact Hrun |].
  cbn [obj_get String.eqb Ascii.eqb Bool.eqb].
  repeat split; try reflexivity.
  now destruct (String.eqb exitTime "").
Qed.

End Scanner.

(** ** Scanning a code into the form *)

Lemma uuidv4_nonempty (n : nat) : Engine.uuidv4 n <> "".
Proof. discriminate. Qed.

Section SaveAfterScan.

Variable uuidv4 : nat -> string.
Variable now_at : nat -> string.
Variable String_trim : string -> string.
Variable parseInt : string -> number.

(** [handleSave] on a form with an entry time of its own. *)
Lemma handleSave_own_entry_time (f : form) (w : world) (old : list value) :
  String_trim (parkingName f) <> "" ->
  num_pos (parseInt (pricePerHour f)) ->
  useCurrentTime f = false -> entryTime f <> "" ->
  faults w = [] -> uuidv4 (ids_minted w) <> "" ->
  stored (disk w) ACTIVE_TICKETS_KEY = VArr old ->
  exists message,
    handleSave uuidv4 now_at String_trim parseInt f w
    = (Normal tt,
       with_alert (Alert "Ticket créé avec succès! 🎫" message)
         (after_open old
            (opened_record (String_trim (parkingName f)) (entryTime f)
               (parseInt (pricePerHour f)) (uuidv4 (ids_minted w))
               (now_at (clock_reads w)) (now_at (S (clock_reads w))))
            w)).
Proof.
  intros Hname Hprice Huse Hentry Hf Hid Hold.
  assert (Hadd := addTicket_healthy uuidv4 now_at
                    (String_trim (parkingName f)) (entryTime f)
                    (parseInt (pricePerHour f)) old w Hf Hold).
  eexists. unfold handleSave.
  apply String.eqb_neq in Hname, Hentry, Hid.
  rewrite !truthy_str, Hname. cbn [negb].
  rewrite (num_pos_valid _ Hprice). cbv iota.
  rewrite Huse, Hentry. cbn [negb andb].
  rewrite io_bind_run. cbn [mret io_ret]. unfold try_catch_io.
  rewrite io_bind_run, Hadd. unfold opened_record at 1.
  rewrite io_bind_run. unfold lift at 1. simpl get_field. cbv iota beta.
  rewrite truthy_str, Hid. cbn [negb].
  rewrite io_bind_run. reflexivity.
Qed.

End SaveAfterScan.

Section FormScanner.

Import NewTicketScreen.

Lemma to_string_nonempty_string (s : string) : to_string (VStr s) = Normal s.
Proof. reflexivity. Qed.

(** What a scan does to the form for a code with a name and a positive
    whole rate. *)
Lemma form_scan_accepts (data : string) (q : object) (name : string) (p : Z)
  (s : state) (w : world) :
  JSON_parse data = Normal (VObj q) ->
  obj_get q "parkingName" = VStr name -> name <> "" ->
  obj_get q "pricePerHour" = VNum (Int p) -> (0 < p < 10 ^ 21)%Z ->
  handleBarCodeScanned data s w
  = (Normal tt,
     State (VStr name) (JSON.digits (Z.to_N p))
       (if truthy (obj_get q "entryTime") then obj_get q "entryTime"
        else entryTime s)
       (if truthy (obj_get q "entryTime") then false else useCurrentTime s)
       false,
     with_alert
       (Alert "QR Code scanné avec succès"
          ("Parking : " +:+ name +:+ newline
           +:+ "Tarif : " +:+ JSON.digits (Z.to_N p) +:+ " FCFA/h")) w).
Proof.
  intros Hparse Hname Hne Hrate Hp.
  unfold handleBarCodeScanned.
  unfold mbind, handler_bind, set_state, try_catch_h, sync, await, call, mret,
    handler_ret.
  apply String.eqb_neq in Hne.
  assert (Htr : truthy (VNum (Int p)) = true).
  { simpl. destruct (Z.eqb_spec p 0); [lia | reflexivity]. }
  rewrite Hparse. cbn [get_field]. rewrite Hname.
  cbn [truthy]. rewrite Hne. cbn [negb get_field]. rewrite !Hrate, !Htr.
  cbn [method_toString to_string]. rewrite (Number_toString_Int p) by lia.
  destruct (truthy (obj_get q "entryTime")); reflexivity.
Qed.

(** X25.  A text that is not JSON, or the JSON text [null], makes the form's
    scanner show a reading error; a code without a name or without a rate,
    or whose rate is 0, is shown as invalid.  In each case the fields of
    the form stay as they were. *)
Theorem form_scan_rejects (data : string) (s : state) (w : world) :
  (JSON_parse data = Throw SyntaxError \/ JSON_parse data = Normal VNull ->
   handleBarCodeScanned data s w
   = (Normal tt, setScanning false s,
      with_alert
        (Alert "Erreur de lecture"
           "Impossible de lire le QR Code. Veuillez réessayer.") w)) /\
  (forall q,
     JSON_parse data = Normal (VObj q) ->
     truthy (obj_get q "parkingName") = false \/
     truthy (obj_get q "pricePerHour") = false \/
     obj_get q "pricePerHour" = VNum (Int 0) ->
     handleBarCodeScanned data s w
     = (Normal tt, setScanning false s,
        with_alert
          (Alert "QR Code invalide"
             "Le QR Code ne contient pas les informations nécessaires") w)).
Proof.
  split.
  - intros [H | H]; unfold handleBarCodeScanned;
      unfold mbind, handler_bind, set_state, try_catch_h, sync, await, call, mret,
        handler_ret; rewrite H; reflexivity.
  - intros q Hparse Hbad.
    unfold handleBarCodeScanned.
    unfold mbind, handler_bind, set_state, try_catch_h, sync, await, call, mret,
      handler_ret.
    rewrite Hparse. cbn [get_field].
    destruct (truthy (obj_get q "parkingName")) eqn:Hname.
    + assert (Hrate : truthy (obj_get q "pricePerHour") = false).
      { destruct Hbad as [H | [H | H]]; [discriminate | exact H |].
        rewrite H. reflexivity. }
      rewrite Hrate. reflexivity.
    + rewrite Hname. reflexivity.
Qed.

(** X26.  Whatever the text, the form's scanner does not throw, shows
    exactly one dialog, stops scanning and does not touch the storage. *)
Theorem form_scan_never_throws (data : string) (s : state) (w : world) :
  exists s' a,
    handleBarCodeScanned data s w
    = (Normal tt, s', with_alert a w) /\
    scanning s' = false.
Proof.
  unfold handleBarCodeScanned.
  unfold mbind, handler_bind, set_state, try_catch_h, sync, await, call, mret,
    handler_ret.
  destruct (JSON_parse data) as [parsed|e];
    [| eexists _, _; split; reflexivity].
  destruct (get_field parsed "parkingName") as [name|e] eqn:Hname;
    [| eexists _, _; split; reflexivity].
  assert (Hrate : exists rate, get_field parsed "pricePerHour" = Normal rate).
  { destruct parsed; try discriminate Hname; eexists; reflexivity. }
  assert (Hentry : exists entry, get_field parsed "entryTime" = Normal entry).
  { destruct parsed; try discriminate Hname; eexists; reflexivity. }
  destruct Hrate as [rate Hrate]. destruct Hentry as [entry Hentry].
  destruct (truthy name) eqn:Htn.
  - cbv beta iota. rewrite Hrate. destruct (truthy rate) eqn:Htr;
      [| eexists _, _; split; reflexivity].
    cbv beta iota. rewrite ?Hrate.
    destruct (method_toString rate) as [text|e];
      [| eexists _, _; split; reflexivity].
    cbv beta iota. rewrite ?Hentry.
    destruct (truthy entry);
      (destruct (to_string name) as [shownName|e];
       [| eexists _, _; split; reflexivity]);
      (destruct (to_string rate) as [shownRate|e];
       eexists _, _; split; reflexivity).
  - rewrite Htn. eexists _, _. split; reflexivity.
Qed.

Section ScanAndSave.

Variable uuidv4 : nat -> string.
Variable now_at : nat -> string.
Variable String_trim : string -> string.
Variable parseInt : string -> number.

(** X27.  The code of a ticket with a name without white space around it
    and a whole rate from 1 to 2^53, scanned into the form and saved on a
    healthy storage, opens a second ticket with the name, the entry time
    and the rate of the first one under an identifier of its own, given
    that [parseInt] reads the decimal digits of the rate back: the rate
    passes through its decimal text and [parseInt] unchanged. *)
Theorem scanned_code_reopens_ticket (name entry id timestamp : string) (p : Z)
  (s : state) (w : world) (old : list value) :
  name <> "" -> String_trim name = name -> entry <> "" ->
  (0 < p <= 2 ^ 53)%Z ->
  parseInt (JSON.digits (Z.to_N p)) = Int p ->
  uuidv4 (ids_minted w) <> "" ->
  faults w = [] -> stored (disk w) ACTIVE_TICKETS_KEY = VArr old ->
  exists s' w1 t w2,
    handleBarCodeScanned
      (JSON_stringify (qr_payload name entry (Int p) id timestamp)) s w
    = (Normal tt, s', w1) /\
    parkingName s' = VStr name /\
    pricePerHour s' = JSON.digits (Z.to_N p) /\
    entryTime s' = VStr entry /\
    useCurrentTime s' = false /\
    handleSave uuidv4 now_at String_trim parseInt s' w1 = (Normal tt, w2) /\
    stored (disk w2) ACTIVE_TICKETS_KEY = VArr (old ++ [t]) /\
    field t "parkingName" = VStr name /\
    field t "entryTime" = VStr entry /\
    field t "pricePerHour" = VNum (Int p) /\
    field t "id" = VStr (uuidv4 (ids_minted w)) /\
    field t "status" = VStr "active".
Proof.
  intros Hname Htrim Hentry Hp Hint Hid Hf Hold.
  assert (Hp' : (0 < p < 10 ^ 21)%Z).
  { change (2 ^ 53)%Z with 9007199254740992%Z in Hp.
    change (10 ^ 21)%Z with 1000000000000000000000%Z. lia. }
  set (payload := qr_payload name entry (Int p) id timestamp).
  assert (Hparse : JSON_parse (JSON_stringify payload) = Normal payload).
  { apply JSONFacts.parse_stringify. reflexivity. }
  assert (Hscan := form_scan_accepts (JSON_stringify payload) _ name p s w
                     Hparse eq_refl Hname eq_refl Hp').
  cbn [obj_get String.eqb Ascii.eqb Bool.eqb] in Hscan.
  assert (Hte : truthy (VStr entry) = true).
  { rewrite truthy_str. apply String.eqb_neq in Hentry. now rewrite Hentry. }
  rewrite Hte in Hscan.
  set (w1 := with_alert _ w) in Hscan.
  set (s' := State (VStr name) (JSON.digits (Z.to_N p)) (VStr entry) false false)
    in Hscan.
  assert (Hsave := handleSave_own_entry_time uuidv4 now_at String_trim parseInt
                     (Form name (JSON.digits (Z.to_N p)) entry false) w1 old).
  simpl in Hsave. rewrite Hint, Htrim in Hsave.
  destruct (Hsave Hname ltac:(simpl; lia) eq_refl Hentry Hf Hid Hold)
    as [message Hrun].
  eexists s', w1, _, _.
  split; [exact Hscan |].
  split; [reflexivity |]. split; [reflexivity |].
  split; [reflexivity |]. split; [reflexivity |].
  split.
  { rewrite (handleSave_on_strings uuidv4 now_at String_trim parseInt s' name
               entry w1 eq_refl (fun _ => eq_refl)).
    exact Hrun. }
  split.
  { simpl disk. apply stored_written.
    rewrite forallb_app, (tickets_clean _ _ _ Hold).
    cbn [forallb andb]. now rewrite clean_opened_record. }
  repeat split; reflexivity.
Qed.

End ScanAndSave.

End FormScanner.

(** ** Statistics of the history *)

Lemma num_add_Int (a b : Z) : num_add (Int a) (Int b) = Int (a + b).
Proof.
  unfold num_add, Int. cbn [Nat.max Nat.sub normalize].
  change (10 ^ Z.of_nat 0)%Z with 1%Z. now rewrite !Z.mul_1_r.
Qed.

Section StatisticsFacts.

Variable StringToNumber : string -> number.

Lemma reduce_amounts (l : list value) : forall (amounts : list Z) (acc : Z),
  Forall2 counts_for l amounts ->
  reduce (fun sum ticket =>
            amount ← get_field ticket "totalAmount";
            js_add StringToNumber sum
              (if truthy amount then amount else VNum (Int 0)))
         l (VNum (Int acc))
  = Normal (VNum (Int (acc + sum_Z amounts))).
Proof.
  induction l as [|t l IH]; intros amounts acc H; inversion H; subst.
  - simpl. now rewrite Z.add_0_r.
  - destruct H2 as [Hread Hamount].
    cbn [reduce]. rewrite (get_field_readable _ _ Hread).
    cbn [mbind completion_bind].
    assert (Hstep :
      js_add StringToNumber (VNum (Int acc))
        (if truthy (field t "totalAmount") then field t "totalAmount"
         else VNum (Int 0))
      = Normal (VNum (Int (acc + y)))).
    { assert (Hadd : forall b, js_add StringToNumber (VNum (Int acc)) (VNum (Int b))
                               = Normal (VNum (Int (acc + b)))).
      { intros b. unfold js_add, to_number.
        cbn [to_primitive mbind completion_bind]. now rewrite num_add_Int. }
      destruct Hamount as [Ha | [Ha ->]].
      - rewrite Ha. destruct (truthy (VNum (Int y))) eqn:Hty; [apply Hadd |].
        simpl in Hty. apply negb_false_iff, Z.eqb_eq in Hty. subst y.
        apply Hadd.
      - rewrite Ha. apply Hadd. }
    rewrite Hstep. cbn [mbind completion_bind].
    rewrite (IH _ _ H4). simpl. do 3 f_equal. lia.
Qed.

(** X28.  For a history whose tickets carry whole totals that are not
    negative, or none, with a sum below 2^52, [getStats] reports their sum,
    their number and the mean rounded to the nearest integer, a half
    rounded up; for an empty history all three are 0.  Below 2^52 the sums
    are exact and the rounding of the quotient does not reach the next
    half. *)
Theorem getStats_sum_count_mean (l : list value) (amounts : list Z) :
  Forall2 counts_for l amounts ->
  Forall (fun a => (0 <= a)%Z) amounts ->
  (sum_Z amounts < 2 ^ 52)%Z ->
  exists avg,
    getStats StringToNumber l
    = Normal (VObj [("totalAmount", VNum (Int (sum_Z amounts)));
                    ("count", VNum (Int (Z.of_nat (length l))));
                    ("avgAmount", VNum (Int avg))]) /\
    (l = [] -> avg = 0%Z) /\
    (l <> [] ->
     let n := Z.of_nat (length l) in
     (2 * n * avg - n <= 2 * sum_Z amounts < 2 * n * avg + n)%Z).
Proof.
  intros H _ _. unfold getStats.
  rewrite (reduce_amounts _ _ 0%Z H). cbn [mbind completion_bind].
  rewrite Z.add_0_l.
  destruct l as [|t l].
  - exists 0%Z. split; [reflexivity |]. split; [reflexivity | congruence].
  - set (n := Z.of_nat (length (t :: l))).
    assert (Hn : (0 < n)%Z) by (unfold n; simpl; lia).
    destruct (Z.ltb_spec 0 n); [| lia].
    exists ((2 * sum_Z amounts + n) / (2 * n))%Z.
    split.
    + unfold to_number, to_primitive, Int, Math_round_div.
      cbn [mbind completion_bind].
      change (10 ^ Z.of_nat 0)%Z with 1%Z. now rewrite !Z.mul_1_r.
    + split; [discriminate |]. intros _. cbv zeta.
      assert (Hdiv := Z.div_mod (2 * sum_Z amounts + n) (2 * n) ltac:(lia)).
      assert (Hmod := Z.mod_pos_bound (2 * sum_Z amounts + n) (2 * n) ltac:(lia)).
      nia.
Qed.

End StatisticsFacts.

(** ** Closing a ticket from its detail screen *)

Section DetailScreen.

Import TicketDetailScreen.

Variable now_at : nat -> string.
Variable Date_parse : string -> option Z.
Variable StringToNumber : string -> number.
Variable ticketId : string.

Lemma calculatePrice_any_typed (entryTime exitTime : string) (rate : number) :
  calculatePrice_any Date_parse StringToNumber (VStr entryTime) (VStr exitTime)
    (VNum rate)
  = calculatePrice Date_parse entryTime exitTime rate.
Proof.
  unfold calculatePrice_any, calculateDuration_any, calculatePrice,
    calculateDuration, Date_of.
  cbn [to_primitive mbind completion_bind].
  destruct (Date_parse entryTime), (Date_parse exitTime); reflexivity.
Qed.

Lemma calculatePrice_total (entryTime exitTime : string) (rate : number) :
  exists total, calculatePrice Date_parse entryTime exitTime rate = Normal total.
Proof.
  destruct (calculateDuration_total Date_parse entryTime exitTime) as [d Hd].
  rewrite (calculatePrice_of_duration _ _ _ _ _ Hd). eauto.
Qed.

(** X29.  On a healthy storage whose collections are arrays, the active one
    of records that can be read, the detail screen of the first active
    ticket with the identifier, a ticket with a valid entry time and a
    whole rate that is not negative, loads the ticket; the button that
    closes it reads the clock once, computes the fee of the stay up to that
    reading and announces it; the confirmation then closes the ticket with
    that exit time and that fee, which is what the history holds afterwards
    and what the final dialog shows.  The stay is at most 2^53 ms and its
    hours cost at most 2^53, so that the fee is a whole number of hours
    times the rate. *)
Theorem detail_screen_closes_with_announced_fee (o : object)
  (entry : string) (r t0 t1 : Z) (act hist : list value) (w : world) :
  faults w = [] ->
  stored (disk w) ACTIVE_TICKETS_KEY = VArr act ->
  stored (disk w) HISTORY_TICKETS_KEY = VArr hist ->
  forallb readable act = true ->
  List.find (has_id ticketId) act = Some (VObj o) ->
  obj_get o "entryTime" = VStr entry ->
  obj_get o "pricePerHour" = VNum (Int r) -> (0 <= r)%Z ->
  Date_parse entry = Some t0 ->
  Date_parse (now_at (clock_reads w)) = Some t1 ->
  (t1 - t0 <= 2 ^ 53)%Z ->
  (((t1 - t0) / 3600000 + 1) * r <= 2 ^ 53)%Z ->
  let s := State (VObj o) false in
  let exit := now_at (clock_reads w) in
  exists h total w1 w2,
    loadTicket ticketId initial w = (Normal tt, s, after_call w) /\
    total = Int (h * r) /\ (0 <= h)%Z /\ (0 <= h * r <= 2 ^ 53)%Z /\
    calculatePrice Date_parse entry exit (Int r) = Normal total /\
    handleCloseTicket now_at Date_parse StringToNumber s (after_call w)
    = (Normal (Some (exit, total)), s, w1) /\
    w1 = with_alert
           (Alert "Clôturer le ticket"
              ("Montant à payer : " +:+ Number_toString total +:+ " FCFA"
               +:+ newline +:+ newline +:+ "Confirmer la clôture du ticket ?"))
           (snd (getCurrentDateTime now_at (after_call w))) /\
    confirmClose ticketId exit total s w1 = (Normal tt, s, w2) /\
    alerts w2
    = Alert "Ticket clôturé"
        ("Montant total : " +:+ Number_toString total +:+ " FCFA")
      :: alerts w1 /\
    disk w2 !! HISTORY_TICKETS_KEY
    = Some (JSON_stringify
              (VArr (hist ++ [VObj (closed_record o exit total)]))).
Proof.
  intros Hf Hact Hhist Hread Hfind Hentry Hrate Hr Ht0 Ht1 Hfar Hfee s exit.
  destruct (fee_whole Date_parse entry exit t0 t1 r Ht0 Ht1 Hr Hfar Hfee)
    as (h & Htotal & Hh & Hhr).
  set (total := Int (h * r)) in *.
  set (w1 := with_alert
               (Alert "Clôturer le ticket"
                  ("Montant à payer : " +:+ Number_toString total +:+ " FCFA"
                   +:+ newline +:+ newline
                   +:+ "Confirmer la clôture du ticket ?"))
               (snd (getCurrentDateTime now_at (after_call w)))).
  assert (Hload : loadTicket ticketId initial w = (Normal tt, s, after_call w)).
  { unfold loadTicket, try_finally, try_catch_h.
    unfold mbind, handler_bind, await, call.
    rewrite (getTicketById_found_active _ _ _ _ Hf Hact Hread Hfind).
    reflexivity. }
  assert (Hrun : handleCloseTicket now_at Date_parse StringToNumber s (after_call w)
                 = (Normal (Some (exit, total)), s, w1)).
  { unfold handleCloseTicket.
    unfold mbind, handler_bind, get_state, sync, await, call, mret, handler_ret.
    cbn [ticket s truthy negb get_field getCurrentDateTime
         Date_now_toISOString].
    rewrite Hentry, Hrate, calculatePrice_any_typed.
    change (clock_reads (after_call w)) with (clock_reads w). fold exit.
    rewrite Htotal. reflexivity. }
  assert (Hf1 : faults w1 = []) by (simpl; now rewrite Hf).
  assert (Hex : existsb (has_id ticketId) act = true).
  { apply find_some in Hfind as [Hin Hid]. apply existsb_exists. eauto. }
  destruct (closeTicket_present ticketId exit total w1 act hist Hf1 Hact Hhist
              Hread Hex) as (k & t & Hk & Ht & Hbefore & Hclose).
  assert (Ht' : t = VObj o).
  { assert (Hsplit : act = take k act ++ t :: drop (S k) act).
    { now rewrite (take_drop_middle _ _ _ Hk). }
    rewrite Hsplit in Hfind.
    rewrite (find_app_absent _ _ _ Hbefore) in Hfind.
    cbn [List.find] in Hfind. rewrite Ht in Hfind. now injection Hfind. }
  subst t. cbn [own_props] in Hclose.
  exists h, total, w1. eexists.
  split; [exact Hload |].
  split; [reflexivity |]. split; [exact Hh |]. split; [exact Hhr |].
  split; [exact Htotal |]. split; [exact Hrun |]. split; [reflexivity |].
  split.
  { unfold confirmClose.
    unfold mbind, handler_bind, await, call. rewrite Hclose. reflexivity. }
  split; [reflexivity |].
  simpl disk. apply lookup_insert_eq.
Qed.

End DetailScreen.

(** ** More concrete runs *)

Lemma fee_charges_displayed_hours_witness :
  exists d,
    calculateDuration Engine.Date_parse "2025-01-20T14:30:00.000Z"
      Sample.exit_time = Normal d /\
    d = (60 * 2 + 5)%Z /\
    formatDuration (Int d) = duration_text 2 5 /\
    calculatePrice Engine.Date_parse "2025-01-20T14:30:00.000Z"
      Sample.exit_time (Int 50)
    = Normal (if (d =? 0)%Z then Int 0
              else num_mul (Int (if (5 =? 0)%Z then 2 else 2 + 1)) (Int 50)).
Proof.
  apply (fee_charges_displayed_hours Engine.Date_parse
           "2025-01-20T14:30:00.000Z" Sample.exit_time 1737383400000 2 5 0
           (Int 50));
    first [reflexivity | vm_compute; split; congruence
          | vm_compute; discriminate].
Defined.

Lemma calculatePrice_grows_with_exit_witness :
  exists h1 h2,
    calculatePrice Engine.Date_parse "2025-01-20T14:30:00.000Z"
      "2025-01-20T15:31:00.000Z" (Int 50) = Normal (Int (h1 * 50)) /\
    calculatePrice Engine.Date_parse "2025-01-20T14:30:00.000Z"
      Sample.exit_time (Int 50) = Normal (Int (h2 * 50)) /\
    (0 <= h1 <= h2)%Z /\ (h1 * 50 <= h2 * 50 <= 2 ^ 53)%Z.
Proof.
  apply (calculatePrice_grows_with_exit Engine.Date_parse
           "2025-01-20T14:30:00.000Z" "2025-01-20T15:31:00.000Z"
           Sample.exit_time 1737383400000 1737387060000 1737390900000 50);
    first [reflexivity | vm_compute; congruence].
Defined.

Lemma verifyTicket_valid_iff_present_witness :
  exists r,
    verifyTicket (VArr Scenario.history_tickets) (VStr Sample.ticket_id)
    = Normal (VObj r) /\
    obj_get r "isValid"
    = VBool (existsb (carries (VStr Sample.ticket_id)) Scenario.history_tickets).
Proof.
  destruct (verifyTicket_valid_iff_present Scenario.history_tickets
              (VStr Sample.ticket_id) eq_refl)
    as (r & H1 & H2 & _); [vm_compute; reflexivity |].
  exists r. split; assumption.
Defined.

Lemma displayed_status_agrees_iff_witness :
  exists r info,
    verifyTicket (VArr Scenario.history_tickets) (VStr Sample.ticket_id)
    = Normal (VObj r) /\
    formatScannedTicketInfo (VObj Scenario.forged_payload) (obj_get r "ticket")
    = Normal (VObj info) /\
    obj_get info "status" = obj_get r "status".
Proof.
  destruct (displayed_status_agrees_iff (VObj Scenario.forged_payload)
              Scenario.history_tickets (VStr Sample.ticket_id)
              Scenario.closed_ticket eq_refl eq_refl)
    as (r & info & H1 & H2 & H3); [vm_compute; reflexivity .. |].
  exists r, info. split; [exact H1 |]. split; [exact H2 |].
  apply H3. right. right. split; vm_compute; reflexivity.
Defined.

Lemma getTicketById_active_first_witness :
  exists t,
    fst (getTicketById Sample.ticket_id Sample.closed) = Normal t /\
    has_id Sample.ticket_id t = true.
Proof.
  eexists. split.
  - apply (getTicketById_active_first Sample.ticket_id Sample.closed []
             Scenario.history_tickets); vm_compute; reflexivity.
  - vm_compute. reflexivity.
Defined.

Lemma getTicketById_after_addTicket_witness :
  exists t w1,
    addTicket Engine.uuidv4 Engine.now_at
      [("parkingName", VStr "Central Lot");
       ("entryTime", VStr "2025-01-20T14:30:00.000Z");
       ("pricePerHour", VNum (Int 50))] Engine.empty_world
    = (Normal (Some t), w1) /\
    fst (getTicketById Sample.ticket_id w1) = Normal t.
Proof.
  destruct (getTicketById_after_addTicket Engine.uuidv4 Engine.now_at
              "Central Lot" "2025-01-20T14:30:00.000Z" (Int 50) []
              Engine.empty_world eq_refl eq_refl eq_refl eq_refl eq_refl)
    as (t & w1 & H1 & _ & _ & H4).
  exists t, w1. split; [exact H1 | exact H4].
Defined.

Lemma getTicketById_after_closeTicket_witness :
  exists closed,
    fst (getTicketById Sample.ticket_id Sample.closed) = Normal closed /\
    field closed "status" = VStr "closed".
Proof.
  destruct (getTicketById_after_closeTicket Sample.ticket_id Sample.exit_time
              (Int 150) Sample.opened Sample.closed)
    as (closed & H1 & _ & H3 & _);
    [vm_compute; reflexivity | vm_compute; reflexivity | vm_compute; lia
    | vm_compute; reflexivity .. |].
  exists closed. split; [exact H1 | exact H3].
Defined.

Lemma getTicketById_after_deleteHistoryTicket_witness :
  fst (getTicketById Sample.ticket_id
         (snd (deleteHistoryTicket Sample.ticket_id Sample.closed)))
  = Normal VNull.
Proof.
  apply (getTicketById_after_deleteHistoryTicket Sample.ticket_id Sample.closed
           (snd (deleteHistoryTicket Sample.ticket_id Sample.closed)));
    vm_compute; reflexivity.
Defined.

Lemma unreadable_entry_hides_tickets_witness :
  fst (getTicketById "a-1" Scenario.corrupted) = Normal VNull /\
  closeTicket "a-1" Sample.exit_time (Int 150) Scenario.corrupted
  = (Normal false, after_call Scenario.corrupted) /\
  disk (after_call Scenario.corrupted) = disk Scenario.corrupted.
Proof.
  apply (unreadable_entry_hides_tickets "a-1" Sample.exit_time (Int 150)
           Scenario.corrupted [] [] VNull);
    first [reflexivity | vm_compute; reflexivity].
Defined.

Lemma closeTicket_succeeds_for_active_ticket_witness :
  exists w',
    closeTicket Sample.ticket_id Sample.exit_time (Int 150) Sample.opened
    = (Normal true, w').
Proof.
  destruct (closeTicket_succeeds_for_active_ticket Sample.ticket_id
              Sample.exit_time (Int 150) Sample.opened
              Scenario.active_tickets [])
    as (w' & k & t & H1 & _); [vm_compute; reflexivity .. |].
  exists w'. exact H1.
Defined.

Lemma rejected_write_is_reported_witness :
  (exists w',
      addTicket Engine.uuidv4 Engine.now_at
        [("parkingName", VStr "Central Lot")] Scenario.read_only
      = (Normal None, w') /\
      disk w' = disk Scenario.read_only /\
      writes w' = writes Scenario.read_only /\
      ids_minted w' = S (ids_minted Scenario.read_only)) /\
  (exists w',
      deleteHistoryTicket "a-1" Scenario.read_only = (Normal false, w') /\
      disk w' = disk Scenario.read_only /\
      writes w' = writes Scenario.read_only).
Proof.
  apply (rejected_write_is_reported Engine.uuidv4 Engine.now_at
           [("parkingName", VStr "Central Lot")] "a-1" Scenario.read_only).
  reflexivity.
Defined.

Lemma handleSave_reports_failed_write_witness :
  exists w',
    Sample.handleSave (Form "Central Lot" "50" "" true) Scenario.read_only
    = (Normal tt, w') /\
    alerts w'
    = Alert "Erreur" "Impossible de créer le ticket"
      :: alerts Scenario.read_only /\
    disk w' = disk Scenario.read_only /\
    writes w' = writes Scenario.read_only.
Proof.
  apply (handleSave_reports_failed_write Engine.uuidv4 Engine.now_at
           Engine.String_trim Engine.parseInt
           (Form "Central Lot" "50" "" true) Scenario.read_only);
    first [discriminate | reflexivity | left; reflexivity
          | vm_compute; reflexivity].
Defined.

Lemma saved_collection_reads_back_witness :
  fst (getActiveTickets
         (snd (saveActiveTickets Scenario.three_tickets Engine.empty_world)))
  = Normal (VArr Scenario.three_tickets) /\
  fst (getHistoryTickets
         (snd (saveHistoryTickets Scenario.three_tickets Engine.empty_world)))
  = Normal (VArr Scenario.three_tickets).
Proof.
  split.
  - apply (proj1 (saved_collection_reads_back Scenario.three_tickets
                    Engine.empty_world
                    (snd (saveActiveTickets Scenario.three_tickets
                            Engine.empty_world)) eq_refl));
      reflexivity.
  - apply (proj2 (saved_collection_reads_back Scenario.three_tickets
                    Engine.empty_world
                    (snd (saveHistoryTickets Scenario.three_tickets
                            Engine.empty_world)) eq_refl));
      reflexivity.
Defined.

Lemma scan_shows_the_fields_of_the_code_witness :
  exists shown result w',
    QRScannerScreen.handleBarCodeScanned Scenario.forged_code
      QRScannerScreen.initial Sample.opened
    = (Normal tt,
       QRScannerScreen.State false false (VObj shown) (VObj result), w') /\
    obj_get result "isValid" = VBool true /\
    obj_get result "ticket" = Scenario.opened_ticket /\
    obj_get shown "parkingName" = VStr "Other Lot" /\
    field Scenario.opened_ticket "parkingName" = VStr "Central Lot".
Proof.
  destruct (scan_shows_the_fields_of_the_code Scenario.forged_code
              Scenario.forged_payload Scenario.active_tickets []
              Scenario.opened_ticket QRScannerScreen.initial Sample.opened)
    as (shown & result & w' & H1 & H2 & _ & H4 & _ & _ & H7 & _);
    [vm_compute; reflexivity .. |].
  exists shown, result, w'.
  split; [exact H1 |]. split; [exact H2 |]. split; [exact H4 |].
  split; [exact H7 | vm_compute; reflexivity].
Defined.

Lemma scan_of_unknown_ticket_witness :
  exists result w',
    QRScannerScreen.handleBarCodeScanned Scenario.unknown_code
      QRScannerScreen.initial Sample.opened
    = (Normal tt,
       QRScannerScreen.State false false (VObj Scenario.unknown_payload)
         (VObj result), w') /\
    obj_get result "status" = VStr "not_found".
Proof.
  destruct (scan_of_unknown_ticket Scenario.unknown_code
              Scenario.unknown_payload Scenario.active_tickets []
              QRScannerScreen.initial Sample.opened)
    as (result & w' & H1 & _ & _ & H4 & _); [vm_compute; reflexivity .. |].
  exists result, w'. split; [exact H1 | exact H4].
Defined.

Lemma scan_never_throws_nor_writes_witness :
  exists s' w',
    QRScannerScreen.handleBarCodeScanned "not a code" QRScannerScreen.initial
      Scenario.read_only = (Normal tt, s', w') /\
    QRScannerScreen.loading s' = false /\
    disk w' = disk Scenario.read_only /\
    writes w' = writes Scenario.read_only.
Proof.
  apply (scan_never_throws_nor_writes "not a code" QRScannerScreen.initial
           Scenario.read_only).
  reflexivity.
Defined.

Lemma scan_of_opened_ticket_witness :
  exists t w1 code shown result w2,
    addTicket Engine.uuidv4 Engine.now_at
      [("parkingName", VStr "Central Lot");
       ("entryTime", VStr "2025-01-20T14:30:00.000Z");
       ("pricePerHour", VNum (Int 50))] Engine.empty_world
    = (Normal (Some t), w1) /\
    field t "qrCodeData" = VStr code /\
    QRScannerScreen.handleBarCodeScanned code QRScannerScreen.initial w1
    = (Normal tt,
       QRScannerScreen.State false false (VObj shown) (VObj result), w2) /\
    obj_get result "status" = VStr "active" /\
    obj_get shown "parkingName" = VStr "Central Lot".
Proof.
  destruct (scan_of_opened_ticket Engine.uuidv4 Engine.now_at "Central Lot"
              "2025-01-20T14:30:00.000Z" (Int 50) [] [] Engine.empty_world)
    as (t & w1 & code & shown & result & w2 & H1 & H2 & H3 & _ & _ & H6 & _
        & _ & H9 & _);
    try first [reflexivity | discriminate].
  exists t, w1, code, shown, result, w2.
  split; [exact H1 |]. split; [exact H2 |]. split; [exact H3 |].
  split; [exact H6 | exact H9].
Defined.

Lemma scan_of_closed_ticket_witness :
  exists shown result w'',
    QRScannerScreen.handleBarCodeScanned Scenario.forged_code
      QRScannerScreen.initial Sample.closed
    = (Normal tt,
       QRScannerScreen.State false false (VObj shown) (VObj result), w'') /\
    obj_get result "status" = VStr "closed" /\
    obj_get shown "totalAmount" = VNum (Int 150).
Proof.
  destruct (scan_of_closed_ticket Sample.ticket_id Sample.exit_time (Int 150)
              Scenario.forged_code Scenario.forged_payload
              QRScannerScreen.initial Sample.opened Sample.closed)
    as (shown & result & w'' & H1 & _ & _ & H4 & _ & _ & H7 & _);
    [vm_compute; reflexivity | vm_compute; reflexivity | vm_compute; lia
    | vm_compute; reflexivity .. |].
  exists shown, result, w''.
  split; [exact H1 |]. split; [exact H4 | exact H7].
Defined.

Lemma scanned_code_reopens_ticket_witness :
  exists s' w1 t w2,
    NewTicketScreen.handleBarCodeScanned
      (JSON_stringify
         (qr_payload "Central Lot" "2025-01-20T14:30:00.000Z" (Int 50)
            Sample.ticket_id "2025-01-20T14:30:00.001Z"))
      Scenario.empty_form Sample.opened
    = (Normal tt, s', w1) /\
    NewTicketScreen.handleSave Engine.uuidv4 Engine.now_at Engine.String_trim
      Engine.parseInt s' w1 = (Normal tt, w2) /\
    stored (disk w2) ACTIVE_TICKETS_KEY
    = VArr (Scenario.active_tickets ++ [t]) /\
    field t "parkingName" = VStr "Central Lot" /\
    field t "pricePerHour" = VNum (Int 50) /\
    field t "id" = VStr (Engine.uuidv4 1).
Proof.
  destruct (scanned_code_reopens_ticket Engine.uuidv4 Engine.now_at
              Engine.String_trim Engine.parseInt "Central Lot"
              "2025-01-20T14:30:00.000Z" Sample.ticket_id
              "2025-01-20T14:30:00.001Z" 50 Scenario.empty_form Sample.opened
              Scenario.active_tickets)
    as (s' & w1 & t & w2 & H1 & _ & _ & _ & _ & H6 & H7 & H8 & _ & H10 & H11
        & _);
    [discriminate | reflexivity | discriminate
    | vm_compute; split; [reflexivity | discriminate]
    | vm_compute; reflexivity | discriminate | reflexivity
    | vm_compute; reflexivity |].
  exists s', w1, t, w2.
  split; [exact H1 |]. split; [exact H6 |]. split; [exact H7 |].
  split; [exact H8 |]. split; [exact H10 | exact H11].
Defined.

Lemma getStats_sum_count_mean_witness :
  exists avg,
    getStats Device.StringToNumber Scenario.three_tickets
    = Normal (VObj [("totalAmount", VNum (Int (sum_Z [150; 0; 101]%Z)));
                    ("count", VNum (Int (Z.of_nat 3)));
                    ("avgAmount", VNum (Int avg))]) /\
    (2 * 3 * avg - 3 <= 2 * 251 < 2 * 3 * avg + 3)%Z.
Proof.
  destruct (getStats_sum_count_mean Device.StringToNumber
              Scenario.three_tickets [150; 0; 101]%Z)
    as (avg & H1 & _ & H3).
  - repeat constructor; right; split; reflexivity.
  - repeat constructor; lia.
  - vm_compute. reflexivity.
  - exists avg. split; [exact H1 |]. apply H3. discriminate.
Defined.

Lemma detail_screen_closes_with_announced_fee_witness :
  exists w1 w2,
    TicketDetailScreen.loadTicket Sample.ticket_id TicketDetailScreen.initial
      Sample.opened
    = (Normal tt, TicketDetailScreen.State Scenario.opened_ticket false,
       after_call Sample.opened) /\
    TicketDetailScreen.handleCloseTicket Scenario.exit_clock Engine.Date_parse
      Device.StringToNumber
      (TicketDetailScreen.State Scenario.opened_ticket false)
      (after_call Sample.opened)
    = (Normal (Some (Sample.exit_time, Int 150)),
       TicketDetailScreen.State Scenario.opened_ticket false, w1) /\
    TicketDetailScreen.confirmClose Sample.ticket_id Sample.exit_time (Int 150)
      (TicketDetailScreen.State Scenario.opened_ticket false) w1
    = (Normal tt, TicketDetailScreen.State Scenario.opened_ticket false, w2).
Proof.
  destruct (detail_screen_closes_with_announced_fee Scenario.exit_clock
              Engine.Date_parse Device.StringToNumber Sample.ticket_id
              (own_props Scenario.opened_ticket) "2025-01-20T14:30:00.000Z"
              50 1737383400000 1737390900000 Scenario.active_tickets []
              Sample.opened)
    as (h & total & w1 & w2 & H1 & _ & _ & _ & H3 & H4 & _ & H5 & _);
    [reflexivity | vm_compute; reflexivity | vm_compute; reflexivity
    | vm_compute; reflexivity | vm_compute; reflexivity
    | vm_compute; reflexivity | vm_compute; reflexivity | lia
    | vm_compute; reflexivity | vm_compute; reflexivity
    | vm_compute; discriminate | vm_compute; discriminate |].
  exists w1, w2. split; [exact H1 |].
  assert (Htotal : total = Int 150).
  { vm_compute in H3. injection H3 as <-. reflexivity. }
  rewrite Htotal in H4, H5. split; [exact H4 | exact H5].
Defined.

Lemma closeTicket_only_once_witness :
  exists w'',
    closeTicket Sample.ticket_id "2025-01-21T08:00:00.000Z" (Int 900)
      Sample.closed = (Normal false, w'') /\
    disk w'' = disk Sample.closed /\ writes w'' = writes Sample.closed /\
    alerts w'' = alerts Sample.closed.
Proof.
  apply (closeTicket_only_once Sample.ticket_id Sample.exit_time
           "2025-01-21T08:00:00.000Z" (Int 150) (Int 900) Sample.opened
           Sample.closed); vm_compute; first [reflexivity | lia].
Defined.

Lemma scan_ignored_or_rejected_witness :
  QRScannerScreen.handleBarCodeScanned "not a code"
    (QRScannerScreen.State false false VNull VNull) Engine.empty_world
  = (Normal tt, QRScannerScreen.State false false VNull VNull,
     Engine.empty_world) /\
  QRScannerScreen.handleBarCodeScanned "not a code" QRScannerScreen.initial
    Engine.empty_world
  = (Normal tt, QRScannerScreen.State true false VNull VNull,
     with_alert
       (Alert "QR Code invalide"
          "Ce QR code ne contient pas de données valides de ticket")
       Engine.empty_world).
Proof.
  split.
  - apply (proj1 (scan_ignored_or_rejected "not a code"
                    (QRScannerScreen.State false false VNull VNull)
                    Engine.empty_world)).
    reflexivity.
  - apply (proj2 (scan_ignored_or_rejected "not a code"
                    QRScannerScreen.initial Engine.empty_world));
      vm_compute; reflexivity.
Defined.

Lemma form_scan_rejects_witness :
  NewTicketScreen.handleBarCodeScanned "not a code" Scenario.empty_form
    Engine.empty_world
  = (Normal tt, NewTicketScreen.setScanning false Scenario.empty_form,
     with_alert
       (Alert "Erreur de lecture"
          "Impossible de lire le QR Code. Veuillez réessayer.")
       Engine.empty_world) /\
  NewTicketScreen.handleBarCodeScanned Scenario.free_code Scenario.empty_form
    Engine.empty_world
  = (Normal tt, NewTicketScreen.setScanning false Scenario.empty_form,
     with_alert
       (Alert "QR Code invalide"
          "Le QR Code ne contient pas les informations nécessaires")
       Engine.empty_world).
Proof.
  split.
  - apply (proj1 (form_scan_rejects "not a code" Scenario.empty_form
                    Engine.empty_world)).
    left. vm_compute. reflexivity.
  - apply (proj2 (form_scan_rejects Scenario.free_code Scenario.empty_form
                    Engine.empty_world)
             [("parkingName", VStr "Central Lot");
              ("pricePerHour", VNum (Int 0))]).
    + vm_compute. reflexivity.
    + right. right. reflexivity.
Defined.
